(** * ProjetLidar: a shallow embedding of the point-cloud engine

    The development follows the Python sources of the backend
    ([app/routers/lidar_advanced.py], [app/routers/lidar.py],
    [app/routers/simulation_advanced.py] and [lidar - Copie.py]).

    Conventions of the embedding:
    - Python [float] values are idealised as rationals [Q]; Python [int]
      values are [Z];
    - a Python exception is a value [Raise e] of the type [result];
    - a recursive method receives a recursion budget (Python's recursion
      limit), a [while] loop an iteration budget; running out of the
      former is Python's [RecursionError], running out of the latter is
      reported as [Unfinished];
    - mutable objects that are never aliased (the octree nodes, the numpy
      grids) are threaded through the functions as values. *)

From Stdlib Require Import ZArith QArith Qround List Bool Lia Lqa Permutation.
Import ListNotations.
Open Scope Z_scope.

Set Warnings "-register-all".

(* ================================================================== *)
(** * Part I: the embedding                                            *)
(* ================================================================== *)

(** ** Python runtime: exceptions, sequences, numbers *)

Module Py.

Inductive exn : Type :=
| RecursionError
| IndexError
| ValueError
| AttributeError
| OverflowError
| Unfinished.

Inductive result (A : Type) : Type :=
| Ok (a : A)
| Raise (e : exn).

Arguments Ok {A} a.
Arguments Raise {A} e.

Definition bind {A B : Type} (m : result A) (k : A -> result B) : result B :=
  match m with
  | Ok a => k a
  | Raise e => Raise e
  end.

Definition is_none {A : Type} (o : option A) : bool :=
  match o with None => true | Some _ => false end.

Definition is_some {A : Type} (o : option A) : bool := negb (is_none o).

(** [len(l)] *)
Definition len {A : Type} (l : list A) : Z := Z.of_nat (length l).

(** Python's index normalisation: a negative index counts from the end. *)
Definition norm_index {A : Type} (l : list A) (i : Z) : Z :=
  if i <? 0 then i + len l else i.

(** [l[i]] *)
Definition list_get {A : Type} (l : list A) (i : Z) : result A :=
  let k := norm_index l i in
  if (k <? 0) || (len l <=? k) then Raise IndexError
  else match nth_error l (Z.to_nat k) with
       | Some a => Ok a
       | None => Raise IndexError
       end.

Fixpoint replace_nth {A : Type} (l : list A) (n : nat) (x : A) : list A :=
  match l, n with
  | [], _ => []
  | _ :: t, O => x :: t
  | h :: t, S n' => h :: replace_nth t n' x
  end.

(** [l[i] = x] *)
Definition list_set {A : Type} (l : list A) (i : Z) (x : A) : result (list A) :=
  let k := norm_index l i in
  if (k <? 0) || (len l <=? k) then Raise IndexError
  else Ok (replace_nth l (Z.to_nat k) x).

(** [enumerate(l, start)] *)
Fixpoint enumerate {A : Type} (start : Z) (l : list A) : list (Z * A) :=
  match l with
  | [] => []
  | a :: t => (start, a) :: enumerate (start + 1) t
  end.

(** [range(n)] *)
Definition range (n : Z) : list Z := map Z.of_nat (seq 0 (Z.to_nat n)).

(** Comparisons on floats. *)
Definition Qltb (a b : Q) : bool := negb (Qle_bool b a).
Definition Qgeb (a b : Q) : bool := Qle_bool b a.
Definition Qgtb (a b : Q) : bool := negb (Qle_bool a b).

(** [int(q)]: truncation toward zero. *)
Definition int_of_float (q : Q) : Z := Z.quot (Qnum q) (Zpos (Qden q)).

(** [min(l)] and [max(l)] of a float sequence; [ValueError] when empty. *)
Definition Qmin' (a b : Q) : Q := if Qle_bool a b then a else b.
Definition Qmax' (a b : Q) : Q := if Qle_bool a b then b else a.

Definition min_of (l : list Q) : result Q :=
  match l with
  | [] => Raise ValueError
  | a :: t => Ok (fold_left Qmin' t a)
  end.

Definition max_of (l : list Q) : result Q :=
  match l with
  | [] => Raise ValueError
  | a :: t => Ok (fold_left Qmax' t a)
  end.

Definition Qsum (l : list Q) : Q := fold_left Qplus l 0%Q.

(** [l.mean()] of a non-empty float sequence. *)
Definition Qmean (l : list Q) : Q := (Qsum l / inject_Z (len l))%Q.

(** [int(a / b)] on numpy floats: a division by zero gives an infinity or
    a NaN, which [int] refuses. *)
Definition int_div (a b : Q) : result Z :=
  if Qeq_bool b 0 then
    if Qeq_bool a 0 then Raise ValueError else Raise OverflowError
  else Ok (int_of_float (a / b)).

(** [a[mask]] for a boolean mask of the same length. *)
Fixpoint select {A : Type} (a : list A) (mask : list bool) : list A :=
  match a, mask with
  | x :: a', b :: mask' => if b then x :: select a' mask' else select a' mask'
  | _, _ => []
  end.

Definition bool_index {A : Type} (a : list A) (mask : list bool) : result (list A) :=
  if len a =? len mask then Ok (select a mask) else Raise IndexError.

Definition Zsum (l : list Z) : Z := fold_right Z.add 0 l.

End Py.

Import Py.

Declare Scope py_scope.
Notation "x <- m ;; k" := (bind m (fun x => k))
  (at level 61, m at next level, right associativity) : py_scope.
Notation "' pat <- m ;; k" := (bind m (fun x => match x with pat => k end))
  (at level 61, pat pattern, m at next level, right associativity) : py_scope.
Open Scope py_scope.

(** ** [OctreeNode] and [LidarProcessor.build_octree]
    ([app/routers/lidar_advanced.py]) *)

Module Octree.

Definition Point3 : Type := (Q * Q * Q)%type.

(** The per-point attribute dictionary built by [build_octree]. *)
Record Attributes : Type := mkAttributes {
  attr_index : Z;
  attr_intensity : option Q;
  attr_classification : option Z;
  attr_color : option (list Z)
}.

(** [(min_x, max_x, min_y, max_y, min_z, max_z)] *)
Definition Bounds : Type := (Q * Q * Q * Q * Q * Q)%type.

Inductive OctreeNode : Type := mkOctreeNode {
  bounds : Bounds;
  level : Z;
  points : list (Point3 * Attributes);
  children : list (option OctreeNode);
  point_count : Z;
  max_points_per_node : Z
}.

Definition set_points (n : OctreeNode) (ps : list (Point3 * Attributes)) : OctreeNode :=
  mkOctreeNode (bounds n) (level n) ps (children n) (point_count n)
    (max_points_per_node n).

Definition set_children (n : OctreeNode) (cs : list (option OctreeNode)) : OctreeNode :=
  mkOctreeNode (bounds n) (level n) (points n) cs (point_count n)
    (max_points_per_node n).

Definition set_point_count (n : OctreeNode) (c : Z) : OctreeNode :=
  mkOctreeNode (bounds n) (level n) (points n) (children n) c
    (max_points_per_node n).

(** The source assigns the literal 50000 to [max_points_per_node] in
    [__init__]. *)
Definition MAX_POINTS_PER_NODE : Z := 50000.

Section Capacity.

(** The constant assigned in [__init__], kept as a variable of the
    section so that the statements below hold for the source's value
    [MAX_POINTS_PER_NODE] and can be evaluated on small instances. *)
Variable capacity : Z.

(** [OctreeNode.__init__] *)
Definition OctreeNode_init (b : Bounds) (lvl : Z) : OctreeNode :=
  mkOctreeNode b lvl [] (repeat None 8) 0 capacity.

(** [OctreeNode.get_octant] *)
Definition get_octant (self : OctreeNode) (point : Point3) : Z :=
  let '(x, y, z) := point in
  let '(min_x, max_x, min_y, max_y, min_z, max_z) := bounds self in
  let mid_x := ((min_x + max_x) / 2)%Q in
  let mid_y := ((min_y + max_y) / 2)%Q in
  let mid_z := ((min_z + max_z) / 2)%Q in
  let octant := 0 in
  let octant := if Qgeb x mid_x then Z.lor octant 1 else octant in
  let octant := if Qgeb y mid_y then Z.lor octant 2 else octant in
  let octant := if Qgeb z mid_z then Z.lor octant 4 else octant in
  octant.

Definition octants_of (b : Bounds) : list Bounds :=
  let '(min_x, max_x, min_y, max_y, min_z, max_z) := b in
  let mid_x := ((min_x + max_x) / 2)%Q in
  let mid_y := ((min_y + max_y) / 2)%Q in
  let mid_z := ((min_z + max_z) / 2)%Q in
  [ (min_x, mid_x, min_y, mid_y, min_z, mid_z);
    (mid_x, max_x, min_y, mid_y, min_z, mid_z);
    (min_x, mid_x, mid_y, max_y, min_z, mid_z);
    (mid_x, max_x, mid_y, max_y, min_z, mid_z);
    (min_x, mid_x, min_y, mid_y, mid_z, max_z);
    (mid_x, max_x, min_y, mid_y, mid_z, max_z);
    (min_x, mid_x, mid_y, max_y, mid_z, max_z);
    (mid_x, max_x, mid_y, max_y, mid_z, max_z) ].

(** The loop [for i, bounds in enumerate(octants): self.children[i] = ...] *)
Fixpoint assign_children (lvl : Z) (cs : list (option OctreeNode))
    (obs : list (Z * Bounds)) : result (list (option OctreeNode)) :=
  match obs with
  | [] => Ok cs
  | (i, b) :: rest =>
      cs' <- list_set cs i (Some (OctreeNode_init b (lvl + 1))) ;;
      assign_children lvl cs' rest
  end.

(** [OctreeNode.subdivide] *)
Definition subdivide (self : OctreeNode) : result OctreeNode :=
  cs <- assign_children (level self) (children self)
          (enumerate 0 (octants_of (bounds self))) ;;
  Ok (set_children self cs).

(** The two statements
    [octant = self.get_octant(p); self.children[octant].insert(p, attr)],
    with the recursive call passed as [ins]. *)
Definition insert_child
    (ins : OctreeNode -> Point3 -> Attributes -> result OctreeNode)
    (self : OctreeNode) (p : Point3) (attr : Attributes) : result OctreeNode :=
  let octant := get_octant self p in
  slot <- list_get (children self) octant ;;
  match slot with
  | None => Raise AttributeError
  | Some child =>
      child' <- ins child p attr ;;
      cs <- list_set (children self) octant (Some child') ;;
      Ok (set_children self cs)
  end.

(** The loop [for p, attr in self.points: ...] of [insert]. *)
Fixpoint redistribute
    (ins : OctreeNode -> Point3 -> Attributes -> result OctreeNode)
    (self : OctreeNode) (ps : list (Point3 * Attributes)) : result OctreeNode :=
  match ps with
  | [] => Ok self
  | (p, attr) :: rest =>
      self' <- insert_child ins self p attr ;;
      redistribute ins self' rest
  end.

(** [OctreeNode.insert]; [fuel] is the depth of recursion still allowed. *)
Fixpoint insert (fuel : nat) (self : OctreeNode) (point : Point3)
    (attributes : Attributes) : result OctreeNode :=
  match fuel with
  | O => Raise RecursionError
  | S fuel' =>
      let self := set_point_count self (point_count self + 1) in
      c0 <- list_get (children self) 0 ;;
      self <- (if is_none c0 && (max_points_per_node self <=? len (points self))
               then
                 self1 <- subdivide self ;;
                 self2 <- redistribute (insert fuel') self1 (points self1) ;;
                 Ok (set_points self2 [])
               else Ok self) ;;
      c0 <- list_get (children self) 0 ;;
      if is_some c0 then insert_child (insert fuel') self point attributes
      else Ok (set_points self (points self ++ [(point, attributes)]))
  end.

(** A sequence of calls [root.insert(p, attr)]. *)
Fixpoint insert_all (fuel : nat) (root : OctreeNode)
    (ps : list (Point3 * Attributes)) : result OctreeNode :=
  match ps with
  | [] => Ok root
  | (p, attr) :: rest =>
      root' <- insert fuel root p attr ;;
      insert_all fuel root' rest
  end.

(** The fields of a [LidarProcessor] (set by its [__init__] from the LAS
    file). *)
Record LidarProcessor : Type := mkLidarProcessor {
  lp_points : list Point3;
  lp_intensity : option (list Q);
  lp_classification : option (list Z);
  lp_colors : option (list (list Z))
}.

Definition opt_get {A : Type} (o : option (list A)) (i : Z) : result (option A) :=
  match o with
  | None => Ok None
  | Some l => a <- list_get l i ;; Ok (Some a)
  end.

(** The attribute dictionary of point [i]. *)
Definition attributes_of (self : LidarProcessor) (i : Z) : result Attributes :=
  a <- opt_get (lp_intensity self) i ;;
  c <- opt_get (lp_classification self) i ;;
  k <- opt_get (lp_colors self) i ;;
  Ok (mkAttributes i a c k).

Fixpoint build_loop (fuel : nat) (self : LidarProcessor) (root : OctreeNode)
    (ips : list (Z * Point3)) : result OctreeNode :=
  match ips with
  | [] => Ok root
  | (i, point) :: rest =>
      attributes <- attributes_of self i ;;
      root' <- insert fuel root point attributes ;;
      build_loop fuel self root' rest
  end.

Definition px (p : Point3) : Q := fst (fst p).
Definition py (p : Point3) : Q := snd (fst p).
Definition pz (p : Point3) : Q := snd p.

(** [LidarProcessor.build_octree]; the parameter [max_level] is not used
    by the body. *)
Definition build_octree (fuel : nat) (self : LidarProcessor) (max_level : Z)
    : result OctreeNode :=
  min_x <- min_of (map px (lp_points self)) ;;
  min_y <- min_of (map py (lp_points self)) ;;
  min_z <- min_of (map pz (lp_points self)) ;;
  max_x <- max_of (map px (lp_points self)) ;;
  max_y <- max_of (map py (lp_points self)) ;;
  max_z <- max_of (map pz (lp_points self)) ;;
  let root := OctreeNode_init (min_x, max_x, min_y, max_y, min_z, max_z) 0 in
  build_loop fuel self root (enumerate 0 (lp_points self)).

(** The invariant kept by [insert]: a node is either a leaf whose counter
    is the size of its buffer, or a subdivided node with eight children,
    an empty buffer and a counter equal to the sum of its children's. *)
Inductive consistent : OctreeNode -> Prop :=
| consistent_leaf (n : OctreeNode) :
    children n = repeat None 8 ->
    point_count n = len (points n) ->
    max_points_per_node n = capacity ->
    consistent n
| consistent_inner (n : OctreeNode) (cs : list OctreeNode) :
    children n = map Some cs ->
    length cs = 8%nat ->
    points n = [] ->
    Forall consistent cs ->
    point_count n = Zsum (map point_count cs) ->
    max_points_per_node n = capacity ->
    consistent n.

(** What one step [self.children[octant].insert(p, attr)] does to a node
    with eight children, when the recursive call keeps the invariant. *)
Definition ins_ok (ins : OctreeNode -> Point3 -> Attributes -> result OctreeNode)
  : Prop :=
  forall c p a c', consistent c -> ins c p a = Ok c' ->
    consistent c' /\ point_count c' = point_count c + 1.

(** A full leaf once a further insertion has made it subdivide, when all
    the points of its buffer fall into octant 0: the counter is
    incremented, the eight children are created, the first of them
    receives the buffer and the buffer is emptied. *)
Definition overflowed (n : OctreeNode) : OctreeNode :=
  let cs := map (fun b => OctreeNode_init b (level n + 1))
                (octants_of (bounds n)) in
  let c0 := hd n cs in
  let c0' := set_points (set_point_count c0 (point_count c0 + len (points n)))
               (points c0 ++ points n) in
  set_points
    (set_children (set_point_count n (point_count n + 1))
       (replace_nth (map Some cs) 0 (Some c0')))
    [].

End Capacity.

(** [children[0] is not None]: the node has been subdivided. *)
Definition subdivided (n : OctreeNode) : Prop :=
  exists c cs, children n = Some c :: cs.

(** [sum(child.point_count for child in children if child is not None)] *)
Definition children_point_count (n : OctreeNode) : Z :=
  Zsum (map (fun c => match c with
                      | Some c' => point_count c'
                      | None => 0
                      end) (children n)).

(** [in_tree m n]: [m] is [n] or one of its descendants. *)
Inductive in_tree (m : OctreeNode) : OctreeNode -> Prop :=
| in_tree_here : in_tree m m
| in_tree_child (n c : OctreeNode) :
    In (Some c) (children n) -> in_tree m c -> in_tree m n.

(** A leaf after the points [l] have been appended to its buffer. *)
Definition filled (c : OctreeNode) (l : list (Point3 * Attributes)) : OctreeNode :=
  set_points (set_point_count c (point_count c + len l)) (points c ++ l).

(** A box that is reduced to the point [p]. *)
Definition degenerate_at (b : Bounds) (p : Point3) : Prop :=
  let '(x, y, z) := p in
  let '(min_x, max_x, min_y, max_y, min_z, max_z) := b in
  (min_x == x /\ max_x == x /\ min_y == y /\ max_y == y /\
   min_z == z /\ max_z == z)%Q.

(** A cube of side [w] with a corner at the origin. *)
Definition origin_box (b : Bounds) (w : Q) : Prop :=
  let '(min_x, max_x, min_y, max_y, min_z, max_z) := b in
  (min_x == 0 /\ max_x == w /\ min_y == 0 /\ max_y == w /\
   min_z == 0 /\ max_z == w)%Q.

(** The attribute arrays of a processor come from the same LAS file as
    its points: when present they have one entry per point. *)
Definition aligned (self : LidarProcessor) : Prop :=
  (forall l, lp_intensity self = Some l -> len l = len (lp_points self)) /\
  (forall l, lp_classification self = Some l -> len l = len (lp_points self)) /\
  (forall l, lp_colors self = Some l -> len l = len (lp_points self)).

(** The processor of a LAS file whose returns are at [pts], all with
    intensity 0 and class 2 (ground), and without colour channels. *)
Definition plain_cloud (pts : list Point3) : LidarProcessor :=
  mkLidarProcessor pts (Some (repeat 0%Q (length pts)))
    (Some (repeat 2 (length pts))) None.

(** [MAX_POINTS_PER_NODE + 1] returns at the same position. *)
Definition stacked_cloud (p : Point3) : LidarProcessor :=
  plain_cloud (repeat p (S (Z.to_nat MAX_POINTS_PER_NODE))).

(** [MAX_POINTS_PER_NODE] returns at the origin and one at [(1, 1, 1)]. *)
Definition corner_cloud : LidarProcessor :=
  plain_cloud (repeat (0, 0, 0)%Q (Z.to_nat MAX_POINTS_PER_NODE) ++ [(1, 1, 1)%Q]).

(** [1 / 2^(d + 2)] *)
Definition small_step (d : nat) : Q := (/ inject_Z (2 ^ (Z.of_nat d + 2)))%Q.

(** [MAX_POINTS_PER_NODE] returns at the origin, one at [(1, 1, 1)] and
    one at a distance [1 / 2^(d + 2)] of the origin. *)
Definition deep_cloud (d : nat) : LidarProcessor :=
  plain_cloud (repeat (0, 0, 0)%Q (Z.to_nat MAX_POINTS_PER_NODE) ++
               [(1, 1, 1)%Q; (small_step d, 0, 0)%Q]).

(** Four points in the box [[0,4]^3], for a node capacity of 2. *)
Definition four_points : list (Point3 * Attributes) :=
  [ ((1, 1, 1)%Q, mkAttributes 0 None None None);
    ((3, 3, 3)%Q, mkAttributes 1 None None None);
    ((1, 3, 1)%Q, mkAttributes 2 None None None);
    ((3, 1, 3)%Q, mkAttributes 3 None None None) ].

End Octree.

(** ** [LidarProcessor.generate_tiles] ([app/routers/lidar_advanced.py]) *)

Module Tiles.

Import Octree.

Record Tile : Type := mkTile {
  tile_bounds : Q * Q * Q * Q;
  tile_point_count : Z;
  tile_points : list Point3;
  tile_center : Q * Q
}.

(** The boolean mask of the points inside [[x, x + s) * [y, y + s)]. *)
Definition in_tile (x y tile_size : Q) (p : Point3) : bool :=
  Qgeb (px p) x && Qltb (px p) (x + tile_size) &&
  Qgeb (py p) y && Qltb (py p) (y + tile_size).

(** The inner loop [while y < max_y], on the list [tiles] built so far. *)
Fixpoint tiles_along_y (fuel : nat) (pts : list Point3) (tile_size x max_y : Q)
    (y : Q) (tiles : list Tile) : result (list Tile) :=
  match fuel with
  | O => Raise Unfinished
  | S fuel' =>
      if Qltb y max_y then
        let tile_points := filter (in_tile x y tile_size) pts in
        let tiles :=
          if 0 <? len tile_points
          then tiles ++ [mkTile (x, x + tile_size, y, y + tile_size)%Q
                           (len tile_points) tile_points
                           ((x + x + tile_size) / 2, (y + y + tile_size) / 2)%Q]
          else tiles in
        tiles_along_y fuel' pts tile_size x max_y (y + tile_size)%Q tiles
      else Ok tiles
  end.

(** The outer loop [while x < max_x]. *)
Fixpoint tiles_along_x (fuel : nat) (pts : list Point3)
    (tile_size max_x min_y max_y : Q) (x : Q) (tiles : list Tile)
    : result (list Tile) :=
  match fuel with
  | O => Raise Unfinished
  | S fuel' =>
      if Qltb x max_x then
        tiles <- tiles_along_y fuel pts tile_size x max_y min_y tiles ;;
        tiles_along_x fuel' pts tile_size max_x min_y max_y (x + tile_size)%Q tiles
      else Ok tiles
  end.

(** [LidarProcessor.generate_tiles]; [fuel] bounds the number of
    iterations of each loop. *)
Definition generate_tiles (fuel : nat) (self : LidarProcessor) (tile_size : Q)
    : result (list Tile) :=
  min_x <- min_of (map px (lp_points self)) ;;
  min_y <- min_of (map py (lp_points self)) ;;
  max_x <- max_of (map px (lp_points self)) ;;
  max_y <- max_of (map py (lp_points self)) ;;
  tiles_along_x fuel (lp_points self) tile_size max_x min_y max_y min_x [].

(** Two returns, at opposite corners of a square of side 100. *)
Definition square_cloud : LidarProcessor :=
  plain_cloud [(0, 0, 0)%Q; (100, 100, 7)%Q].

End Tiles.

(** ** Tiling in [lidar - Copie.py] *)

Module TilesCopie.

Import Octree.

Definition TILE_SIZE : Q := 200.

(** [compute_tile_index] *)
Definition compute_tile_index (x y min_x min_y : Q) : Z * Z :=
  let tx := int_of_float ((x - min_x) / TILE_SIZE) in
  let ty := int_of_float ((y - min_y) / TILE_SIZE) in
  (tx, ty).

Definition key_eqb (k1 k2 : Z * Z) : bool :=
  (fst k1 =? fst k2) && (snd k1 =? snd k2).

(** The dictionary [tiles], in insertion order. *)
Definition TileDict : Type := list ((Z * Z) * list Point3).

(** [tiles.setdefault(key, []).append(p)] *)
Fixpoint setdefault_append (tiles : TileDict) (key : Z * Z) (p : Point3)
    : TileDict :=
  match tiles with
  | [] => [(key, [p])]
  | (k, v) :: rest =>
      if key_eqb k key then (k, v ++ [p]) :: rest
      else (k, v) :: setdefault_append rest key p
  end.

(** The loop [for p in pts] of [generate_tiles]. *)
Fixpoint assign_tiles (min_x min_y : Q) (pts : list Point3) (tiles : TileDict)
    : TileDict :=
  match pts with
  | [] => tiles
  | p :: rest =>
      let '(tx, ty) := compute_tile_index (px p) (py p) min_x min_y in
      assign_tiles min_x min_y rest (setdefault_append tiles (tx, ty) p)
  end.

(** [generate_tiles], up to the dictionary that is written to disk. *)
Definition generate_tiles (pts : list Point3) : result TileDict :=
  min_x <- min_of (map px pts) ;;
  min_y <- min_of (map py pts) ;;
  Ok (assign_tiles min_x min_y pts []).

End TilesCopie.

(** ** Rasters: DTM, DSM, gap filling and building heights
    ([app/routers/lidar_advanced.py]) *)

Module Raster.

Import Octree.

(** A two-dimensional numpy array of floats, row by row; [None] is NaN. *)
Definition Grid : Type := list (list (option Q)).

Definition is_nan (v : option Q) : bool := is_none v.

(** [g.shape] *)
Definition shape_of {A : Type} (g : list (list A)) : Z * Z :=
  (len g, match g with [] => 0 | row :: _ => len row end).

(** A two-dimensional array of [rows] x [cols] cells. *)
Definition rectangular {A : Type} (g : list (list A)) (rows cols : Z) : Prop :=
  len g = rows /\ Forall (fun row => len row = cols) g.

(** [np.full((ny, nx), v)] *)
Definition np_full {A : Type} (ny nx : Z) (v : A) : result (list (list A)) :=
  if (ny <? 0) || (nx <? 0) then Raise ValueError
  else Ok (repeat (repeat v (Z.to_nat nx)) (Z.to_nat ny)).

(** [g[j, i]] *)
Definition grid_get {A : Type} (g : list (list A)) (j i : Z) : result A :=
  row <- list_get g j ;; list_get row i.

(** [g[j, i] = v] *)
Definition grid_set {A : Type} (g : list (list A)) (j i : Z) (v : A)
    : result (list (list A)) :=
  row <- list_get g j ;;
  row' <- list_set row i v ;;
  list_set g j row'.

(** The cell at non-negative coordinates, when it exists. *)
Definition cell {A : Type} (g : list (list A)) (r c : Z) : option A :=
  match nth_error g (Z.to_nat r) with
  | Some row => nth_error row (Z.to_nat c)
  | None => None
  end.

(** *** [scipy.ndimage.generic_filter(grid, f, size=3, mode='constant',
    cval=nan)], after the documentation of scipy: [f] receives, for every
    cell, the 3 x 3 window centred on it in row-major order, cells outside
    the array being replaced by [cval]. *)

Definition cell_or_cval (g : Grid) (j i : Z) : option Q :=
  if (0 <=? j) && (0 <=? i) then
    match nth_error g (Z.to_nat j) with
    | Some row =>
        match nth_error row (Z.to_nat i) with
        | Some v => v
        | None => None
        end
    | None => None
    end
  else None.

Definition window3 (g : Grid) (j i : Z) : list (option Q) :=
  [ cell_or_cval g (j - 1) (i - 1); cell_or_cval g (j - 1) i;
    cell_or_cval g (j - 1) (i + 1);
    cell_or_cval g j (i - 1); cell_or_cval g j i; cell_or_cval g j (i + 1);
    cell_or_cval g (j + 1) (i - 1); cell_or_cval g (j + 1) i;
    cell_or_cval g (j + 1) (i + 1) ].

Definition generic_filter3 (g : Grid) (f : list (option Q) -> option Q) : Grid :=
  map (fun jr : Z * list (option Q) =>
         map (fun iv : Z * option Q => f (window3 g (fst jr) (fst iv)))
             (enumerate 0 (snd jr)))
      (enumerate 0 g).

(** The values that are not NaN: [values[~np.isnan(values)]]. *)
Fixpoint valid_values (values : list (option Q)) : list Q :=
  match values with
  | [] => []
  | Some v :: rest => v :: valid_values rest
  | None :: rest => valid_values rest
  end.

(** The inner function [fill_nan] of [_fill_nan_grid]. *)
Definition fill_nan (values : list (option Q)) : option Q :=
  let valid := valid_values values in
  if 0 <? len valid then Some (Qmean valid) else None.

(** [np.nanmean(g)]; NaN on a grid without any value. *)
Definition nanmean (g : Grid) : option Q :=
  let valid := valid_values (concat g) in
  if 0 <? len valid then Some (Qmean valid) else None.

(** [LidarProcessor._fill_nan_grid] *)
Definition _fill_nan_grid (grid : Grid) : Grid :=
  let filled := generic_filter3 grid fill_nan in
  let global_mean := nanmean filled in
  map (map (fun v => if is_nan v then global_mean else v)) filled.

(** *** Ground points *)

Definition in_cell (x y cell_size : Q) (p : Point3) : bool :=
  Qgeb (px p) x && Qltb (px p) (x + cell_size) &&
  Qgeb (py p) y && Qltb (py p) (y + cell_size).

(** [cell_points[cell_points[:, 2].argmin()]]: the first point of least
    elevation. *)
Fixpoint lowest_from (best : Point3) (l : list Point3) : Point3 :=
  match l with
  | [] => best
  | p :: rest => lowest_from (if Qltb (pz p) (pz best) then p else best) rest
  end.

Fixpoint ground_along_y (fuel : nat) (pts : list Point3) (cell_size x max_y : Q)
    (y : Q) (ground_points : list Point3) : result (list Point3) :=
  match fuel with
  | O => Raise Unfinished
  | S fuel' =>
      if Qltb y max_y then
        let cell_points := filter (in_cell x y cell_size) pts in
        let ground_points :=
          match cell_points with
          | p :: rest => ground_points ++ [lowest_from p rest]
          | [] => ground_points
          end in
        ground_along_y fuel' pts cell_size x max_y (y + cell_size)%Q ground_points
      else Ok ground_points
  end.

Fixpoint ground_along_x (fuel : nat) (pts : list Point3)
    (cell_size max_x min_y max_y : Q) (x : Q) (ground_points : list Point3)
    : result (list Point3) :=
  match fuel with
  | O => Raise Unfinished
  | S fuel' =>
      if Qltb x max_x then
        ground_points <-
          ground_along_y fuel pts cell_size x max_y min_y ground_points ;;
        ground_along_x fuel' pts cell_size max_x min_y max_y (x + cell_size)%Q
          ground_points
      else Ok ground_points
  end.

(** [LidarProcessor._extract_ground_simple] *)
Definition _extract_ground_simple (fuel : nat) (self : LidarProcessor)
    (cell_size : Q) : result (list Point3) :=
  min_x <- min_of (map px (lp_points self)) ;;
  min_y <- min_of (map py (lp_points self)) ;;
  max_x <- max_of (map px (lp_points self)) ;;
  max_y <- max_of (map py (lp_points self)) ;;
  ground_along_x fuel (lp_points self) cell_size max_x min_y max_y min_x [].

(** [LidarProcessor.extract_ground_points] *)
Definition extract_ground_points (fuel : nat) (self : LidarProcessor)
    : result (list Point3) :=
  match lp_classification self with
  | None => _extract_ground_simple fuel self 1
  | Some classification =>
      let ground_mask := map (fun c => c =? 2) classification in
      bool_index (lp_points self) ground_mask
  end.

(** *** DTM and DSM *)

(** The dictionary returned by [generate_dtm] and [generate_dsm]. *)
Record RasterModel : Type := mkRasterModel {
  rm_grid : Grid;
  rm_resolution : Q;
  rm_bounds : Q * Q * Q * Q;   (* (min_x, max_x, min_y, max_y) *)
  rm_shape : Z * Z             (* (ny, nx) *)
}.

Definition Qlt_cell (z : Q) (v : option Q) : bool :=
  match v with Some c => Qltb z c | None => false end.

Definition Qgt_cell (z : Q) (v : option Q) : bool :=
  match v with Some c => Qgtb z c | None => false end.

(** The loop [for point in ground] of [generate_dtm]. *)
Fixpoint dtm_loop (ground : list Point3) (min_x min_y resolution : Q)
    (nx ny : Z) (dtm : Grid) : result Grid :=
  match ground with
  | [] => Ok dtm
  | point :: rest =>
      i <- int_div (px point - min_x) resolution ;;
      j <- int_div (py point - min_y) resolution ;;
      dtm <- (if (0 <=? i) && (i <? nx) && (0 <=? j) && (j <? ny) then
                cur <- grid_get dtm j i ;;
                if is_nan cur || Qlt_cell (pz point) cur
                then grid_set dtm j i (Some (pz point))
                else Ok dtm
              else Ok dtm) ;;
      dtm_loop rest min_x min_y resolution nx ny dtm
  end.

(** [LidarProcessor.generate_dtm] *)
Definition generate_dtm (fuel : nat) (self : LidarProcessor) (resolution : Q)
    : result RasterModel :=
  ground <- extract_ground_points fuel self ;;
  min_x <- min_of (map px ground) ;;
  min_y <- min_of (map py ground) ;;
  max_x <- max_of (map px ground) ;;
  max_y <- max_of (map py ground) ;;
  nx0 <- int_div (max_x - min_x) resolution ;;
  let nx := nx0 + 1 in
  ny0 <- int_div (max_y - min_y) resolution ;;
  let ny := ny0 + 1 in
  dtm <- np_full ny nx None ;;
  dtm <- dtm_loop ground min_x min_y resolution nx ny dtm ;;
  let dtm := _fill_nan_grid dtm in
  Ok (mkRasterModel dtm resolution (min_x, max_x, min_y, max_y) (ny, nx)).

(** The loop [for point in self.points] of [generate_dsm]. A cell that
    still holds the initial [-inf] is [None]: every elevation is greater
    than it, and the statement [dsm[dsm == -np.inf] = np.nan] that follows
    the loop turns it into NaN, which is [None] as well. *)
Fixpoint dsm_loop (pts : list Point3) (min_x min_y resolution : Q)
    (nx ny : Z) (dsm : Grid) : result Grid :=
  match pts with
  | [] => Ok dsm
  | point :: rest =>
      i <- int_div (px point - min_x) resolution ;;
      j <- int_div (py point - min_y) resolution ;;
      dsm <- (if (0 <=? i) && (i <? nx) && (0 <=? j) && (j <? ny) then
                cur <- grid_get dsm j i ;;
                if is_none cur || Qgt_cell (pz point) cur
                then grid_set dsm j i (Some (pz point))
                else Ok dsm
              else Ok dsm) ;;
      dsm_loop rest min_x min_y resolution nx ny dsm
  end.

(** [LidarProcessor.generate_dsm] *)
Definition generate_dsm (self : LidarProcessor) (resolution : Q)
    : result RasterModel :=
  min_x <- min_of (map px (lp_points self)) ;;
  min_y <- min_of (map py (lp_points self)) ;;
  max_x <- max_of (map px (lp_points self)) ;;
  max_y <- max_of (map py (lp_points self)) ;;
  nx0 <- int_div (max_x - min_x) resolution ;;
  let nx := nx0 + 1 in
  ny0 <- int_div (max_y - min_y) resolution ;;
  let ny := ny0 + 1 in
  dsm <- np_full ny nx None ;;
  dsm <- dsm_loop (lp_points self) min_x min_y resolution nx ny dsm ;;
  let dsm := _fill_nan_grid dsm in
  Ok (mkRasterModel dsm resolution (min_x, max_x, min_y, max_y) (ny, nx)).

(** *** Building heights *)

(** numpy broadcasting along one axis: lengths must agree unless one of
    them is 1. *)
Definition broadcast_len (n1 n2 : Z) : result Z :=
  if n1 =? n2 then Ok n1
  else if n1 =? 1 then Ok n2
  else if n2 =? 1 then Ok n1
  else Raise ValueError.

Definition stretch {A : Type} (l : list A) (n : Z) : list A :=
  if len l =? n then l
  else match l with
       | x :: _ => repeat x (Z.to_nat n)
       | [] => []
       end.

Definition Qsub_cell (a b : option Q) : option Q :=
  match a, b with
  | Some x, Some y => Some (x - y)%Q
  | _, _ => None
  end.

Fixpoint zip_with {A B C : Type} (f : A -> B -> C) (l1 : list A) (l2 : list B)
    : list C :=
  match l1, l2 with
  | a :: t1, b :: t2 => f a b :: zip_with f t1 t2
  | _, _ => []
  end.

Definition sub_rows (r1 r2 : list (option Q)) : result (list (option Q)) :=
  n <- broadcast_len (len r1) (len r2) ;;
  Ok (zip_with Qsub_cell (stretch r1 n) (stretch r2 n)).

Fixpoint sub_all (g1 g2 : Grid) : result Grid :=
  match g1, g2 with
  | r1 :: t1, r2 :: t2 =>
      r <- sub_rows r1 r2 ;; t <- sub_all t1 t2 ;; Ok (r :: t)
  | _, _ => Ok []
  end.

(** [g1 - g2] on two-dimensional arrays. *)
Definition np_sub (g1 g2 : Grid) : result Grid :=
  n <- broadcast_len (len g1) (len g2) ;;
  sub_all (stretch g1 n) (stretch g2 n).

Definition get2 {A : Type} (d : A) (g : list (list A)) (j i : Z) : A :=
  if (0 <=? j) && (0 <=? i)
  then nth (Z.to_nat i) (nth (Z.to_nat j) g []) d
  else d.

Definition set2 {A : Type} (g : list (list A)) (j i : Z) (v : A) : list (list A) :=
  replace_nth g (Z.to_nat j) (replace_nth (nth (Z.to_nat j) g []) (Z.to_nat i) v).

(** [scipy.ndimage.label(mask)] with its default structuring element,
    after the documentation of scipy: the features are the sets of true
    cells connected through shared edges, numbered from 1 in the order in
    which a row-major scan meets them. *)
Fixpoint flood (fuel : nat) (mask : list (list bool)) (labeled : list (list Z))
    (id : Z) (stack : list (Z * Z)) : list (list Z) :=
  match fuel, stack with
  | S fuel', (j, i) :: rest =>
      if get2 false mask j i && (get2 0 labeled j i =? 0) then
        flood fuel' mask (set2 labeled j i id) id
          ((j - 1, i) :: (j + 1, i) :: (j, i - 1) :: (j, i + 1) :: rest)
      else flood fuel' mask labeled id rest
  | _, _ => labeled
  end.

Definition cells_of {A : Type} (g : list (list A)) : list (Z * Z) :=
  concat (map (fun jr : Z * list A =>
                 map (fun iv : Z * A => (fst jr, fst iv)) (enumerate 0 (snd jr)))
              (enumerate 0 g)).

Fixpoint label_scan (fuel : nat) (cells : list (Z * Z)) (mask : list (list bool))
    (labeled : list (list Z)) (num : Z) : list (list Z) * Z :=
  match cells with
  | [] => (labeled, num)
  | (j, i) :: rest =>
      if get2 false mask j i && (get2 0 labeled j i =? 0) then
        label_scan fuel rest mask (flood fuel mask labeled (num + 1) [(j, i)])
          (num + 1)
      else label_scan fuel rest mask labeled num
  end.

Definition label (mask : list (list bool)) : list (list Z) * Z :=
  let cells := cells_of mask in
  label_scan (4 * length cells + 1) cells mask (map (map (fun _ => 0)) mask) 0.

Record Building : Type := mkBuilding {
  b_id : Z;
  b_area_cells : Z;
  b_area_m2 : Q;
  b_height_min : Q;
  b_height_max : Q;
  b_height_mean : Q;
  b_center_x : Q;
  b_center_y : Q
}.

(** [mask.sum()] *)
Definition mask_sum (mask : list (list bool)) : Z :=
  len (filter (fun b : bool => b) (concat mask)).

(** [np.where(mask)]: the row and column indices of the true cells. *)
Definition np_where (mask : list (list bool)) : list Z * list Z :=
  let cells := select (cells_of mask) (concat mask) in
  (map fst cells, map snd cells).

(** The dictionary appended for the feature [building_id]. *)
Definition building_of (dtm : RasterModel) (height_model : Grid)
    (mask : list (list bool)) (building_id : Z) : result Building :=
  let heights := valid_values (select (concat height_model) (concat mask)) in
  let '(y_indices, x_indices) := np_where mask in
  let '(min_x, _, min_y, _) := rm_bounds dtm in
  height_min <- min_of heights ;;
  height_max <- max_of heights ;;
  Ok (mkBuilding building_id (mask_sum mask)
        (inject_Z (mask_sum mask) * (rm_resolution dtm * rm_resolution dtm))%Q
        height_min height_max (Qmean heights)
        (Qmean (map inject_Z x_indices) * rm_resolution dtm + min_x)%Q
        (Qmean (map inject_Z y_indices) * rm_resolution dtm + min_y)%Q).

Definition Qgt_threshold (t : Q) (v : option Q) : bool :=
  match v with Some h => Qgtb h t | None => false end.

(** The loop [for building_id in range(1, num_buildings + 1)]. *)
Fixpoint buildings_loop (dtm : RasterModel) (height_model : Grid)
    (labeled : list (list Z)) (ids : list Z) (buildings : list Building)
    : result (list Building) :=
  match ids with
  | [] => Ok buildings
  | building_id :: rest =>
      let mask := map (map (fun l => l =? building_id)) labeled in
      if mask_sum mask <? 10 then
        buildings_loop dtm height_model labeled rest buildings
      else
        b <- building_of dtm height_model mask building_id ;;
        buildings_loop dtm height_model labeled rest (buildings ++ [b])
  end.

(** [LidarProcessor.calculate_building_heights] *)
Definition calculate_building_heights (dtm dsm : RasterModel)
    : result (list Building) :=
  height_model <- np_sub (rm_grid dsm) (rm_grid dtm) ;;
  let building_threshold := 2%Q in
  let building_mask := map (map (Qgt_threshold building_threshold)) height_model in
  let '(labeled, num_buildings) := label building_mask in
  buildings_loop dtm height_model labeled
    (map (fun k => k + 1) (range num_buildings)) [].

(** *** Sample inputs *)

(** A 1 x 2 grid without any missing cell. *)
Definition two_cells : Grid := [[Some 0%Q; Some 3%Q]].

(** Two ground returns next to each other and the top of a mast. *)
Definition mast_cloud : LidarProcessor :=
  mkLidarProcessor [(0, 0, 0)%Q; (1, 1, 0)%Q; (5, 5, 10)%Q]
    (Some [0%Q; 0%Q; 0%Q]) (Some [2; 2; 6]) None.

(** The 3 x 3 scenario: a flat terrain and a single raised cell. *)
Definition flat3 : Grid :=
  [ [Some 0%Q; Some 0%Q; Some 0%Q];
    [Some 0%Q; Some 0%Q; Some 0%Q];
    [Some 0%Q; Some 0%Q; Some 0%Q] ].

Definition peak3 : Grid :=
  [ [Some 0%Q; Some 0%Q; Some 0%Q];
    [Some 0%Q; Some 5%Q; Some 0%Q];
    [Some 0%Q; Some 0%Q; Some 0%Q] ].

Definition dtm3 : RasterModel := mkRasterModel flat3 1 (0, 2, 0, 2)%Q (3, 3).
Definition dsm3 : RasterModel := mkRasterModel peak3 1 (0, 2, 0, 2)%Q (3, 3).

End Raster.

(** ** [ViewshedAnalyzer] ([app/routers/simulation_advanced.py]) *)

Module Viewshed.

(** The elevation model: a two-dimensional numpy array, row by row. *)
Definition Dem : Type := list (list Q).

(** [dem.shape] *)
Definition shape (dem : Dem) : Z * Z := Raster.shape_of dem.

(** The loop [while True] of [_bresenham_line]; [fuel] bounds the number
    of iterations. *)
Fixpoint bresenham_loop (fuel : nat) (x1 y1 dx dy sx sy : Z) (x y err : Z)
    (points : list (Z * Z)) : result (list (Z * Z)) :=
  match fuel with
  | O => Raise Unfinished
  | S fuel' =>
      let points := points ++ [(x, y)] in
      if (x =? x1) && (y =? y1) then Ok points
      else
        let e2 := 2 * err in
        let '(err, x) := if e2 >? - dy then (err - dy, x + sx) else (err, x) in
        let '(err, y) := if e2 <? dx then (err + dx, y + sy) else (err, y) in
        bresenham_loop fuel' x1 y1 dx dy sx sy x y err points
  end.

(** [ViewshedAnalyzer._bresenham_line] *)
Definition _bresenham_line (fuel : nat) (x0 y0 x1 y1 : Z) : result (list (Z * Z)) :=
  let dx := Z.abs (x1 - x0) in
  let dy := Z.abs (y1 - y0) in
  let sx := if x0 <? x1 then 1 else -1 in
  let sy := if y0 <? y1 then 1 else -1 in
  let err := dx - dy in
  bresenham_loop fuel x1 y1 dx dy sx sy x0 y0 err [].

(** [l[1:-1]] *)
Definition inner_slice {A : Type} (l : list A) : list A := removelast (tl l).

(** The loop [for point_idx, (r, c) in enumerate(line_points[1:-1], 1)];
    [n] is [len(line_points)]. The result is the final [is_visible]. *)
Fixpoint sight_loop (dem : Dem) (obs_elevation target_elevation : Q) (n : Z)
    (pts : list (Z * (Z * Z))) : result bool :=
  match pts with
  | [] => Ok true
  | (point_idx, (r, c)) :: rest =>
      let fraction := (inject_Z point_idx / inject_Z n)%Q in
      let sight_line_elevation :=
        (obs_elevation + fraction * (target_elevation - obs_elevation))%Q in
      h <- Raster.grid_get dem r c ;;
      if Qgtb h sight_line_elevation then Ok false
      else sight_loop dem obs_elevation target_elevation n rest
  end.

(** The body of the two nested loops, for the cell [(i, j)]. *)
Definition visit_cell (fuel : nat) (dem : Dem) (obs_row obs_col : Z)
    (obs_elevation target_height : Q) (i j : Z) (visible : list (list bool))
    : result (list (list bool)) :=
  if (i =? obs_row) && (j =? obs_col) then Ok visible
  else
    line_points <- _bresenham_line fuel obs_row obs_col i j ;;
    t <- Raster.grid_get dem i j ;;
    let target_elevation := (t + target_height)%Q in
    is_visible <- sight_loop dem obs_elevation target_elevation
                    (len line_points) (enumerate 1 (inner_slice line_points)) ;;
    Raster.grid_set visible i j is_visible.

Fixpoint visit_row (fuel : nat) (dem : Dem) (obs_row obs_col : Z)
    (obs_elevation target_height : Q) (i : Z) (js : list Z)
    (visible : list (list bool)) : result (list (list bool)) :=
  match js with
  | [] => Ok visible
  | j :: rest =>
      visible <- visit_cell fuel dem obs_row obs_col obs_elevation
                   target_height i j visible ;;
      visit_row fuel dem obs_row obs_col obs_elevation target_height i rest
        visible
  end.

Fixpoint visit_rows (fuel : nat) (dem : Dem) (obs_row obs_col : Z)
    (obs_elevation target_height : Q) (cols : Z) (row_indices : list Z)
    (visible : list (list bool)) : result (list (list bool)) :=
  match row_indices with
  | [] => Ok visible
  | i :: rest =>
      visible <- visit_row fuel dem obs_row obs_col obs_elevation
                   target_height i (range cols) visible ;;
      visit_rows fuel dem obs_row obs_col obs_elevation target_height cols
        rest visible
  end.

(** [ViewshedAnalyzer.calculate]; [fuel] bounds the number of iterations
    of the line tracing. *)
Definition calculate (fuel : nat) (dem : Dem) (observer_pos : Z * Z)
    (observer_height target_height : Q) : result (list (list bool)) :=
  let '(rows, cols) := shape dem in
  let '(obs_row, obs_col) := observer_pos in
  e <- Raster.grid_get dem obs_row obs_col ;;
  let obs_elevation := (e + observer_height)%Q in
  let visible := map (map (fun _ => false)) dem in
  visible <- Raster.grid_set visible obs_row obs_col true ;;
  visit_rows fuel dem obs_row obs_col obs_elevation target_height cols
    (range rows) visible.

(** A raster of constant elevation. *)
Definition constant (dem : Dem) (elevation : Q) : Prop :=
  Forall (Forall (fun v => v == elevation)%Q) dem.

(** A cell of the rectangle spanned by [(x0, y0)] and [(x1, y1)]. *)
Definition in_span (x0 y0 x1 y1 : Z) (p : Z * Z) : Prop :=
  Z.min x0 x1 <= fst p <= Z.max x0 x1 /\ Z.min y0 y1 <= snd p <= Z.max y0 y1.

(** A cell of a raster of [rows] x [cols] cells. *)
Definition in_grid (rows cols : Z) (p : Z * Z) : Prop :=
  0 <= fst p < rows /\ 0 <= snd p < cols.

(** The raster is flat, at the elevation [elev], and both heights are
    non-negative. *)
Definition flat (dem : Dem) (observer_height target_height : Q) (elev : Q)
    : Prop :=
  constant dem elev /\ (0 <= observer_height)%Q /\ (0 <= target_height)%Q.

(** The invariant of the two loops of [calculate]: [visible] has the
    shape of the raster, the observer cell is marked, and on a flat raster
    every cell of [T] is marked. *)
Definition loop_inv (dem : Dem) (rows cols obs_row obs_col : Z)
    (observer_height target_height : Q)
    (visible : list (list bool)) (T : Z -> Z -> Prop) : Prop :=
  Raster.rectangular visible rows cols /\
  Raster.cell visible obs_row obs_col = Some true /\
  forall elev, flat dem observer_height target_height elev ->
    forall r c, in_grid rows cols (r, c) -> T r c ->
                Raster.cell visible r c = Some true.

(** A flat 3 x 4 raster at elevation 12. *)
Definition plateau : Dem := repeat (repeat 12%Q 4) 3.

End Viewshed.

(** ** Random sampling ([app/routers/lidar.py] and
    [app/routers/lidar_advanced.py]) *)

Module Sampling.

Import Octree.

(** [a[indices]] for a sequence of integer indices. *)
Fixpoint take {A : Type} (a : list A) (indices : list Z) : result (list A) :=
  match indices with
  | [] => Ok []
  | i :: rest => x <- list_get a i ;; t <- take a rest ;; Ok (x :: t)
  end.

(** The response of an endpoint: a body or an [HTTPException]. *)
Inductive http (A : Type) : Type :=
| Response (body : A)
| HTTPException (status_code : Z).

Arguments Response {A} body.
Arguments HTTPException {A} status_code.

(** The dimensions of a LAS file that [get_lidar_sample] reads. *)
Record LasData : Type := mkLasData {
  las_x : list Q;
  las_y : list Q;
  las_z : list Q;
  las_classification : option (list Z);
  las_intensity : option (list Z)
}.

Record SampleBody : Type := mkSampleBody {
  sb_point_count : Z;
  sb_x : list Q;
  sb_y : list Q;
  sb_z : list Q;
  sb_classifications : option (list Z);
  sb_intensities : option (list Z);
  sb_bounds : Q * Q * Q * Q * Q * Q
}.

Definition take_opt {A : Type} (o : option (list A)) (indices : list Z)
    : result (option (list A)) :=
  match o with
  | None => Ok None
  | Some a => t <- take a indices ;; Ok (Some t)
  end.


(** A LAS file: every dimension has one entry per point. *)
Definition las_well_formed (las : LasData) : Prop :=
  len (las_y las) = len (las_x las) /\
  len (las_z las) = len (las_x las) /\
  (forall a, las_classification las = Some a -> len a = len (las_x las)) /\
  (forall a, las_intensity las = Some a -> len a = len (las_x las)).



Section Generator.

(** numpy's process-wide generator, which is seeded from the operating
    system when the process starts unless [np.random.seed] is called.
    None of the sources calls it. The state of the generator is threaded
    through the operations that draw from it. *)
Variable RandomState : Type.

(** [np.random.permutation(n)]: the permutation drawn and the state of
    the generator after the draw. *)
Variable permutation : RandomState -> Z -> list Z * RandomState.

(** [np.random.choice(pop_size, size, replace=False)], after numpy's
    implementation: the first [size] entries of a permutation of the
    population, and [ValueError] on a size that is negative or larger
    than the population. *)
Definition choice (g : RandomState) (pop_size size : Z)
    : result (list Z) * RandomState :=
  if (pop_size <=? 0) && negb (size =? 0) then (Raise ValueError, g)
  else if pop_size <? size then (Raise ValueError, g)
  else if size <? 0 then (Raise ValueError, g)
  else
    let '(perm, g') := permutation g pop_size in
    (Ok (firstn (Z.to_nat size) perm), g').

(** Two states of the generator from which the same permutations would
    be drawn. *)
Definition same_draws (g1 g2 : RandomState) : Prop :=
  forall n, fst (permutation g1 n) = fst (permutation g2 n).

(** The body of the [try] block of [get_lidar_sample], once the file has
    been read and the indices drawn. *)
Definition sample_body (las : LasData) (sample_size : Z) (indices : list Z)
    : result SampleBody :=
  x <- take (las_x las) indices ;;
  y <- take (las_y las) indices ;;
  z <- take (las_z las) indices ;;
  classifications <- take_opt (las_classification las) indices ;;
  intensities <- take_opt (las_intensity las) indices ;;
  min_x <- min_of (las_x las) ;;
  max_x <- max_of (las_x las) ;;
  min_y <- min_of (las_y las) ;;
  max_y <- max_of (las_y las) ;;
  min_z <- min_of (las_z las) ;;
  max_z <- max_of (las_z las) ;;
  Ok (mkSampleBody sample_size x y z classifications intensities
        (min_x, max_x, min_y, max_y, min_z, max_z)).

(** [get_lidar_sample] ([app/routers/lidar.py]). [lidar] is the outcome
    of the database query ([None]: no such row) followed by the outcome
    of [laspy.read]. The endpoint has no parameter besides the identifier
    of the file and [sample_size]. *)
Definition get_lidar_sample (g : RandomState) (lidar : option (result LasData))
    (sample_size : Z) : http SampleBody * RandomState :=
  match lidar with
  | None => (HTTPException 404, g)
  | Some (Raise _) => (HTTPException 500, g)
  | Some (Ok las) =>
      let n := len (las_x las) in
      let sample_size := Z.min (Z.min sample_size 50000) n in
      let '(indices, g') := choice g n sample_size in
      match indices with
      | Raise _ => (HTTPException 500, g')
      | Ok indices =>
          match sample_body las sample_size indices with
          | Ok body => (Response body, g')
          | Raise _ => (HTTPException 500, g')
          end
      end
  end.

(** [cKDTree(sample[:, :2]).query(sample[:, :2], k=2)] followed by
    [distances[:, 1].mean()]: the mean distance of the sampled positions
    to their nearest neighbour, computed by scipy. *)
Variable mean_neighbour_distance : list (Q * Q) -> Q.


(** [scipy.spatial.Delaunay(points_2d).simplices] *)
Variable delaunay : list (Q * Q) -> result (list (list Z)).


End Generator.

(** A generator to evaluate the operations with: its state is a counter,
    and the permutation it draws is [range(n)] rotated by the counter. *)
Definition rotation (state : Z) (n : Z) : list Z * Z :=
  let k := Z.to_nat (state mod (Z.max n 1)) in
  (skipn k (range n) ++ firstn k (range n), state + 1).

(** A file of three returns. *)
Definition three_returns : LasData :=
  mkLasData [10; 20; 30]%Q [1; 2; 3]%Q [5; 6; 7]%Q
    (Some [2; 2; 6]) (Some [100; 110; 120]).

End Sampling.

(** ** The octree, continued: what a tree holds and where *)

Module OctreeMore.

Import Octree.

(** The closed box [b] contains [p]. *)
Definition in_box (b : Bounds) (p : Point3) : Prop :=
  let '(x, y, z) := p in
  let '(min_x, max_x, min_y, max_y, min_z, max_z) := b in
  (min_x <= x /\ x <= max_x /\ min_y <= y /\ y <= max_y /\
   min_z <= z /\ z <= max_z)%Q.

(** All the [(point, attributes)] pairs stored in a node and below it. *)
Fixpoint tree_points (n : OctreeNode) : list (Point3 * Attributes) :=
  points n ++
  flat_map (fun c => match c with
                     | Some c' => tree_points c'
                     | None => []
                     end) (children n).

(** The dictionary returned by [OctreeNode.to_dict]. *)
Record NodeDict : Type := mkNodeDict {
  nd_bounds : Bounds;
  nd_level : Z;
  nd_point_count : Z;
  nd_has_children : bool;
  nd_children_ids : list Z
}.

(** [OctreeNode.to_dict] *)
Definition to_dict (self : OctreeNode) : result NodeDict :=
  c0 <- list_get (children self) 0 ;;
  ids <- (fix collect (is_ : list Z) : result (list Z) :=
            match is_ with
            | [] => Ok []
            | i :: rest =>
                c <- list_get (children self) i ;;
                t <- collect rest ;;
                Ok (if is_some c then i :: t else t)
            end) (range 8) ;;
  Ok (mkNodeDict (bounds self) (level self) (point_count self)
        (is_some c0) ids).

Section Capacity.

Variable capacity : Z.

(** The shape of the trees that [insert] builds: a leaf holds at most
    [capacity] points; a subdivided node has an empty buffer and eight
    children, one level further down, whose boxes are the octants of its
    own box. *)
Inductive shaped : OctreeNode -> Prop :=
| shaped_leaf (n : OctreeNode) :
    children n = repeat None 8 ->
    len (points n) <= Z.max capacity 0 ->
    max_points_per_node n = capacity ->
    shaped n
| shaped_inner (n : OctreeNode) (cs : list OctreeNode) :
    children n = map Some cs ->
    length cs = 8%nat ->
    points n = [] ->
    map bounds cs = octants_of (bounds n) ->
    Forall (fun c => level c = level n + 1) cs ->
    Forall shaped cs ->
    max_points_per_node n = capacity ->
    shaped n.

End Capacity.

(** Every point stored in a node, at any depth, lies in the box of the
    node that stores it. *)
Inductive placed : OctreeNode -> Prop :=
| placed_node (n : OctreeNode) :
    Forall (fun pa => in_box (bounds n) (fst pa)) (points n) ->
    (forall c, In (Some c) (children n) -> placed c) ->
    placed n.

(** A cloud of six returns in the cube of side 4. *)
Definition six_returns : LidarProcessor :=
  plain_cloud [ (1, 1, 1)%Q; (3, 3, 3)%Q; (1, 3, 1)%Q; (3, 1, 3)%Q;
                (0, 0, 0)%Q; (4, 4, 4)%Q ].

End OctreeMore.

(** ** Levels of detail, streaming budget and the tile endpoints
    ([app/routers/lidar_advanced.py]) *)

Module Lod.

Import Octree Sampling.

(** The elements of [l] at positions [skip], [skip + stride],
    [skip + 2 * stride], ... *)
Fixpoint every_from {A : Type} (stride skip : nat) (l : list A) : list A :=
  match l with
  | [] => []
  | a :: t =>
      match skip with
      | O => a :: every_from stride (stride - 1) t
      | S k => every_from stride k t
      end
  end.

(** [l[::stride]] for an integer [stride]: a zero step is refused and a
    negative one walks the sequence backwards from its last element. *)
Definition slice_step {A : Type} (l : list A) (stride : Z) : result (list A) :=
  if stride =? 0 then Raise ValueError
  else if 0 <? stride then Ok (every_from (Z.to_nat stride) 0 l)
  else Ok (every_from (Z.to_nat (- stride)) 0 (rev l)).

(** The value of [4 ** level]: an [int] for a non-negative exponent, a
    [float] for a negative one. *)
Inductive number : Type :=
| Int (z : Z)
| Float (q : Q).

Definition pow4 (level : Z) : number :=
  if 0 <=? level then Int (4 ^ level)
  else Float (/ inject_Z (4 ^ (- level)))%Q.

(** [range(a, b)] *)
Definition range_from (a b : Z) : list Z := map (fun k => a + k) (range (b - a)).

(** The loop of [generate_lod_levels]. *)
Fixpoint lod_loop (points : list Point3) (levels : list Z)
    (lod_levels : list (list Point3)) : result (list (list Point3)) :=
  match levels with
  | [] => Ok lod_levels
  | level :: rest =>
      let stride := 4 ^ level in
      decimated <- slice_step points stride ;;
      lod_loop points rest (lod_levels ++ [decimated])
  end.

(** [LidarProcessor.generate_lod_levels]; the levels of the loop start at
    1, so that [4 ** level] is an [int]. *)
Definition generate_lod_levels (self : LidarProcessor) (num_levels : Z)
    : result (list (list Point3)) :=
  lod_loop (lp_points self) (range_from 1 num_levels) [lp_points self].

(** One entry of [lod_info]. *)
Record LodInfo : Type := mkLodInfo {
  li_level : Z;
  li_point_count : Z;
  li_stride : Z
}.

(** The loop [while current_points > points_per_frame] of
    [estimate_streaming_budget]. *)
Fixpoint budget_loop (fuel : nat) (points_per_frame current_points level : Z)
    (lod_levels : list LodInfo) : result (list LodInfo) :=
  match fuel with
  | O => Raise Unfinished
  | S fuel' =>
      if points_per_frame <? current_points then
        budget_loop fuel' points_per_frame (current_points / 4) (level + 1)
          (lod_levels ++ [mkLodInfo level current_points (4 ^ level)])
      else Ok lod_levels
  end.

Record Budget : Type := mkBudget {
  total_points : Z;
  target_fps : Z;
  points_per_frame_budget : Z;
  lod_levels_needed : Z;
  lod_info : list LodInfo;
  memory_estimate_mb : Q
}.

(** [LidarProcessor.estimate_streaming_budget] *)
Definition estimate_streaming_budget (fuel : nat) (self : LidarProcessor)
    (target_fps points_per_frame : Z) : result Budget :=
  let total_points := len (lp_points self) in
  lod_levels <- budget_loop fuel points_per_frame total_points 0 [] ;;
  Ok (mkBudget total_points target_fps points_per_frame (len lod_levels)
        lod_levels
        (inject_Z (total_points * 12) / inject_Z (1024 * 1024))%Q).

(** *** Endpoints *)

(** What the body of an endpoint can raise: a built-in exception of the
    interpreter, the [TypeError] of a slice whose step is a float, the
    [ZeroDivisionError] of a float division, or an [HTTPException]
    raised by the body itself. *)
Inductive raised : Type :=
| Builtin (e : exn)
| TypeError
| ZeroDivisionError
| HTTP (status_code : Z).

Inductive outcome (A : Type) : Type :=
| Done (a : A)
| Thrown (e : raised).

Arguments Done {A} a.
Arguments Thrown {A} e.

Definition lift {A : Type} (r : result A) : outcome A :=
  match r with
  | Ok a => Done a
  | Raise e => Thrown (Builtin e)
  end.

Definition and_then {A B : Type} (m : outcome A) (k : A -> outcome B)
    : outcome B :=
  match m with
  | Done a => k a
  | Thrown e => Thrown e
  end.

(** [try: body  except Exception as e: raise HTTPException(500, str(e))].
    [HTTPException] derives from [Exception], so one raised by the body
    is replaced as well. A loop that does not finish is not an exception
    and is not caught. *)
Definition except_500 {A : Type} (body : outcome A) : result (http A) :=
  match body with
  | Done a => Ok (Response a)
  | Thrown (Builtin Unfinished) => Raise Unfinished
  | Thrown _ => Ok (HTTPException 500)
  end.

Record LevelBody : Type := mkLevelBody {
  lb_level : Z;
  lb_point_count : Z;
  lb_points : list Point3;
  lb_stride : Z
}.

(** [get_octree_level]. [lidar] is the outcome of the database query
    ([None]: no such row) followed by the outcome of building the
    [LidarProcessor] from the file. *)
Definition get_octree_level (lidar : option (result LidarProcessor)) (level : Z)
    : result (http LevelBody) :=
  match lidar with
  | None => Ok (HTTPException 404)
  | Some processor =>
      except_500
        (and_then (lift processor) (fun processor =>
         match pow4 level with
         | Float _ => Thrown TypeError
         | Int stride =>
             and_then (lift (slice_step (lp_points processor) stride))
               (fun points =>
                let max_points := 100000 in
                let points :=
                  if max_points <? len points
                  then firstn (Z.to_nat max_points) points
                  else points in
                Done (mkLevelBody level (len points) points stride))
         end))
  end.

Record TileBody : Type := mkTileBody {
  tb_tile_id : Z;
  tb_lod : Z;
  tb_point_count : Z;
  tb_points : list Point3
}.

(** [stream_tile_points]; [generate_tiles] is called with its default
    tile size of 100. *)
Definition stream_tile_points (fuel : nat)
    (lidar : option (result LidarProcessor)) (tile_id lod : Z)
    : result (http TileBody) :=
  match lidar with
  | None => Ok (HTTPException 404)
  | Some processor =>
      except_500
        (and_then (lift processor) (fun processor =>
         and_then (lift (Tiles.generate_tiles fuel processor 100)) (fun tiles =>
         if len tiles <=? tile_id then Thrown (HTTP 404)
         else
           and_then (lift (list_get tiles tile_id)) (fun tile =>
           let tile_points := Tiles.tile_points tile in
           match pow4 lod with
           | Float _ => Thrown TypeError
           | Int stride =>
               and_then (lift (slice_step tile_points stride))
                 (fun tile_points =>
                  Done (mkTileBody tile_id lod (len tile_points) tile_points))
           end))))
  end.

Record TileMeta : Type := mkTileMeta {
  tm_bounds : Q * Q * Q * Q;
  tm_point_count : Z;
  tm_center : Q * Q
}.

Record TilesBody : Type := mkTilesBody {
  tiles_tile_count : Z;
  tiles_tile_size : Q;
  tiles_tiles : list TileMeta
}.

(** [get_spatial_tiles] *)
Definition get_spatial_tiles (fuel : nat)
    (lidar : option (result LidarProcessor)) (tile_size : Q)
    : result (http TilesBody) :=
  match lidar with
  | None => Ok (HTTPException 404)
  | Some processor =>
      except_500
        (and_then (lift processor) (fun processor =>
         and_then (lift (Tiles.generate_tiles fuel processor tile_size))
           (fun tiles =>
            let tiles_meta :=
              map (fun tile => mkTileMeta (Tiles.tile_bounds tile)
                                 (Tiles.tile_point_count tile)
                                 (Tiles.tile_center tile)) tiles in
            Done (mkTilesBody (len tiles_meta) tile_size tiles_meta))))
  end.

(** A cloud of [n] returns along the diagonal: the return of index [k] is
    at [(k, k, k)]. *)
Definition diagonal_cloud (n : nat) : LidarProcessor :=
  plain_cloud (map (fun k => (inject_Z k, inject_Z k, inject_Z k)) (range (Z.of_nat n))).

End Lod.

(** ** Tiles, continued: what a tile holds *)

Module TilesMore.

Import Octree Tiles.

(** [p] lies in the half-open rectangle [(x0, x1, y0, y1)]. *)
Definition in_bounds (b : Q * Q * Q * Q) (p : Point3) : Prop :=
  let '(x0, x1, y0, y1) := b in
  (x0 <= px p /\ px p < x1 /\ y0 <= py p /\ py p < y1)%Q.

(** A tile as [generate_tiles] appends it: a square of side [tile_size]
    with the points of the cloud that the mask selects, at least one. *)
Definition tile_of (pts : list Point3) (tile_size : Q) (t : Tile) : Prop :=
  exists x y,
    tile_bounds t = (x, x + tile_size, y, y + tile_size)%Q /\
    tile_points t = filter (in_tile x y tile_size) pts /\
    tile_point_count t = len (tile_points t) /\
    0 < tile_point_count t /\
    tile_center t = ((x + x + tile_size) / 2, (y + y + tile_size) / 2)%Q.

(** Three returns on a line of constant [x]. *)
Definition scan_line : LidarProcessor :=
  plain_cloud [(5, 0, 1)%Q; (5, 10, 2)%Q; (5, 250, 3)%Q].

End TilesMore.

(** ** Rasters, continued: sample models *)

Module RasterMore.

Import Raster.

(** A flat terrain of 4 x 4 cells and a surface 5 m above it. *)
Definition terrain4 : RasterModel :=
  mkRasterModel (repeat (repeat (Some 0%Q) 4) 4) 1 (0, 3, 0, 3)%Q (4, 4).

Definition roof4 : RasterModel :=
  mkRasterModel (repeat (repeat (Some 5%Q) 4) 4) 1 (0, 3, 0, 3)%Q (4, 4).

(** What [calculate_building_heights] reports about a building: at
    least ten cells, all of them more than 2 m above the terrain. *)
Definition tall_and_wide (b : Building) : Prop :=
  10 <= b_area_cells b /\
  (2 < b_height_min b)%Q /\
  (b_height_min b <= b_height_max b)%Q.

End RasterMore.

(** ** Line tracing, continued, and [FloodSimulator]
    ([app/routers/simulation_advanced.py]) *)

Module ViewshedMore.

(** Two different cells that touch by an edge or by a corner. *)
Definition king_move (p q : Z * Z) : Prop :=
  Z.abs (fst q - fst p) <= 1 /\ Z.abs (snd q - snd p) <= 1 /\ p <> q.

(** Every point of the list is a king's move away from the next one. *)
Fixpoint chained (l : list (Z * Z)) : Prop :=
  match l with
  | [] => True
  | p :: t =>
      match t with
      | [] => True
      | q :: _ => king_move p q /\ chained t
      end
  end.

End ViewshedMore.

Module Flood.

Import Viewshed.

Record Statistics : Type := mkStatistics {
  total_area_sqm : Q;
  flooded_area_sqm : Q;
  flooded_percentage : Q;
  max_depth_m : Q;
  avg_depth_m : Q;
  flooded_cells : Z
}.

Record FloodResult : Type := mkFloodResult {
  flooded_mask : list (list bool);
  water_depth : list (list Q);
  statistics : Statistics
}.

(** [water_depth[~flooded] = 0] *)
Definition clear_dry (depth : list (list Q)) (flooded : list (list bool))
    : list (list Q) :=
  Raster.zip_with (Raster.zip_with (fun (d : Q) (f : bool) => if f then d else 0%Q))
    depth flooded.

(** [FloodSimulator.simulate] with [include_flow] left to its default
    [False]. *)
Definition simulate (dem : Dem) (water_level resolution : Q)
    : result FloodResult :=
  let flooded := map (map (fun z => Qle_bool z water_level)) dem in
  let water_depth := map (map (fun z => Qmax' 0 (water_level - z))) dem in
  let water_depth := clear_dry water_depth flooded in
  let total_cells := len (concat dem) in
  let flooded_cells := Raster.mask_sum flooded in
  let flooded_area := (inject_Z flooded_cells * resolution * resolution)%Q in
  max_depth <- max_of (concat water_depth) ;;
  let avg_depth :=
    if 0 <? flooded_cells
    then Qmean (select (concat water_depth) (concat flooded))
    else 0%Q in
  Ok (mkFloodResult flooded water_depth
        (mkStatistics
           (inject_Z total_cells * resolution * resolution)%Q
           flooded_area
           (inject_Z flooded_cells / inject_Z total_cells * 100)%Q
           max_depth avg_depth flooded_cells)).

(** A valley between two ridges. *)
Definition valley : Dem := [ [5; 1; 4]%Q; [6; 2; 7]%Q ].

End Flood.

(** ** [LidarProcessor.plan_drone_path] ([app/routers/lidar_advanced.py]) *)

Module Drone.

Import Octree.

Definition Waypoint : Type := (Q * Q * Q)%type.

(** The loop [while y <= max_y]. *)
Fixpoint waypoints_loop (fuel : nat) (min_x max_x max_y altitude line_spacing : Q)
    (y : Q) (direction : Z) (waypoints : list Waypoint)
    : result (list Waypoint) :=
  match fuel with
  | O => Raise Unfinished
  | S fuel' =>
      if Qle_bool y max_y then
        let waypoints :=
          if direction =? 1
          then (waypoints ++ [(min_x, y, altitude)]) ++ [(max_x, y, altitude)]
          else (waypoints ++ [(max_x, y, altitude)]) ++ [(min_x, y, altitude)] in
        waypoints_loop fuel' min_x max_x max_y altitude line_spacing
          (y + line_spacing)%Q (direction * -1) waypoints
      else Ok waypoints
  end.

Record Plan : Type := mkPlan {
  waypoints : list Waypoint;
  total_distance_m : Q;
  num_waypoints : Z;
  altitude_m : Q;
  overlap : Q;
  estimated_time_min : Q
}.

Section Sqrt.

(** [np.sqrt] *)
Variable np_sqrt : Q -> Q.

(** The loop [for i in range(len(waypoints) - 1)]. *)
Fixpoint distance_loop (waypoints : list Waypoint) (total_distance : Q) : Q :=
  match waypoints with
  | (xa, ya, _) :: (((xb, yb, _) :: _) as rest) =>
      let dx := (xb - xa)%Q in
      let dy := (yb - ya)%Q in
      distance_loop rest (total_distance + np_sqrt (dx * dx + dy * dy))%Q
  | _ => total_distance
  end.

(** [LidarProcessor.plan_drone_path] *)
Definition plan_drone_path (fuel : nat) (self : LidarProcessor)
    (altitude overlap : Q) (bounds : option (Q * Q * Q * Q)) : result Plan :=
  ' (min_x, max_x, min_y, max_y) <-
    match bounds with
    | None =>
        min_x <- min_of (map px (lp_points self)) ;;
        min_y <- min_of (map py (lp_points self)) ;;
        max_x <- max_of (map px (lp_points self)) ;;
        max_y <- max_of (map py (lp_points self)) ;;
        Ok (min_x, max_x, min_y, max_y)
    | Some b => Ok b
    end ;;
  let fov_height := 40%Q in
  let line_spacing := (fov_height * (1 - overlap))%Q in
  waypoints <- waypoints_loop fuel min_x max_x max_y altitude line_spacing
                 min_y 1 [] ;;
  let total_distance := distance_loop waypoints 0 in
  Ok (mkPlan waypoints total_distance (len waypoints) altitude overlap
        (total_distance / (10 * 60))%Q).

End Sqrt.

(** The waypoints of the flight lines at the ordinates [ys], two for a
    line, flown towards [max_x] when [direction] is 1 and back towards
    [min_x] otherwise, the direction changing from a line to the next. *)
Fixpoint serpentine (min_x max_x altitude : Q) (direction : Z) (ys : list Q)
    : list Waypoint :=
  match ys with
  | [] => []
  | y :: rest =>
      (if direction =? 1
       then [(min_x, y, altitude); (max_x, y, altitude)]
       else [(max_x, y, altitude); (min_x, y, altitude)])
      ++ serpentine min_x max_x altitude (direction * -1) rest
  end.

(** [np.sqrt] on the integers that are squares. *)
Definition sqrt_of_square (q : Q) : Q := inject_Z (Z.sqrt (Qfloor q)).

End Drone.

(** ** The stand-alone router [lidar - Copie.py] *)

Module Copie.

Import Octree Sampling.

Definition GRID_SIZE : Q := 5.

(** Python's [min(a, b)] and [max(a, b)]: the first argument is kept
    unless the second is strictly smaller (greater). *)
Definition py_min (a b : Q) : Q := if Qltb b a then b else a.
Definition py_max (a b : Q) : Q := if Qgtb b a then b else a.

(** *** [build_octree] *)

(** The dictionary [{"points": ..., "children": ...}]. *)
Inductive Tree : Type :=
| Node (points : list Point3) (children : list Tree).

(** The mask of the octant [(dx, dy, dz)] around [center]. *)
Definition octant_mask (center : Point3) (d : bool * bool * bool) (p : Point3)
    : bool :=
  let '(dx, dy, dz) := d in
  Bool.eqb (Qgtb (px p) (px center)) dx &&
  Bool.eqb (Qgtb (py p) (py center)) dy &&
  Bool.eqb (Qgtb (pz p) (pz center)) dz.

(** The octants in the order of the three nested loops. *)
Definition octants : list (bool * bool * bool) :=
  [ (false, false, false); (false, false, true);
    (false, true, false); (false, true, true);
    (true, false, false); (true, false, true);
    (true, true, false); (true, true, true) ].

(** The three nested loops, with the recursive call passed as [rec]. *)
Fixpoint children_loop (rec : list Point3 -> result Tree)
    (points : list Point3) (center : Point3) (ds : list (bool * bool * bool))
    (children : list Tree) : result (list Tree) :=
  match ds with
  | [] => Ok children
  | d :: rest =>
      let subset := filter (octant_mask center d) points in
      children <- (if 0 <? len subset
                   then child <- rec subset ;; Ok (children ++ [child])
                   else Ok children) ;;
      children_loop rec points center rest children
  end.

(** [build_octree]; [fuel] is the depth of recursion still allowed. *)
Fixpoint build_octree (fuel : nat) (points : list Point3)
    (depth max_depth max_points : Z) : result Tree :=
  match fuel with
  | O => Raise RecursionError
  | S fuel' =>
      if (max_depth <=? depth) || (len points <=? max_points)
      then Ok (Node points [])
      else
        let center := (Qmean (map px points), Qmean (map py points),
                       Qmean (map pz points)) in
        children <- children_loop
                      (fun subset => build_octree fuel' subset (depth + 1)
                                       max_depth max_points)
                      points center octants [] ;;
        Ok (Node [] children)
  end.

(** The points held by a tree, and the number of levels below its root. *)
Fixpoint tree_points (t : Tree) : list Point3 :=
  match t with
  | Node points children => points ++ flat_map tree_points children
  end.

Fixpoint height (t : Tree) : Z :=
  match t with
  | Node _ children =>
      fold_right (fun c h => Z.max (1 + height c) h) 0 children
  end.

(** *** [generate_dtm] and [generate_dsm] *)

(** The dictionary [grid], in insertion order. *)
Definition GridDict : Type := list ((Z * Z) * Q).

(** [grid[key] = choose(grid.get(key, z), z)] *)
Fixpoint grid_update (choose : Q -> Q -> Q) (grid : GridDict) (key : Z * Z)
    (z : Q) : GridDict :=
  match grid with
  | [] => [(key, choose z z)]
  | (k, v) :: rest =>
      if TilesCopie.key_eqb k key then (k, choose v z) :: rest
      else (k, v) :: grid_update choose rest key z
  end.

(** The loop [for p in pts]. *)
Fixpoint grid_loop (choose : Q -> Q -> Q) (min_x min_y : Q)
    (pts : list Point3) (grid : GridDict) : GridDict :=
  match pts with
  | [] => grid
  | p :: rest =>
      let gx := int_of_float ((px p - min_x) / GRID_SIZE) in
      let gy := int_of_float ((py p - min_y) / GRID_SIZE) in
      let key := (gx, gy) in
      grid_loop choose min_x min_y rest (grid_update choose grid key (pz p))
  end.

(** The list [out] that the endpoint writes to disk. *)
Definition cells_out (min_x min_y : Q) (grid : GridDict) : list (Q * Q * Q) :=
  map (fun kv : (Z * Z) * Q =>
         let '((gx, gy), z) := kv in
         (min_x + inject_Z gx * GRID_SIZE, min_y + inject_Z gy * GRID_SIZE, z)%Q)
      grid.

Definition generate_model (choose : Q -> Q -> Q) (pts : list Point3)
    : result (list (Q * Q * Q)) :=
  min_x <- min_of (map px pts) ;;
  min_y <- min_of (map py pts) ;;
  Ok (cells_out min_x min_y (grid_loop choose min_x min_y pts [])).

(** [generate_dtm] and [generate_dsm], up to the list written to disk:
    the two functions differ by [min] and [max] only. *)
Definition generate_dtm (pts : list Point3) : result (list (Q * Q * Q)) :=
  generate_model py_min pts.

Definition generate_dsm (pts : list Point3) : result (list (Q * Q * Q)) :=
  generate_model py_max pts.

(** *** [adaptive_stream] *)

Section Generator.

Variable RandomState : Type.
Variable permutation : RandomState -> Z -> list Z * RandomState.

(** [adaptive_stream], once [load_points] has read the file. *)
Definition adaptive_stream (g : RandomState) (pts : list Point3) (distance : Q)
    : Lod.outcome (list Point3) * RandomState :=
  if Qeq_bool distance 0 then (Lod.Thrown Lod.ZeroDivisionError, g)
  else
    let factor := py_min 1 (500 / distance) in
    let sample := Z.max 1000 (int_of_float (inject_Z (len pts) * factor)) in
    let '(idx, g') := choice RandomState permutation g (len pts) sample in
    (Lod.and_then (Lod.lift idx) (fun idx => Lod.lift (take pts idx)), g').

End Generator.

(** Four returns in two cells of the grid. *)
Definition two_cells_cloud : list Point3 :=
  [ (0, 0, 3)%Q; (1, 1, 8)%Q; (7, 0, 2)%Q; (2, 2, 5)%Q ].

End Copie.

(** ** [process_lidar] ([app/routers/lidar.py]) *)

From Stdlib Require String.

Module Process.

Import Sampling.
Import String.

(** [np.unique(a, return_counts=True)], after the documentation of
    numpy: the sorted unique values and the number of times each occurs.
    The values are inserted one by one in a sorted list of counters. *)
Fixpoint count_into (counts : list (Z * Z)) (c : Z) : list (Z * Z) :=
  match counts with
  | [] => [(c, 1)]
  | (k, n) :: rest =>
      if c <? k then (c, 1) :: (k, n) :: rest
      else if c =? k then (k, n + 1) :: rest
      else (k, n) :: count_into rest c
  end.

Definition np_unique (a : list Z) : list (Z * Z) := fold_left count_into a [].

(** [class_names.get(cls, "Unknown")] *)
Definition class_name (cls : Z) : String.string :=
  if cls =? 0 then "Never classified"%string
  else if cls =? 1 then "Unassigned"%string
  else if cls =? 2 then "Ground"%string
  else if cls =? 3 then "Low Vegetation"%string
  else if cls =? 4 then "Medium Vegetation"%string
  else if cls =? 5 then "High Vegetation"%string
  else if cls =? 6 then "Building"%string
  else if cls =? 7 then "Low Point"%string
  else if cls =? 9 then "Water"%string
  else if cls =? 17 then "Bridge Deck"%string
  else "Unknown"%string.

Record ClassStat : Type := mkClassStat {
  cs_name : String.string;
  cs_count : Z;
  cs_percentage : Q
}.

(** The bodies that [process_lidar] returns. The dictionary [classes] is
    keyed by the class, in the order of [np.unique]. *)
Inductive ProcessBody : Type :=
| ClassificationStats (total_points : Z) (classes : list (Z * ClassStat))
| NoClassification
| Density (points_per_sqm : Q) (total_points : Z) (area_sqm : Q)
| InDevelopment (operation : String.string).

(** [process_lidar]. [lidar] is the outcome of the database query
    ([None]: no such row) followed by the outcome of [laspy.read]. *)
Definition process_lidar (lidar : option (result LasData))
    (operation : String.string) : http ProcessBody :=
  match lidar with
  | None => HTTPException 404
  | Some (Raise _) => HTTPException 500
  | Some (Ok las) =>
      let n := len (las_x las) in
      if String.eqb operation "classification"%string then
        match las_classification las with
        | Some classification =>
            let stats :=
              map (fun uc : Z * Z =>
                     let '(cls, count) := uc in
                     (cls, mkClassStat (class_name cls) count
                             (inject_Z count / inject_Z n * 100)%Q))
                  (np_unique classification) in
            Response (ClassificationStats n stats)
        | None => Response NoClassification
        end
      else if String.eqb operation "density"%string then
        match
          (max_x <- max_of (las_x las) ;;
           min_x <- min_of (las_x las) ;;
           max_y <- max_of (las_y las) ;;
           min_y <- min_of (las_y las) ;;
           let area := ((max_x - min_x) * (max_y - min_y))%Q in
           let density := if Qgtb area 0 then (inject_Z n / area)%Q else 0%Q in
           Ok (Density density n area))
        with
        | Ok body => Response body
        | Raise _ => HTTPException 500
        end
      else Response (InDevelopment operation)
  end.

(** The operation that returns the statistics by class. *)
Definition classification : String.string := "classification"%string.

(** The counters of a body of classification statistics. *)
Definition class_counts (classes : list (Z * ClassStat)) : list Z :=
  map (fun kc => cs_count (snd kc)) classes.

(** The keys are in strictly increasing order, all above [lo] when it is
    given. *)
Fixpoint increasing_from (lo : option Z) (l : list Z) : Prop :=
  match l with
  | [] => True
  | a :: t =>
      match lo with Some b => b < a | None => True end /\
      increasing_from (Some a) t
  end.

Definition increasing (l : list Z) : Prop := increasing_from None l.

End Process.

(** ** numpy's process-wide generator

    [np.random.choice] and [np.random.permutation] are methods of the
    legacy generator of numpy, a Mersenne Twister (MT19937). The
    definitions follow numpy's own sources ([mt19937_seed],
    [mt19937_gen] and [mt19937_next], [random_interval], and the methods
    [shuffle] and [permutation] of [RandomState]); words are unsigned
    32-bit integers, held in [Z]. *)

Module NumpyRandom.

(** [RK_STATE_LEN], and the offset [M] of the recurrence. *)
Definition STATE_LEN : nat := 624.
Definition M : nat := 397.

(** [0xffffffff], [0x80000000] and [0x7fffffff] *)
Definition MASK32 : Z := 4294967295.
Definition UPPER_MASK : Z := 2147483648.
Definition LOWER_MASK : Z := 2147483647.

(** [0x9908b0df] *)
Definition MATRIX_A : Z := 2567483615.

Record State : Type := mkState {
  key : list Z;
  pos : Z
}.

(** The loop of [mt19937_seed]. *)
Fixpoint seed_loop (n : nat) (pos : Z) (seed : Z) : list Z :=
  match n with
  | O => []
  | S n' =>
      seed ::
      seed_loop n' (pos + 1)
        (Z.land (1812433253 * Z.lxor seed (Z.shiftr seed 30) + pos + 1) MASK32)
  end.

(** [mt19937_seed], which [np.random.seed(seed)] calls for an integer
    seed. *)
Definition mt19937_seed (seed : Z) : State :=
  mkState (seed_loop STATE_LEN 0 (Z.land seed MASK32)) (Z.of_nat STATE_LEN).

(** One step of the recurrence:
    [y = (key[kk] & UPPER_MASK) | (key[kk + 1] & LOWER_MASK);
     key[kk] = key[kk + M] ^ (y >> 1) ^ (-(y & 1) & MATRIX_A)]
    with the indices taken modulo [RK_STATE_LEN], as the three loops of
    [mt19937_gen] do. *)
Fixpoint gen_loop (kks : list nat) (key : list Z) : list Z :=
  match kks with
  | [] => key
  | kk :: rest =>
      let y := Z.lor (Z.land (nth kk key 0) UPPER_MASK)
                     (Z.land (nth ((kk + 1) mod STATE_LEN) key 0) LOWER_MASK) in
      let v := Z.lxor (Z.lxor (nth ((kk + M) mod STATE_LEN) key 0) (Z.shiftr y 1))
                      (if Z.odd y then MATRIX_A else 0) in
      gen_loop rest (replace_nth key kk v)
  end.

(** [mt19937_gen] *)
Definition mt19937_gen (state : State) : State :=
  mkState (gen_loop (seq 0 STATE_LEN) (key state)) 0.

(** [mt19937_next]: the next 32-bit word and the state after it. *)
Definition mt19937_next (state : State) : Z * State :=
  let state := if pos state =? Z.of_nat STATE_LEN then mt19937_gen state
               else state in
  let y := nth (Z.to_nat (pos state)) (key state) 0 in
  let state := mkState (key state) (pos state + 1) in
  let y := Z.lxor y (Z.shiftr y 11) in
  let y := Z.lxor y (Z.land (Z.shiftl y 7) 2636928640) in
  let y := Z.lxor y (Z.land (Z.shiftl y 15) 4022730752) in
  let y := Z.lxor y (Z.shiftr y 18) in
  (y, state).

(** The smallest bit mask that covers [max]. *)
Definition bit_mask (max : Z) : Z :=
  let mask := max in
  let mask := Z.lor mask (Z.shiftr mask 1) in
  let mask := Z.lor mask (Z.shiftr mask 2) in
  let mask := Z.lor mask (Z.shiftr mask 4) in
  let mask := Z.lor mask (Z.shiftr mask 8) in
  let mask := Z.lor mask (Z.shiftr mask 16) in
  let mask := Z.lor mask (Z.shiftr mask 32) in
  mask.

(** The loop [while ((value = next & mask) > max)] of [random_interval].
    A word is refused with a probability below one half, so the loop
    ends with probability one; it is run here for [tries] words at most,
    and [None] stands for a run that refuses them all. *)
Fixpoint interval_loop (tries : nat) (state : State) (mask max : Z)
    : option (Z * State) :=
  match tries with
  | O => None
  | S tries' =>
      let '(word, state) := mt19937_next state in
      let value := Z.land word mask in
      if value <=? max then Some (value, state)
      else interval_loop tries' state mask max
  end.

Definition TRIES : nat := 1000.

(** [random_interval], for [max] below [2^32]: a value of [[0, max]]. *)
Definition random_interval (state : State) (max : Z) : option (Z * State) :=
  if max =? 0 then Some (0, state)
  else interval_loop TRIES state (bit_mask max) max.

(** The loop [for i in reversed(range(1, n))] of [shuffle]:
    [j = random_interval(i); arr[i], arr[j] = arr[j], arr[i]]. *)
Fixpoint shuffle_loop (indices : list nat) (state : State) (arr : list Z)
    : option (list Z * State) :=
  match indices with
  | [] => Some (arr, state)
  | i :: rest =>
      match random_interval state (Z.of_nat i) with
      | None => None
      | Some (j, state) =>
          let ai := nth i arr 0 in
          let aj := nth (Z.to_nat j) arr 0 in
          shuffle_loop rest state
            (replace_nth (replace_nth arr i aj) (Z.to_nat j) ai)
      end
  end.

(** [np.random.permutation(n)] for an integer [n]: [np.arange(n)],
    shuffled. *)
Definition shuffled (state : State) (n : Z) : option (list Z * State) :=
  shuffle_loop (rev (seq 1 (Z.to_nat n - 1))) state (range n).

(** [shuffled] as a total function, for the operations that draw from
    the generator: a run of [random_interval] that did not end leaves
    [np.arange(n)] and the generator as they were. The draws of the
    examples below all end. *)
Definition permutation (state : State) (n : Z) : list Z * State :=
  match shuffled state n with
  | Some drawn => drawn
  | None => (range n, state)
  end.

End NumpyRandom.

(** ** What the sampling operations draw *)

Module Draws.

Section Generator.

Variable RandomState : Type.
Variable permutation : RandomState -> Z -> list Z * RandomState.

(** The indices that [np.random.choice(n, k, replace=False)] draws from
    the generator in state [g]. *)
Definition drawn (g : RandomState) (n k : Z) : list Z :=
  firstn (Z.to_nat k) (fst (permutation g n)).

End Generator.





End Draws.

(* ================================================================== *)
(** * Part II: properties                                              *)
(* ================================================================== *)

(** ** Python sequences *)

Section PyFacts.

Context {A : Type}.

Lemma len_nonneg (l : list A) : 0 <= len l.
Proof. unfold len. lia. Qed.

Lemma len_app (l1 l2 : list A) : len (l1 ++ l2) = len l1 + len l2.
Proof. unfold len. rewrite length_app. lia. Qed.

Lemma len_cons (a : A) (l : list A) : len (a :: l) = len l + 1.
Proof. unfold len. simpl length. lia. Qed.

Lemma list_get_in_range (l : list A) (i : Z) :
  0 <= i < len l ->
  exists a, nth_error l (Z.to_nat i) = Some a /\ list_get l i = Ok a.
Proof.
  intros Hi. unfold list_get, norm_index.
  assert (E0 : (i <? 0) = false) by lia.
  assert (E1 : (len l <=? i) = false) by lia.
  rewrite !E0, E1. simpl.
  destruct (nth_error l (Z.to_nat i)) as [a|] eqn:E.
  - exists a. split; reflexivity.
  - apply nth_error_None in E. unfold len in *. lia.
Qed.

Lemma list_get_nth (l : list A) (i : Z) (a : A) :
  0 <= i -> nth_error l (Z.to_nat i) = Some a -> list_get l i = Ok a.
Proof.
  intros Hi E.
  assert (Hlt : (Z.to_nat i < length l)%nat)
    by (apply nth_error_Some; congruence).
  destruct (list_get_in_range l i) as (b & Hb & ->); [unfold len; lia|].
  congruence.
Qed.

Lemma list_set_in_range (l : list A) (i : Z) (x : A) :
  0 <= i < len l -> list_set l i x = Ok (replace_nth l (Z.to_nat i) x).
Proof.
  intros Hi. unfold list_set, norm_index.
  assert (E0 : (i <? 0) = false) by lia.
  assert (E1 : (len l <=? i) = false) by lia.
  rewrite !E0, E1. reflexivity.
Qed.

Lemma replace_nth_length (l : list A) (n : nat) (x : A) :
  length (replace_nth l n x) = length l.
Proof.
  revert n. induction l as [|h t IH]; intros [|n]; simpl; auto.
Qed.

Lemma nth_error_replace_nth_eq (l : list A) (n : nat) (x : A) :
  (n < length l)%nat -> nth_error (replace_nth l n x) n = Some x.
Proof.
  revert n. induction l as [|h t IH]; intros [|n] H; simpl in *; try lia; auto.
  apply IH. lia.
Qed.

Lemma nth_error_replace_nth_ne (l : list A) (n m : nat) (x : A) :
  n <> m -> nth_error (replace_nth l n x) m = nth_error l m.
Proof.
  revert n m. induction l as [|h t IH]; intros [|n] [|m] H; simpl; auto.
  congruence.
Qed.

End PyFacts.

Lemma replace_nth_map {A B : Type} (f : A -> B) (l : list A) (n : nat) (x : A) :
  replace_nth (map f l) n (f x) = map f (replace_nth l n x).
Proof.
  revert n. induction l as [|h t IH]; intros [|n]; simpl; auto.
  now rewrite IH.
Qed.

Lemma Zsum_replace_nth {A : Type} (f : A -> Z) (l : list A) (n : nat) (a x : A) :
  nth_error l n = Some a ->
  Zsum (map f (replace_nth l n x)) = Zsum (map f l) - f a + f x.
Proof.
  revert n. induction l as [|h t IH]; intros [|n] H; simpl in *; try discriminate.
  - injection H as ->. lia.
  - rewrite (IH _ H). lia.
Qed.

Lemma Forall_replace_nth {A : Type} (P : A -> Prop) (l : list A) (n : nat) (x : A) :
  Forall P l -> P x -> Forall P (replace_nth l n x).
Proof.
  intros Hl Hx. revert n.
  induction Hl as [|h t Hh Ht IH]; intros [|n]; simpl; auto.
Qed.

(** ** The octree: counts are consistent (claim C1) *)

Section OctreeCounts.

Import Octree.

Variable capacity : Z.

Local Abbreviation consistent := (Octree.consistent capacity).
Local Abbreviation ins_ok := (Octree.ins_ok capacity).

Lemma get_octant_range (self : OctreeNode) (p : Point3) :
  0 <= get_octant self p < 8.
Proof.
  unfold get_octant.
  destruct p as [[x y] z].
  destruct (bounds self) as [[[[[a1 a2] b1] b2] c1] c2].
  destruct (Qgeb x _), (Qgeb y _), (Qgeb z _); simpl; lia.
Qed.

Lemma consistent_init (b : Bounds) (lvl : Z) :
  consistent (OctreeNode_init capacity b lvl).
Proof. apply consistent_leaf; reflexivity. Qed.

Lemma subdivide_fresh (n : OctreeNode) :
  children n = repeat None 8 ->
  exists cs,
    subdivide capacity n = Ok (set_children n (map Some cs)) /\
    length cs = 8%nat /\
    cs = map (fun b => OctreeNode_init capacity b (level n + 1))
             (octants_of (bounds n)).
Proof.
  intros Hc.
  exists (map (fun b => OctreeNode_init capacity b (level n + 1))
              (octants_of (bounds n))).
  split; [|split; [|reflexivity]].
  - unfold subdivide. rewrite Hc.
    destruct (bounds n) as [[[[[a1 a2] b1] b2] c1] c2]. reflexivity.
  - rewrite length_map.
    destruct (bounds n) as [[[[[a1 a2] b1] b2] c1] c2]. reflexivity.
Qed.

Lemma insert_child_counts ins self p a self' cs :
  ins_ok ins ->
  children self = map Some cs -> length cs = 8%nat -> Forall consistent cs ->
  insert_child ins self p a = Ok self' ->
  exists cs',
    self' = set_children self (map Some cs') /\ length cs' = 8%nat /\
    Forall consistent cs' /\
    Zsum (map point_count cs') = Zsum (map point_count cs) + 1.
Proof.
  intros Hins Hc Hlen Hall H. unfold insert_child in H.
  pose proof (get_octant_range self p) as Ho.
  set (o := get_octant self p) in *.
  destruct (list_get_in_range (children self) o) as (slot & Hn & Hg).
  { rewrite Hc. unfold len. rewrite length_map, Hlen. lia. }
  rewrite Hg in H. simpl in H.
  rewrite Hc, nth_error_map in Hn.
  destruct (nth_error cs (Z.to_nat o)) as [c|] eqn:Ec; [|discriminate].
  injection Hn as <-.
  destruct (ins c p a) as [c'|e] eqn:Ei; [|discriminate]. simpl in H.
  rewrite list_set_in_range in H
    by (rewrite Hc; unfold len; rewrite length_map, Hlen; lia).
  simpl in H. injection H as <-.
  assert (Hcc : consistent c) by (eapply Forall_forall; eauto using nth_error_In).
  destruct (Hins _ _ _ _ Hcc Ei) as [Hc' Hpc].
  exists (replace_nth cs (Z.to_nat o) c'). repeat split.
  - rewrite Hc, replace_nth_map. reflexivity.
  - now rewrite replace_nth_length.
  - now apply Forall_replace_nth.
  - rewrite (Zsum_replace_nth _ _ _ c c' Ec). lia.
Qed.

Lemma redistribute_counts ins ps : forall self self' cs,
  ins_ok ins ->
  children self = map Some cs -> length cs = 8%nat -> Forall consistent cs ->
  redistribute ins self ps = Ok self' ->
  exists cs',
    self' = set_children self (map Some cs') /\ length cs' = 8%nat /\
    Forall consistent cs' /\
    Zsum (map point_count cs') = Zsum (map point_count cs) + len ps.
Proof.
  induction ps as [|[p a] rest IH]; intros self self' cs Hins Hc Hlen Hall H.
  - simpl in H. injection H as <-. exists cs. repeat split; auto.
    + rewrite <- Hc. now destruct self.
    + unfold len. simpl. lia.
  - simpl in H.
    destruct (insert_child ins self p a) as [self1|e] eqn:E1; [|discriminate].
    simpl in H.
    destruct (insert_child_counts _ _ _ _ _ _ Hins Hc Hlen Hall E1)
      as (cs1 & -> & Hlen1 & Hall1 & Hsum1).
    destruct (IH (set_children self (map Some cs1)) self' cs1 Hins
                 eq_refl Hlen1 Hall1 H)
      as (cs2 & -> & Hlen2 & Hall2 & Hsum2).
    exists cs2. repeat split; auto.
    rewrite Hsum2, Hsum1, len_cons. lia.
Qed.

Lemma insert_consistent (fuel : nat) : ins_ok (insert capacity fuel).
Proof.
  induction fuel as [|fuel IH]; intros n p a n' Hn H; [discriminate|].
  simpl in H.
  inversion Hn as [n0 Hc Hpc Hcap|n0 cs Hc Hlen Hpts Hall Hpc Hcap]; subst n0.
  - (* a leaf *)
    rewrite Hc in H. simpl in H.
    destruct (max_points_per_node n <=? len (points n)) eqn:Efull.
    + (* full: subdivide and redistribute *)
      destruct (subdivide_fresh (set_point_count n (point_count n + 1)) Hc)
        as (cs0 & Hsub & Hlen0 & Hcs0).
      rewrite Hsub in H. simpl in H.
      destruct (redistribute _ _ _) as [self2|e] eqn:Er in H; [|discriminate].
      simpl in H.
      assert (Hall0 : Forall consistent cs0).
      { rewrite Hcs0. apply Forall_map, Forall_forall. intros b _.
        apply consistent_init. }
      assert (Hsum0 : Zsum (map point_count cs0) = 0).
      { rewrite Hcs0. simpl. destruct (bounds n) as [[[[[? ?] ?] ?] ?] ?].
        reflexivity. }
      match type of Er with redistribute _ ?s _ = _ =>
        destruct (redistribute_counts _ _ s self2 cs0 IH eq_refl Hlen0 Hall0 Er)
          as (cs1 & -> & Hlen1 & Hall1 & Hsum1)
      end.
      simpl in H.
      destruct cs1 as [|c1 cs1']; [discriminate|]. simpl in H.
      match type of H with insert_child _ ?s _ _ = _ =>
        destruct (insert_child_counts _ s p a n' (c1 :: cs1') IH eq_refl Hlen1 Hall1 H)
          as (cs2 & -> & Hlen2 & Hall2 & Hsum2)
      end.
      split; [|reflexivity].
      eapply consistent_inner with (cs := cs2); simpl; auto.
      rewrite Hsum2, Hsum1, Hsum0. lia.
    + (* room left: append *)
      simpl in H. rewrite Hc in H. simpl in H. injection H as <-.
      split; [|reflexivity].
      apply consistent_leaf; simpl; auto.
      rewrite len_app, Hpc. reflexivity.
  - (* a subdivided node *)
    destruct cs as [|c0 cs']; [discriminate|].
    rewrite Hc in H. simpl in H. rewrite Hc in H. simpl in H.
    destruct (insert_child_counts _ (set_point_count n (point_count n + 1))
                p a n' (c0 :: cs') IH Hc Hlen Hall H)
      as (cs2 & -> & Hlen2 & Hall2 & Hsum2).
    split; [|reflexivity].
    eapply consistent_inner with (cs := cs2); simpl; auto.
    rewrite Hsum2, Hpc. reflexivity.
Qed.

Lemma insert_all_consistent (fuel : nat) ps : forall root root',
  consistent root ->
  insert_all capacity fuel root ps = Ok root' ->
  consistent root' /\ point_count root' = point_count root + len ps.
Proof.
  induction ps as [|[p a] rest IH]; intros root root' Hr H; simpl in H.
  - injection H as <-. split; auto. unfold len. simpl. lia.
  - destruct (insert capacity fuel root p a) as [r1|e] eqn:E; [|discriminate].
    simpl in H.
    destruct (insert_consistent fuel _ _ _ _ Hr E) as [Hr1 Hpc1].
    destruct (IH _ _ Hr1 H) as [Hr' Hpc']. split; auto.
    rewrite Hpc', Hpc1, len_cons. lia.
Qed.

Lemma consistent_in_tree (m n : OctreeNode) :
  in_tree m n -> consistent n -> consistent m.
Proof.
  induction 1 as [|n c Hin Hmc IH]; intros Hn; auto.
  apply IH.
  inversion Hn as [n0 Hc _ _|n0 cs Hc _ _ Hall _ _]; subst n0.
  - rewrite Hc in Hin. simpl in Hin.
    repeat (destruct Hin as [Hin|Hin]; [discriminate|]). contradiction.
  - rewrite Hc in Hin. apply in_map_iff in Hin as (c' & Heq & Hin').
    injection Heq as ->. eapply Forall_forall; eauto.
Qed.

Lemma consistent_children_sum (n : OctreeNode) :
  consistent n -> subdivided n -> children_point_count n = point_count n.
Proof.
  intros Hn (c & cs & Hs).
  inversion Hn as [n0 Hc _ _|n0 cs0 Hc _ _ _ Hpc _]; subst n0.
  - rewrite Hc in Hs. discriminate.
  - unfold children_point_count. rewrite Hc, map_map, Hpc. reflexivity.
Qed.

(** C1. Whatever finite sequence of points is inserted with
    [OctreeNode.insert] into a new root, in the tree obtained the counter
    of the root is the number of points inserted, and at every subdivided
    node the counters of the children that are present add up to the
    counter of the node. *)
Theorem octree_point_counts (fuel : nat) (b : Bounds)
    (ps : list (Point3 * Attributes)) (root : OctreeNode) :
  insert_all capacity fuel (OctreeNode_init capacity b 0) ps = Ok root ->
  point_count root = len ps /\
  forall m, in_tree m root -> subdivided m ->
            children_point_count m = point_count m.
Proof.
  intros H.
  destruct (insert_all_consistent fuel ps _ _ (consistent_init b 0) H)
    as [Hr Hpc].
  split; [exact Hpc|].
  intros m Hm Hsub.
  apply consistent_children_sum; auto.
  eapply consistent_in_tree; eauto.
Qed.

Lemma build_loop_consistent (fuel : nat) (self : LidarProcessor) ips :
  forall root root',
    consistent root ->
    build_loop capacity fuel self root ips = Ok root' ->
    consistent root' /\ point_count root' = point_count root + len ips.
Proof.
  induction ips as [|[i p] rest IH]; intros root root' Hr H; simpl in H.
  - injection H as <-. split; auto. unfold len. simpl. lia.
  - destruct (attributes_of self i) as [a|]; [|discriminate]. simpl in H.
    destruct (insert capacity fuel root p a) as [r1|] eqn:E; [|discriminate].
    simpl in H.
    destruct (insert_consistent fuel _ _ _ _ Hr E) as [Hr1 Hpc1].
    destruct (IH _ _ Hr1 H) as [Hr' Hpc']. split; auto.
    rewrite Hpc', Hpc1, len_cons. lia.
Qed.

Lemma enumerate_len {A : Type} (l : list A) : forall s,
  len (enumerate s l) = len l.
Proof.
  induction l as [|a t IH]; intros s; simpl; auto.
  now rewrite !len_cons, IH.
Qed.

(** The same for the tree that [build_octree] returns. *)
Lemma build_octree_point_counts (fuel : nat) (self : LidarProcessor)
    (max_level : Z) (root : OctreeNode) :
  build_octree capacity fuel self max_level = Ok root ->
  point_count root = len (lp_points self) /\
  forall m, in_tree m root -> subdivided m ->
            children_point_count m = point_count m.
Proof.
  unfold build_octree. intros H.
  repeat match type of H with
         | bind ?m _ = _ => destruct m; [cbn [bind] in H|discriminate]
         end.
  apply build_loop_consistent in H as [Hr Hpc]; [|apply consistent_init].
  rewrite enumerate_len in Hpc. split; [exact Hpc|].
  intros m Hm Hsub. apply consistent_children_sum; auto.
  eapply consistent_in_tree; eauto.
Qed.

End OctreeCounts.

Lemma octree_point_counts_witness :
  exists root,
    Octree.insert_all 2 3 (Octree.OctreeNode_init 2 (0, 4, 0, 4, 0, 4)%Q 0)
      Octree.four_points = Ok root /\
    Octree.subdivided root /\
    Octree.point_count root = len Octree.four_points /\
    forall m, Octree.in_tree m root -> Octree.subdivided m ->
              Octree.children_point_count m = Octree.point_count m.
Proof.
  eexists. split; [vm_compute; reflexivity|].
  split; [eexists; eexists; reflexivity|].
  apply (octree_point_counts 2 3 (0, 4, 0, 4, 0, 4)%Q Octree.four_points).
  vm_compute. reflexivity.
Defined.

(** ** The octree: subdivision is not bounded by a depth (claims C4, C9) *)

(** Field accesses after field updates. *)

Lemma children_set_point_count n c :
  Octree.children (Octree.set_point_count n c) = Octree.children n.
Proof. reflexivity. Qed.

Lemma children_set_points n ps :
  Octree.children (Octree.set_points n ps) = Octree.children n.
Proof. reflexivity. Qed.

Lemma children_set_children n cs : Octree.children (Octree.set_children n cs) = cs.
Proof. reflexivity. Qed.

Lemma points_set_point_count n c :
  Octree.points (Octree.set_point_count n c) = Octree.points n.
Proof. reflexivity. Qed.

Lemma points_set_children n cs :
  Octree.points (Octree.set_children n cs) = Octree.points n.
Proof. reflexivity. Qed.

Lemma points_set_points n ps : Octree.points (Octree.set_points n ps) = ps.
Proof. reflexivity. Qed.

Lemma max_points_set_point_count n c :
  Octree.max_points_per_node (Octree.set_point_count n c) =
  Octree.max_points_per_node n.
Proof. reflexivity. Qed.

Lemma get_octant_set_points n ps p :
  Octree.get_octant (Octree.set_points n ps) p = Octree.get_octant n p.
Proof. reflexivity. Qed.

Lemma get_octant_set_children n cs p :
  Octree.get_octant (Octree.set_children n cs) p = Octree.get_octant n p.
Proof. reflexivity. Qed.

Lemma list_get_repeat_None_0 :
  list_get (repeat (@None Octree.OctreeNode) 8) 0 = Ok None.
Proof. reflexivity. Qed.

Create Rewrite HintDb octree_fields.
#[local] Hint Rewrite children_set_point_count children_set_points
  children_set_children points_set_point_count points_set_children
  points_set_points max_points_set_point_count get_octant_set_points
  get_octant_set_children : octree_fields.

Section OctreeDepth.

Import Octree.

Variable capacity : Z.

Lemma filled_nil (c : OctreeNode) : filled c [] = c.
Proof.
  destruct c. unfold filled, set_points, set_point_count, len. simpl.
  now rewrite Z.add_0_r, app_nil_r.
Qed.

Lemma filled_cons (c : OctreeNode) pa l :
  filled (filled c [pa]) l = filled c (pa :: l).
Proof.
  destruct c. unfold filled, set_points, set_point_count. simpl.
  rewrite <- app_assoc, len_cons. simpl. f_equal. unfold len. simpl. lia.
Qed.

Lemma insert_succ (fuel : nat) (self : OctreeNode) p a :
  insert capacity (S fuel) self p a =
  (let self := set_point_count self (point_count self + 1) in
   c0 <- list_get (children self) 0 ;;
   self <- (if is_none c0 && (max_points_per_node self <=? len (points self))
            then
              self1 <- subdivide capacity self ;;
              self2 <- redistribute (insert capacity fuel) self1 (points self1) ;;
              Ok (set_points self2 [])
            else Ok self) ;;
   c0 <- list_get (children self) 0 ;;
   if is_some c0 then insert_child (insert capacity fuel) self p a
   else Ok (set_points self (points self ++ [(p, a)]))).
Proof. reflexivity. Qed.

Lemma insert_leaf_room (fuel : nat) (c : OctreeNode) p a :
  children c = repeat None 8 ->
  len (points c) < max_points_per_node c ->
  insert capacity (S fuel) c p a = Ok (filled c [(p, a)]).
Proof.
  intros Hc Hroom. simpl. rewrite Hc. simpl.
  assert (E : (max_points_per_node c <=? len (points c)) = false) by lia.
  rewrite E. simpl. rewrite Hc. reflexivity.
Qed.

Lemma insert_all_room (fuel : nat) l : forall root,
  children root = repeat None 8 ->
  len (points root) + len l <= max_points_per_node root ->
  insert_all capacity (S fuel) root l = Ok (filled root l).
Proof.
  induction l as [|[p a] rest IH]; intros root Hc Hroom.
  - simpl. now rewrite filled_nil.
  - rewrite len_cons in Hroom. pose proof (len_nonneg rest).
    cbn [insert_all]. rewrite insert_leaf_room by (auto; lia).
    cbn [bind]. rewrite IH.
    + now rewrite filled_cons.
    + exact Hc.
    + simpl. rewrite len_app. unfold len at 2. simpl. lia.
Qed.

Lemma insert_all_app (fuel : nat) l1 l2 : forall root,
  insert_all capacity fuel root (l1 ++ l2) =
  (r <- insert_all capacity fuel root l1 ;; insert_all capacity fuel r l2).
Proof.
  induction l1 as [|[p a] rest IH]; intros root; simpl; auto.
  destruct (insert capacity fuel root p a); simpl; auto.
Qed.

Lemma replace_nth_twice {A : Type} (l : list A) (n : nat) (x y : A) :
  replace_nth (replace_nth l n x) n y = replace_nth l n y.
Proof.
  revert n. induction l as [|h t IH]; intros [|n]; simpl; auto.
  now rewrite IH.
Qed.

Lemma replace_nth_same {A : Type} (l : list A) (n : nat) (x : A) :
  nth_error l n = Some x -> replace_nth l n x = l.
Proof.
  revert n. induction l as [|h t IH]; intros [|n] H; simpl in *;
    try discriminate.
  - now injection H as ->.
  - now rewrite IH.
Qed.

(** Redistribution of points that all fall into the octant [o], whose
    child is a leaf with room for them: they end up in that leaf. *)
Lemma redistribute_one_octant (fuel : nat) (o : Z) l : forall self cs c,
  children self = cs ->
  0 <= o < len cs ->
  nth_error cs (Z.to_nat o) = Some (Some c) ->
  children c = repeat None 8 ->
  len (points c) + len l <= max_points_per_node c ->
  Forall (fun pa => get_octant self (fst pa) = o) l ->
  redistribute (insert capacity (S fuel)) self l =
  Ok (set_children self (replace_nth cs (Z.to_nat o) (Some (filled c l)))).
Proof.
  induction l as [|[p a] rest IH]; intros self cs c Hcs Ho Hn Hc Hroom Hall.
  - simpl. rewrite filled_nil, (replace_nth_same _ _ _ Hn).
    subst cs. now destruct self.
  - apply Forall_cons_iff in Hall as [Hp Hrest]. simpl in Hp. subst cs.
    rewrite len_cons in Hroom. pose proof (len_nonneg rest).
    cbn [redistribute]. unfold insert_child at 1. rewrite Hp.
    rewrite (list_get_nth _ _ _ (proj1 Ho) Hn). cbn [bind].
    rewrite insert_leaf_room by (auto; lia). cbn [bind].
    rewrite list_set_in_range by exact Ho. cbn [bind].
    rewrite (IH _ (replace_nth (children self) (Z.to_nat o)
                      (Some (filled c [(p, a)]))) (filled c [(p, a)])).
    + rewrite replace_nth_twice, filled_cons. now destruct self.
    + reflexivity.
    + unfold len in *. now rewrite replace_nth_length.
    + apply nth_error_replace_nth_eq. unfold len in Ho. lia.
    + exact Hc.
    + simpl. rewrite len_app. unfold len at 2. simpl. lia.
    + exact Hrest.
Qed.

Lemma Qgeb_mid (a b x : Q) : (a == x -> b == x -> Qgeb x ((a + b) / 2) = true)%Q.
Proof.
  intros Ha Hb. unfold Qgeb. apply Qle_bool_iff.
  rewrite Ha, Hb. apply Qle_shift_div_r; [reflexivity|]. lra.
Qed.

Lemma Qmid_eq (a b x : Q) : (a == x -> b == x -> (a + b) / 2 == x)%Q.
Proof. intros Ha Hb. rewrite Ha, Hb. field. Qed.

Lemma get_octant_degenerate (self : OctreeNode) (p : Point3) :
  degenerate_at (bounds self) p -> get_octant self p = 7.
Proof.
  unfold degenerate_at, get_octant. destruct p as [[x y] z].
  destruct (bounds self) as [[[[[a1 a2] b1] b2] c1] c2].
  intros (H1 & H2 & H3 & H4 & H5 & H6).
  rewrite !Qgeb_mid by assumption. reflexivity.
Qed.

(** A full leaf whose box is reduced to [p] and whose buffer holds copies
    of [p] only: one more copy of [p] can never be inserted. *)
Lemma insert_degenerate_full (p : Point3) (fuel : nat) : forall n a,
  children n = repeat None 8 ->
  max_points_per_node n = capacity ->
  len (points n) = capacity ->
  Forall (fun pa => fst pa = p) (points n) ->
  degenerate_at (bounds n) p ->
  insert capacity fuel n p a = Raise RecursionError.
Proof.
  induction fuel as [|fuel IH]; intros n a Hc Hcap Hlen Hall Hdeg; [reflexivity|].
  cbn [insert]. autorewrite with octree_fields.
  rewrite Hc, list_get_repeat_None_0. cbn [bind is_none andb].
  assert (E : (max_points_per_node n <=? len (points n)) = true) by lia.
  rewrite E.
  destruct (subdivide_fresh capacity (set_point_count n (point_count n + 1)) Hc)
    as (cs0 & Hsub & Hlen0 & Hcs0).
  rewrite Hsub. cbn [bind].
  set (self1 := set_children (set_point_count n (point_count n + 1)) (map Some cs0)).
  assert (Hoct : forall q : Point3 * Attributes,
             fst q = p -> get_octant self1 (fst q) = 7).
  { intros q ->. apply get_octant_degenerate. exact Hdeg. }
  assert (Hoctp : get_octant self1 p = 7)
    by (apply get_octant_degenerate; exact Hdeg).
  destruct (bounds n) as [[[[[a1 a2] b1] b2] c1] c2] eqn:Eb.
  destruct p as [[x y] z].
  destruct Hdeg as (H1 & H2 & H3 & H4 & H5 & H6).
  set (c7 := OctreeNode_init capacity
               ((a1 + a2) / 2, a2, (b1 + b2) / 2, b2, (c1 + c2) / 2, c2)%Q
               (level n + 1)).
  assert (Hn7 : nth_error (children self1) 7 = Some (Some c7)).
  { unfold self1. simpl. rewrite Hcs0. simpl. rewrite Eb. reflexivity. }
  assert (Hlen8 : len (children self1) = 8).
  { unfold self1, len. simpl. rewrite length_map, Hlen0. reflexivity. }
  assert (Hdeg7 : forall l, degenerate_at (bounds (filled c7 l)) (x, y, z)).
  { intros l. simpl. repeat split; auto using Qmid_eq. }
  destruct fuel as [|fuel'].
  - (* no budget left for the children *)
    destruct (points n) as [|[q qa] rest] eqn:Ep.
    + unfold self1 at 2. cbn [points set_children set_point_count].
      rewrite Ep. cbn [redistribute bind].
      cbn [children set_points]. 
      destruct (list_get_in_range (children self1) 0) as (s0 & Hs0 & ->); [lia|].
      unfold self1 in Hs0. simpl in Hs0. rewrite Hcs0 in Hs0. simpl in Hs0.
      rewrite Eb in Hs0. simpl in Hs0. injection Hs0 as <-.
      cbn [bind is_some is_none negb].
      unfold insert_child. cbn [bounds set_points children].
      change (get_octant (set_points self1 []) (x, y, z))
        with (get_octant self1 (x, y, z)).
      rewrite Hoctp.
      rewrite (list_get_nth (children self1) 7 (Some c7)); [|lia|exact Hn7].
      reflexivity.
    + unfold self1 at 2. cbn [points set_children set_point_count].
      rewrite Ep. cbn [redistribute].
      unfold insert_child.
      inversion Hall as [|? ? Hq _]; subst. simpl in Hq. subst q.
      rewrite Hoctp.
      rewrite (list_get_nth (children self1) 7 (Some c7)); [|lia|exact Hn7].
      reflexivity.
  - (* the buffer moves to child 7, which is again full and degenerate *)
    rewrite (redistribute_one_octant fuel' 7 (points self1) self1
               (children self1) c7); try reflexivity; try lia; try assumption.
    + cbn [bind]. cbn [children set_points set_children].
      assert (Hn0 : exists s0,
                 nth_error (replace_nth (children self1) (Z.to_nat 7)
                              (Some (filled c7 (points self1)))) (Z.to_nat 0)
                 = Some (Some s0)).
      { unfold self1. simpl. rewrite Hcs0. simpl. rewrite Eb. simpl. eauto. }
      destruct Hn0 as (s0 & Hn0).
      rewrite (list_get_nth _ 0 _ (Z.le_refl 0) Hn0).
      cbn [bind is_some is_none negb].
      unfold insert_child. cbn [children set_points set_children].
      change (get_octant _ (x, y, z)) with (get_octant self1 (x, y, z)).
      rewrite Hoctp.
      rewrite (list_get_nth _ 7 (Some (filled c7 (points self1)))); [|lia|].
      * cbn [bind]. rewrite IH; [reflexivity|reflexivity|reflexivity| | |apply Hdeg7].
        -- simpl. unfold len in *. simpl. lia.
        -- simpl. exact Hall.
      * apply nth_error_replace_nth_eq. unfold len in Hlen8. lia.
    + simpl. unfold len in *. simpl. lia.
    + apply Forall_forall. intros q Hq. apply Hoct.
      unfold self1 in Hq. simpl in Hq.
      eapply Forall_forall in Hall; eauto.
Qed.

Lemma Qgeb_origin_mid (a b w : Q) :
  (a == 0 -> b == w -> 0 < w -> Qgeb 0 ((a + b) / 2) = false)%Q.
Proof.
  intros Ha Hb Hw. unfold Qgeb.
  destruct (Qle_bool ((a + b) / 2) 0) eqn:E; [|reflexivity].
  apply Qle_bool_iff in E. rewrite Ha, Hb in E.
  assert (H : (w / 2 == w * (1 # 2))%Q) by field.
  exfalso. setoid_replace ((0 + w) / 2)%Q with (w * (1 # 2))%Q in E by field.
  lra.
Qed.

Lemma get_octant_origin (self : OctreeNode) (w : Q) :
  origin_box (bounds self) w -> (0 < w)%Q ->
  get_octant self (0, 0, 0)%Q = 0.
Proof.
  unfold origin_box, get_octant.
  destruct (bounds self) as [[[[[a1 a2] b1] b2] c1] c2].
  intros (H1 & H2 & H3 & H4 & H5 & H6) Hw.
  rewrite !(Qgeb_origin_mid _ _ w) by assumption. reflexivity.
Qed.

(** The octant of a point [(x, 0, 0)] in a cube at the origin. *)
Lemma get_octant_on_axis (self : OctreeNode) (w x : Q) :
  origin_box (bounds self) w -> (0 < w)%Q ->
  get_octant self (x, 0, 0)%Q = if Qle_bool (w / 2) x then 1 else 0.
Proof.
  unfold origin_box, get_octant.
  destruct (bounds self) as [[[[[a1 a2] b1] b2] c1] c2].
  intros (H1 & H2 & H3 & H4 & H5 & H6) Hw.
  rewrite !(Qgeb_origin_mid _ _ w) by assumption.
  unfold Qgeb.
  assert (E : Qle_bool ((a1 + a2) / 2) x = Qle_bool (w / 2) x).
  { apply Qleb_comp; [|reflexivity]. rewrite H1, H2. field. }
  rewrite E. destruct (Qle_bool (w / 2) x); reflexivity.
Qed.

Lemma in_tree_trans (m c n : OctreeNode) :
  in_tree m c -> in_tree c n -> in_tree m n.
Proof.
  intros Hmc Hcn. induction Hcn as [|n c' Hin _ IH]; auto.
  eapply in_tree_child; eauto.
Qed.

(** The insertion that overflows a leaf full of returns at the origin. *)
Lemma insert_overflow_origin (fuel : nat) (n : OctreeNode) p a (w : Q) :
  children n = repeat None 8 ->
  max_points_per_node n = capacity ->
  len (points n) = capacity ->
  Forall (fun pa => fst pa = (0, 0, 0)%Q) (points n) ->
  origin_box (bounds n) w -> (0 < w)%Q ->
  insert capacity (S (S fuel)) n p a =
  insert_child (insert capacity (S fuel)) (overflowed capacity n) p a.
Proof.
  intros Hc Hmax Hlen Hall Hbox Hw.
  rewrite insert_succ. cbv zeta. autorewrite with octree_fields.
  rewrite Hc, list_get_repeat_None_0. cbn [bind is_none andb].
  assert (E : (max_points_per_node n <=? len (points n)) = true) by lia.
  rewrite E.
  destruct (subdivide_fresh capacity (set_point_count n (point_count n + 1)) Hc)
    as (cs0 & Hsub & Hlen0 & Hcs0).
  rewrite Hsub. cbn [bind].
  set (self1 := set_children (set_point_count n (point_count n + 1))
                  (map Some cs0)).
  assert (Hoct : Forall (fun pa : Point3 * Attributes =>
                           get_octant self1 (fst pa) = 0) (points n)).
  { eapply Forall_impl; [|exact Hall]. intros [q qa] Hq.
    cbn [fst] in *. subst q.
    apply (get_octant_origin self1 w); assumption. }
  assert (Hhd : exists rest, cs0 = hd n cs0 :: rest /\ length rest = 7%nat).
  { destruct cs0 as [|c rest]; [discriminate|]. exists rest.
    split; [reflexivity|]. simpl in Hlen0. lia. }
  destruct Hhd as (rest & Hhd & Hrest).
  rewrite (redistribute_one_octant fuel 0 (points self1) self1
             (children self1) (hd n cs0)).
  - cbn [bind]. autorewrite with octree_fields.
    match goal with |- context [list_get (replace_nth ?l ?k ?v) 0] =>
      assert (H0 : nth_error (replace_nth l k v) (Z.to_nat 0) = Some v)
        by (apply nth_error_replace_nth_eq; unfold self1; simpl;
            rewrite length_map, Hlen0; lia);
      rewrite (list_get_nth _ 0 _ (Z.le_refl 0) H0)
    end.
    cbn [bind is_some is_none negb].
    unfold overflowed, filled, self1. rewrite Hcs0.
    unfold set_points, set_children, set_point_count.
    cbn [bounds level points children point_count max_points_per_node Z.to_nat].
    reflexivity.
  - reflexivity.
  - unfold self1, len. simpl. rewrite length_map, Hlen0. lia.
  - unfold self1. simpl. rewrite Hhd at 1. reflexivity.
  - rewrite Hcs0. destruct (bounds (set_point_count n (point_count n + 1)))
      as [[[[[? ?] ?] ?] ?] ?]. reflexivity.
  - rewrite Hcs0. destruct (bounds (set_point_count n (point_count n + 1)))
      as [[[[[? ?] ?] ?] ?] ?]. simpl.
    change (points self1) with (points n). lia.
  - exact Hoct.
Qed.

(** The children of an overflowed leaf. *)
Lemma overflowed_children (n : OctreeNode) a1 a2 b1 b2 c1 c2 :
  bounds n = (a1, a2, b1, b2, c1, c2) ->
  let mx := ((a1 + a2) / 2)%Q in
  let my := ((b1 + b2) / 2)%Q in
  let mz := ((c1 + c2) / 2)%Q in
  let init b := OctreeNode_init capacity b (level n + 1) in
  children (overflowed capacity n) =
  [ Some (filled (init (a1, mx, b1, my, c1, mz)) (points n));
    Some (init (mx, a2, b1, my, c1, mz));
    Some (init (a1, mx, my, b2, c1, mz));
    Some (init (mx, a2, my, b2, c1, mz));
    Some (init (a1, mx, b1, my, mz, c2));
    Some (init (mx, a2, b1, my, mz, c2));
    Some (init (a1, mx, my, b2, mz, c2));
    Some (init (mx, a2, my, b2, mz, c2)) ].
Proof. intros Eb. unfold overflowed. rewrite Eb. reflexivity. Qed.

Lemma Qhalf_pow (x w : Q) (d : nat) :
  (w == x * inject_Z (2 ^ Z.of_nat (S d)) ->
   w / 2 == x * inject_Z (2 ^ Z.of_nat d))%Q.
Proof.
  intros Hw. rewrite Hw, Nat2Z.inj_succ, Z.pow_succ_r by lia.
  rewrite inject_Z_mult. field.
Qed.

(** A full leaf that holds returns at the origin only, in a cube of side
    [w = x * 2^(d + 1)] at the origin: inserting [(x, 0, 0)] subdivides
    [d + 1] times in a row, and the point ends up [d + 1] levels further
    down. *)
Lemma insert_full_origin_leaf (x : Q) (d : nat) : forall fuel n a w,
  (0 < x)%Q -> 0 < capacity ->
  children n = repeat None 8 ->
  max_points_per_node n = capacity ->
  len (points n) = capacity ->
  Forall (fun pa => fst pa = (0, 0, 0)%Q) (points n) ->
  origin_box (bounds n) w ->
  (w == x * inject_Z (2 ^ Z.of_nat (S d)))%Q ->
  exists n' m,
    insert capacity (S (S (d + fuel))) n (x, 0, 0)%Q a = Ok n' /\
    level n' = level n /\
    in_tree m n' /\
    level m = level n + Z.of_nat d + 1 /\
    points m = [((x, 0, 0)%Q, a)].
Proof.
  induction d as [|d IH]; intros fuel n a w Hx Hcap Hc Hmax Hlen Hall Hbox Hw.
  all: assert (Hwpos : (0 < w)%Q)
    by (rewrite Hw; apply Qmult_lt_0_compat; auto;
        change 0%Q with (inject_Z 0); rewrite <- Zlt_Qlt;
        apply Z.pow_pos_nonneg; lia).
  all: pose proof (Qhalf_pow x w _ Hw) as Hhalf.
  all: rewrite (insert_overflow_origin _ n _ a w) by assumption.
  all: unfold insert_child.
  all: assert (Hoct : get_octant (overflowed capacity n) (x, 0, 0)%Q =
                      if Qle_bool (w / 2) x then 1 else 0)
    by (apply get_octant_on_axis; assumption).
  all: rewrite Hoct.
  all: destruct (bounds n) as [[[[[a1 a2] b1] b2] c1] c2] eqn:Eb.
  all: rewrite (overflowed_children n _ _ _ _ _ _ Eb); cbv zeta.
  - (* the point falls into octant 1, whose child is empty *)
    assert (E : Qle_bool (w / 2) x = true).
    { apply Qle_bool_iff. rewrite Hhalf. simpl.
      change (inject_Z 1) with 1%Q. rewrite Qmult_1_r. apply Qle_refl. }
    rewrite E.
    match goal with |- context [list_get (?c0 :: Some ?c1 :: ?t) 1] =>
      change (list_get (c0 :: Some c1 :: t) 1) with (Ok (Some c1));
      set (k1 := c1)
    end.
    cbn [bind]. rewrite insert_leaf_room; [|reflexivity|simpl; unfold len; simpl; lia].
    cbn [bind]. rewrite list_set_in_range by (unfold len; simpl; lia).
    cbn [bind]. eexists. exists (filled k1 [((x, 0, 0)%Q, a)]).
    split; [reflexivity|]. split; [reflexivity|]. split; [|split].
    + eapply in_tree_child; [|apply in_tree_here].
      autorewrite with octree_fields. simpl. auto.
    + simpl. lia.
    + reflexivity.
  - (* the point falls into octant 0, whose child is full again *)
    assert (E : Qle_bool (w / 2) x = false).
    { destruct (Qle_bool (w / 2) x) eqn:E'; [|reflexivity].
      apply Qle_bool_iff in E'. rewrite Hhalf in E'. exfalso.
      assert (H2 : (inject_Z 2 <= inject_Z (2 ^ Z.of_nat (S d)))%Q).
      { rewrite <- Zle_Qle. rewrite Nat2Z.inj_succ, Z.pow_succ_r by lia.
        assert (0 < 2 ^ Z.of_nat d) by (apply Z.pow_pos_nonneg; lia). lia. }
      assert (H3 : (x * inject_Z 2 <= x * inject_Z (2 ^ Z.of_nat (S d)))%Q).
      { rewrite !(Qmult_comm x). apply Qmult_le_compat_r; lra. }
      change (inject_Z 2) with 2%Q in H3. lra. }
    rewrite E.
    match goal with |- context [list_get (Some ?c0 :: ?t) 0] =>
      change (list_get (Some c0 :: t) 0) with (Ok (Some c0));
      set (k0 := c0)
    end.
    cbn [bind].
    destruct (IH fuel k0 a (w / 2)%Q) as (k0' & m & Hins & Hlvl & Hin & Hm & Hpts);
      auto.
    + destruct Hbox as (H1 & H2 & H3 & H4 & H5 & H6). unfold k0. simpl.
      repeat split; auto.
      * rewrite H1, H2. field.
      * rewrite H3, H4. field.
      * rewrite H5, H6. field.
    + cbn [Nat.add]. rewrite Hins. cbn [bind].
      rewrite list_set_in_range by (unfold len; simpl; lia).
      cbn [bind]. eexists. exists m.
      split; [reflexivity|]. split; [reflexivity|]. split; [|split].
      * eapply in_tree_child; [|exact Hin].
        autorewrite with octree_fields. simpl. auto.
      * rewrite Hm. unfold k0. simpl. lia.
      * exact Hpts.
Qed.

End OctreeDepth.

(** ** The octree: [build_octree] on two particular clouds *)

Section OctreeBuild.

Import Octree.

Variable capacity : Z.

Lemma enumerate_app {A : Type} (l1 l2 : list A) : forall s,
  enumerate s (l1 ++ l2) = enumerate s l1 ++ enumerate (s + len l1) l2.
Proof.
  induction l1 as [|a t IH]; intros s; simpl.
  - unfold len. simpl. now rewrite Z.add_0_r.
  - rewrite IH, len_cons. do 3 f_equal. lia.
Qed.

Lemma enumerate_bounds {A : Type} (l : list A) : forall s i a,
  In (i, a) (enumerate s l) -> s <= i < s + len l.
Proof.
  induction l as [|h t IH]; intros s i a Hin; simpl in Hin; [contradiction|].
  rewrite len_cons. pose proof (len_nonneg t).
  destruct Hin as [Heq|Hin].
  - injection Heq as <- _. lia.
  - apply IH in Hin. lia.
Qed.

Lemma enumerate_snd {A : Type} (l : list A) : forall s,
  map snd (enumerate s l) = l.
Proof. induction l as [|h t IH]; intros s; simpl; [|rewrite IH]; auto. Qed.

Lemma opt_get_aligned {A : Type} (o : option (list A)) (n i : Z) :
  (forall l, o = Some l -> len l = n) -> 0 <= i < n ->
  exists r, opt_get o i = Ok r.
Proof.
  intros Hal Hi. destruct o as [l|]; simpl; [|eauto].
  destruct (list_get_in_range l i) as (a & _ & ->); [|simpl; eauto].
  rewrite (Hal l eq_refl). exact Hi.
Qed.

Lemma attributes_of_aligned (self : LidarProcessor) (i : Z) :
  aligned self -> 0 <= i < len (lp_points self) ->
  exists a, attributes_of self i = Ok a.
Proof.
  intros (H1 & H2 & H3) Hi. unfold attributes_of.
  destruct (opt_get_aligned _ _ i H1 Hi) as (r1 & ->).
  destruct (opt_get_aligned _ _ i H2 Hi) as (r2 & ->).
  destruct (opt_get_aligned _ _ i H3 Hi) as (r3 & ->).
  simpl. eauto.
Qed.

(** On an aligned processor, the loop of [build_octree] is a sequence of
    insertions of the points, in order, each with some attributes. *)
Lemma build_loop_insert_all (self : LidarProcessor) ips :
  aligned self ->
  (forall i p, In (i, p) ips -> 0 <= i < len (lp_points self)) ->
  exists pas,
    map fst pas = map snd ips /\
    forall fuel root,
      build_loop capacity fuel self root ips = insert_all capacity fuel root pas.
Proof.
  intros Hal. induction ips as [|[i p] rest IH]; intros Hin.
  - exists []. split; reflexivity.
  - destruct IH as (pas & Hfst & Hloop).
    { intros j q Hj. apply (Hin j q). now right. }
    destruct (attributes_of_aligned self i Hal) as (a & Ha).
    { apply (Hin i p). now left. }
    exists ((p, a) :: pas). split; [simpl; now rewrite Hfst|].
    intros fuel root. simpl. rewrite Ha. simpl.
    destruct (insert capacity fuel root p a); simpl; auto.
Qed.

Lemma build_octree_insert_all (self : LidarProcessor) :
  aligned self ->
  exists pas,
    map fst pas = lp_points self /\
    forall fuel max_level,
      build_octree capacity fuel self max_level =
      (min_x <- min_of (map px (lp_points self)) ;;
       min_y <- min_of (map py (lp_points self)) ;;
       min_z <- min_of (map pz (lp_points self)) ;;
       max_x <- max_of (map px (lp_points self)) ;;
       max_y <- max_of (map py (lp_points self)) ;;
       max_z <- max_of (map pz (lp_points self)) ;;
       insert_all capacity fuel
         (OctreeNode_init capacity (min_x, max_x, min_y, max_y, min_z, max_z) 0)
         pas).
Proof.
  intros Hal.
  destruct (build_loop_insert_all self (enumerate 0 (lp_points self)) Hal)
    as (pas & Hfst & Hloop).
  { intros i p Hin. apply enumerate_bounds in Hin. lia. }
  exists pas. split; [now rewrite Hfst, enumerate_snd|].
  intros fuel max_level. unfold build_octree.
  repeat (match goal with |- bind ?m _ = bind ?m _ => destruct m; simpl; auto end).
Qed.

Lemma fold_left_repeat_same (f : Q -> Q -> Q) (x : Q) (n : nat) :
  f x x = x -> fold_left f (repeat x n) x = x.
Proof. intros Hf. induction n as [|n IH]; simpl; [|rewrite Hf]; auto. Qed.

Lemma Qmin'_same x : Qmin' x x = x.
Proof. unfold Qmin'. now destruct (Qle_bool x x). Qed.

Lemma Qmax'_same x : Qmax' x x = x.
Proof. unfold Qmax'. now destruct (Qle_bool x x). Qed.

Lemma min_of_repeat (g : Point3 -> Q) (p : Point3) (n : nat) :
  min_of (map g (repeat p (S n))) = Ok (g p).
Proof.
  simpl. rewrite map_repeat, fold_left_repeat_same; auto using Qmin'_same.
Qed.

Lemma max_of_repeat (g : Point3 -> Q) (p : Point3) (n : nat) :
  max_of (map g (repeat p (S n))) = Ok (g p).
Proof.
  simpl. rewrite map_repeat, fold_left_repeat_same; auto using Qmax'_same.
Qed.

Lemma map_fst_repeat_split (p : Point3) (n : nat) (pas : list (Point3 * Attributes)) :
  map fst pas = repeat p (S n) ->
  exists pas1 a, pas = pas1 ++ [(p, a)] /\ length pas1 = n /\
                 Forall (fun pa => fst pa = p) pas1.
Proof.
  revert pas. induction n as [|n IH]; intros pas H.
  - destruct pas as [|[q a] [|? ?]]; try discriminate.
    injection H as ->. exists [], a. auto.
  - destruct pas as [|[q a] rest]; [discriminate|].
    simpl in H. injection H as -> Hrest.
    destruct (IH rest Hrest) as (pas1 & a' & -> & Hlen & Hall).
    exists ((p, a) :: pas1), a'. repeat split; simpl; auto.
Qed.

(** More points at one position than a node holds: the construction
    never returns, whatever the recursion budget. *)
Lemma build_octree_stacked (self : LidarProcessor) (p : Point3) (n : nat) :
  aligned self -> lp_points self = repeat p (S n) -> Z.of_nat n = capacity ->
  forall fuel max_level,
    build_octree capacity fuel self max_level = Raise RecursionError.
Proof.
  intros Hal Hpts Hn fuel max_level.
  destruct (build_octree_insert_all self Hal) as (pas & Hfst & ->).
  rewrite Hpts in *. rewrite !min_of_repeat, !max_of_repeat. cbn [bind].
  destruct (map_fst_repeat_split p n pas Hfst) as (pas1 & a & -> & Hlen & Hall).
  destruct fuel as [|fuel].
  - destruct pas1 as [|[q qa] rest]; reflexivity.
  - rewrite insert_all_app, insert_all_room; [|reflexivity|].
    + cbn [bind insert_all].
      rewrite (insert_degenerate_full capacity p); try reflexivity.
      * simpl. unfold len. lia.
      * simpl. exact Hall.
      * destruct p as [[x y] z]. simpl. unfold px, py, pz. simpl.
        repeat split; reflexivity.
    + simpl. unfold len. simpl. lia.
Qed.

Lemma fold_left_Qmin'_zeros (n : nat) :
  fold_left Qmin' (repeat 0%Q n ++ [1%Q]) 0%Q = 0%Q.
Proof. induction n as [|n IH]; simpl; auto. Qed.

Lemma fold_left_Qmax'_zeros (n : nat) :
  fold_left Qmax' (repeat 0%Q n ++ [1%Q]) 0%Q = 1%Q.
Proof. induction n as [|n IH]; simpl; auto. Qed.

Lemma map_fst_app_split (l1 : list Point3) (q : Point3)
    (pas : list (Point3 * Attributes)) :
  map fst pas = l1 ++ [q] ->
  exists pas1 a, pas = pas1 ++ [(q, a)] /\ map fst pas1 = l1.
Proof.
  revert pas. induction l1 as [|p l1 IH]; intros pas H.
  - destruct pas as [|[q' a] [|? ?]]; try discriminate.
    injection H as ->. exists [], a. auto.
  - destruct pas as [|[q' a] rest]; [discriminate|].
    simpl in H. injection H as -> Hrest.
    destruct (IH rest Hrest) as (pas1 & a' & -> & Hl1).
    exists ((p, a) :: pas1), a'. split; simpl; congruence.
Qed.

(** A full root and one more point elsewhere: the root subdivides, and
    its children are at level 1, whatever [max_level] is. *)
Lemma build_octree_corner (self : LidarProcessor) (m : nat) :
  aligned self ->
  lp_points self = repeat (0, 0, 0)%Q m ++ [(1, 1, 1)%Q] ->
  Z.of_nat m = capacity -> 0 < capacity ->
  forall fuel max_level,
  exists root c,
    build_octree capacity (S (S fuel)) self max_level = Ok root /\
    list_get (children root) 7 = Ok (Some c) /\
    level c = 1 /\
    point_count c = 1.
Proof.
  intros Hal Hpts Hn Hpos fuel max_level.
  destruct m as [|n]; [simpl in Hn; lia|].
  destruct (build_octree_insert_all self Hal) as (pas & Hfst & ->).
  rewrite Hpts in *.
  assert (Emin : forall g : Point3 -> Q, g (0, 0, 0)%Q = 0%Q -> g (1, 1, 1)%Q = 1%Q ->
            min_of (map g (repeat (0, 0, 0)%Q (S n) ++ [(1, 1, 1)%Q])) = Ok 0%Q).
  { intros g H0 H1. rewrite map_app, map_repeat. simpl. rewrite H0, H1.
    now rewrite fold_left_Qmin'_zeros. }
  assert (Emax : forall g : Point3 -> Q, g (0, 0, 0)%Q = 0%Q -> g (1, 1, 1)%Q = 1%Q ->
            max_of (map g (repeat (0, 0, 0)%Q (S n) ++ [(1, 1, 1)%Q])) = Ok 1%Q).
  { intros g H0 H1. rewrite map_app, map_repeat. simpl. rewrite H0, H1.
    now rewrite fold_left_Qmax'_zeros. }
  rewrite !Emin, !Emax by reflexivity. cbn [bind].
  destruct (map_fst_app_split _ _ pas Hfst) as (pas1 & a & -> & Hl1).
  assert (Hlen1 : len pas1 = capacity).
  { unfold len. rewrite <- (length_map fst), Hl1, repeat_length. exact Hn. }
  set (root0 := OctreeNode_init capacity (0, 1, 0, 1, 0, 1)%Q 0).
  rewrite insert_all_app, insert_all_room; [|reflexivity|simpl; lia].
  cbn [bind insert_all].
  (* the insertion that overflows the root *)
  set (r1 := filled root0 pas1).
  rewrite insert_succ. cbv zeta. autorewrite with octree_fields.
  change (children r1) with (repeat (@None OctreeNode) 8).
  rewrite list_get_repeat_None_0. cbn [bind is_none andb].
  change (max_points_per_node r1) with capacity.
  change (points r1) with pas1.
  assert (E : (capacity <=? len pas1) = true) by lia. rewrite E.
  match goal with |- context [subdivide capacity ?s] =>
    destruct (subdivide_fresh capacity s eq_refl) as (cs0 & -> & Hlen0 & Hcs0);
    set (self0 := s) in *
  end.
  cbn [bind]. autorewrite with octree_fields.
  change (points self0) with pas1.
  change (octants_of (bounds self0)) with (octants_of (0, 1, 0, 1, 0, 1)%Q) in Hcs0.
  change (level self0) with 0 in Hcs0. simpl in Hcs0.
  set (self1 := set_children self0 (map Some cs0)).
  assert (Hoct0 : Forall (fun pa : Point3 * Attributes =>
                            get_octant self1 (fst pa) = 0) pas1).
  { apply Forall_forall. intros pa Hin.
    assert (Hp : fst pa = (0, 0, 0)%Q).
    { apply (in_map fst) in Hin. rewrite Hl1 in Hin.
      now apply repeat_spec in Hin. }
    rewrite Hp. reflexivity. }
  rewrite (redistribute_one_octant capacity fuel 0 pas1 self1 (children self1)
             (OctreeNode_init capacity (0, (0 + 1) / 2, 0, (0 + 1) / 2, 0, (0 + 1) / 2)%Q 1));
    [|reflexivity|unfold self1; simpl; rewrite Hcs0; simpl; unfold len; simpl; lia
     |unfold self1; simpl; rewrite Hcs0; reflexivity|reflexivity|simpl; lia|exact Hoct0].
  cbn [bind]. autorewrite with octree_fields.
  set (c0 := OctreeNode_init capacity
               (0, (0 + 1) / 2, 0, (0 + 1) / 2, 0, (0 + 1) / 2)%Q 1).
  set (c7 := OctreeNode_init capacity
               ((0 + 1) / 2, 1, (0 + 1) / 2, 1, (0 + 1) / 2, 1)%Q 1).
  set (cs1 := replace_nth (children self1) (Z.to_nat 0) (Some (filled c0 pas1))).
  assert (H0 : nth_error cs1 (Z.to_nat 0) = Some (Some (filled c0 pas1))).
  { unfold cs1, self1. simpl. rewrite Hcs0. reflexivity. }
  assert (H7 : nth_error cs1 (Z.to_nat 7) = Some (Some c7)).
  { unfold cs1, self1. simpl. rewrite Hcs0. reflexivity. }
  assert (H8 : len cs1 = 8).
  { unfold cs1, self1, len. simpl. rewrite Hcs0. reflexivity. }
  clearbody cs1.
  rewrite (list_get_nth cs1 0 _ (Z.le_refl 0) H0).
  cbn [bind is_some is_none negb].
  unfold insert_child. autorewrite with octree_fields.
  change (get_octant self1 (1, 1, 1)%Q) with 7.
  rewrite (list_get_nth cs1 7 _ ltac:(lia) H7). cbn [bind].
  rewrite insert_leaf_room; [|reflexivity|simpl; unfold len; simpl; lia].
  cbn [bind].
  rewrite list_set_in_range by lia. cbn [bind].
  eexists. eexists. split; [reflexivity|].
  autorewrite with octree_fields.
  split.
  - apply list_get_nth; [lia|].
    apply nth_error_replace_nth_eq. unfold len in H8. lia.
  - split; reflexivity.
Qed.

Lemma fold_left_zeros (f : Q -> Q -> Q) (k : nat) (l : list Q) :
  f 0%Q 0%Q = 0%Q ->
  fold_left f (repeat 0%Q k ++ l) 0%Q = fold_left f l 0%Q.
Proof. intros Hf. induction k as [|k IH]; simpl; [|rewrite Hf]; auto. Qed.

Lemma small_step_pos (d : nat) : (0 < small_step d)%Q.
Proof.
  unfold small_step. apply Qinv_lt_0_compat.
  change 0%Q with (inject_Z 0). rewrite <- Zlt_Qlt.
  apply Z.pow_pos_nonneg; lia.
Qed.

Lemma small_step_pow (d : nat) :
  ((0 + 1) / 2 == small_step d * inject_Z (2 ^ Z.of_nat (S d)))%Q.
Proof.
  unfold small_step.
  replace (Z.of_nat d + 2) with (Z.succ (Z.of_nat (S d))) by lia.
  rewrite Z.pow_succ_r by lia. rewrite inject_Z_mult.
  assert (H : ~ (inject_Z (2 ^ Z.of_nat (S d)) == 0)%Q).
  { change 0%Q with (inject_Z 0). rewrite inject_Z_injective.
    assert (0 < 2 ^ Z.of_nat (S d)) by (apply Z.pow_pos_nonneg; lia). lia. }
  change (inject_Z 2) with 2%Q. field. exact H.
Qed.

Lemma small_step_lt_half (d : nat) : (small_step d < 1 # 2)%Q.
Proof.
  assert (H := small_step_pow d). assert (Hp := small_step_pos d).
  assert (H2 : (inject_Z 2 <= inject_Z (2 ^ Z.of_nat (S d)))%Q).
  { rewrite <- Zle_Qle. rewrite Nat2Z.inj_succ, Z.pow_succ_r by lia.
    assert (0 < 2 ^ Z.of_nat d) by (apply Z.pow_pos_nonneg; lia). lia. }
  assert (H3 : (small_step d * inject_Z 2 <=
                small_step d * inject_Z (2 ^ Z.of_nat (S d)))%Q).
  { rewrite !(Qmult_comm (small_step d)). apply Qmult_le_compat_r; lra. }
  rewrite <- H in H3. change (inject_Z 2) with 2%Q in H3.
  setoid_replace ((0 + 1) / 2)%Q with (1 # 2)%Q in H3 by reflexivity.
  lra.
Qed.

(** A full root, one more point at the far corner and then a point at
    [1 / 2^(d + 2)] of the origin: the last insertion goes [d + 2] levels
    down, whatever [max_level] is. *)
Lemma build_octree_deep (self : LidarProcessor) (m d : nat) :
  aligned self ->
  lp_points self =
    repeat (0, 0, 0)%Q m ++ [(1, 1, 1)%Q; (small_step d, 0, 0)%Q] ->
  Z.of_nat m = capacity -> 0 < capacity ->
  forall fuel max_level,
  exists root node,
    build_octree capacity (S (S (S (d + fuel)))) self max_level = Ok root /\
    in_tree node root /\
    level node = Z.of_nat d + 2 /\
    map fst (points node) = [(small_step d, 0, 0)%Q].
Proof.
  intros Hal Hpts Hm Hpos fuel max_level.
  destruct m as [|n]; [simpl in Hm; lia|].
  pose proof (small_step_pos d) as Hq0.
  pose proof (small_step_lt_half d) as Hq1.
  set (q := small_step d) in *.
  destruct (build_octree_insert_all self Hal) as (pas & Hfst & ->).
  rewrite Hpts in *.
  assert (Eq0 : Qle_bool 0 q = true) by (apply Qle_bool_iff; lra).
  assert (Eq1 : Qle_bool 1 q = false).
  { destruct (Qle_bool 1 q) eqn:E; [|reflexivity].
    apply Qle_bool_iff in E. lra. }
  assert (Emin : forall g : Point3 -> Q, g (0, 0, 0)%Q = 0%Q ->
            g (1, 1, 1)%Q = 1%Q ->
            g (q, 0, 0)%Q = q \/ g (q, 0, 0)%Q = 0%Q ->
            min_of (map g (repeat (0, 0, 0)%Q (S n) ++
                           [(1, 1, 1)%Q; (q, 0, 0)%Q])) = Ok 0%Q).
  { intros g H0 H1 Hq. rewrite map_app, map_repeat. simpl. rewrite H0, H1.
    f_equal. rewrite fold_left_zeros by reflexivity. simpl.
    change (Qmin' 0 1) with 0%Q.
    destruct Hq as [-> | ->]; [unfold Qmin'; now rewrite Eq0|reflexivity]. }
  assert (Emax : forall g : Point3 -> Q, g (0, 0, 0)%Q = 0%Q ->
            g (1, 1, 1)%Q = 1%Q ->
            g (q, 0, 0)%Q = q \/ g (q, 0, 0)%Q = 0%Q ->
            max_of (map g (repeat (0, 0, 0)%Q (S n) ++
                           [(1, 1, 1)%Q; (q, 0, 0)%Q])) = Ok 1%Q).
  { intros g H0 H1 Hq. rewrite map_app, map_repeat. simpl. rewrite H0, H1.
    f_equal. rewrite fold_left_zeros by reflexivity. simpl.
    change (Qmax' 0 1) with 1%Q.
    destruct Hq as [-> | ->]; [unfold Qmax'; now rewrite Eq1|reflexivity]. }
  rewrite (Emin px), (Emin py), (Emin pz), (Emax px), (Emax py), (Emax pz);
    auto.
  cbn [bind].
  change [(1, 1, 1)%Q; (q, 0, 0)%Q] with ([(1, 1, 1)%Q] ++ [(q, 0, 0)%Q]) in Hfst.
  rewrite app_assoc in Hfst.
  destruct (map_fst_app_split _ _ pas Hfst) as (pas' & a2 & -> & Hfst').
  destruct (map_fst_app_split _ _ pas' Hfst') as (pas1 & a1 & -> & Hl1).
  assert (Hlen1 : len pas1 = capacity).
  { unfold len. rewrite <- (length_map fst), Hl1, repeat_length. exact Hm. }
  assert (Hzeros : Forall (fun pa : Point3 * Attributes =>
                             fst pa = (0, 0, 0)%Q) pas1).
  { apply Forall_forall. intros pa Hin.
    apply (in_map fst) in Hin. rewrite Hl1 in Hin.
    now apply repeat_spec in Hin. }
  set (root0 := OctreeNode_init capacity (0, 1, 0, 1, 0, 1)%Q 0).
  rewrite !insert_all_app. rewrite insert_all_room; [|reflexivity|simpl; lia].
  cbn [bind insert_all].
  set (r1 := filled root0 pas1).
  (* the point at the far corner makes the root subdivide *)
  rewrite (insert_overflow_origin capacity _ r1 _ a1 1%Q);
    [|reflexivity|reflexivity|exact Hlen1|exact Hzeros
     |simpl; repeat split; reflexivity|reflexivity].
  unfold insert_child at 1.
  change (get_octant (overflowed capacity r1) (1, 1, 1)%Q) with 7.
  rewrite (overflowed_children capacity r1 0 1 0 1 0 1 eq_refl)%Q. cbv zeta.
  match goal with |- context [list_get ?l 7] =>
    match l with context [[Some ?c7]] =>
      change (list_get l 7) with (Ok (Some c7)); set (k7 := c7)
    end;
    match l with Some ?c0 :: _ => set (k0 := c0) end
  end.
  cbn [bind].
  rewrite insert_leaf_room; [|reflexivity|simpl; unfold len; simpl; lia].
  cbn [bind]. rewrite list_set_in_range by (unfold len; simpl; lia).
  cbn [bind]. change (Z.to_nat 7) with 7%nat. cbn [replace_nth].
  (* the last point goes down through the first octants *)
  rewrite insert_succ. cbv zeta. autorewrite with octree_fields.
  match goal with |- context [list_get (Some k0 :: ?t) 0] =>
    change (list_get (Some k0 :: t) 0) with (Ok (Some k0))
  end.
  cbn [bind is_none is_some negb andb].
  unfold insert_child.
  match goal with |- context [get_octant ?s (q, 0, 0)%Q] =>
    rewrite (get_octant_on_axis s 1 q);
      [|simpl; repeat split; reflexivity|reflexivity]
  end.
  assert (Ehalf : Qle_bool (1 / 2) q = false).
  { destruct (Qle_bool (1 / 2) q) eqn:E; [|reflexivity].
    apply Qle_bool_iff in E. exfalso.
    setoid_replace (1 / 2)%Q with (1 # 2)%Q in E by reflexivity. lra. }
  rewrite Ehalf. autorewrite with octree_fields.
  match goal with |- context [list_get (Some k0 :: ?t) 0] =>
    change (list_get (Some k0 :: t) 0) with (Ok (Some k0))
  end.
  cbn [bind].
  destruct (insert_full_origin_leaf capacity q d fuel k0 a2 ((0 + 1) / 2)%Q)
    as (k0' & node & Hins & Hlvl & Hin & Hnode & Hnpts); auto.
  - simpl. repeat split; reflexivity.
  - apply small_step_pow.
  - rewrite Hins. cbn [bind].
    rewrite list_set_in_range by (unfold len; simpl; lia).
    cbn [bind]. eexists. exists node. split; [reflexivity|]. split.
    + eapply in_tree_child; [|exact Hin].
      autorewrite with octree_fields. simpl. auto.
    + split; [|now rewrite Hnpts].
      rewrite Hnode. change (level k0) with (0 + 1). lia.
Qed.

End OctreeBuild.

Lemma plain_cloud_aligned (pts : list Octree.Point3) :
  Octree.aligned (Octree.plain_cloud pts).
Proof.
  unfold Octree.aligned, Octree.plain_cloud. simpl.
  repeat split; intros l H; try discriminate; injection H as <-;
    unfold len; now rewrite repeat_length.
Qed.

(** C9: evaluation of the construction on more than
    [max_points_per_node] returns at one and the same position. The
    recursion of [OctreeNode.insert] never comes to an end: for every
    recursion budget, [build_octree] stops with [RecursionError] and no
    tree is returned. *)
Theorem octree_stacked_points_recursion_error (p : Octree.Point3)
    (fuel : nat) (max_level : Z) :
  Octree.build_octree Octree.MAX_POINTS_PER_NODE fuel (Octree.stacked_cloud p)
    max_level = Raise RecursionError.
Proof.
  apply (build_octree_stacked Octree.MAX_POINTS_PER_NODE _ p
           (Z.to_nat Octree.MAX_POINTS_PER_NODE)).
  - apply plain_cloud_aligned.
  - reflexivity.
  - apply Z2Nat.id. discriminate.
Qed.

(** The construction with [max_level = 0] on
    [max_points_per_node] returns at the origin and one more at
    [(1, 1, 1)]. The root, at level 0 = [max_level], subdivides all the
    same: the tree returned has a child at level 1 that holds the last
    point. *)
Lemma octree_subdivides_at_max_level (fuel : nat) :
  exists root c,
    Octree.build_octree Octree.MAX_POINTS_PER_NODE (S (S fuel))
      Octree.corner_cloud 0 = Ok root /\
    list_get (Octree.children root) 7 = Ok (Some c) /\
    Octree.level c = 1 /\
    Octree.point_count c = 1.
Proof.
  apply (build_octree_corner Octree.MAX_POINTS_PER_NODE _
           (Z.to_nat Octree.MAX_POINTS_PER_NODE)).
  - apply plain_cloud_aligned.
  - reflexivity.
  - apply Z2Nat.id. discriminate.
  - reflexivity.
Qed.

(** C4: evaluation of the construction, for any [max_level = d] that is
    not negative, on [max_points_per_node] returns at the origin, one at
    [(1, 1, 1)] and one at [(1 / 2^(d + 2), 0, 0)]. No insertion looks at
    the level of the node: the full leaves on the way of the last point
    subdivide one after the other, also those at level [max_level], and
    the tree returned has a node at level [max_level + 2], the leaf that
    holds the last point. With the default [max_level = 10] this is a
    node at level 12. *)
Theorem octree_exceeds_max_level (d fuel : nat) :
  exists root node,
    Octree.build_octree Octree.MAX_POINTS_PER_NODE (S (S (S (d + fuel))))
      (Octree.deep_cloud d) (Z.of_nat d) = Ok root /\
    Octree.in_tree node root /\
    Octree.level node = Z.of_nat d + 2 /\
    map fst (Octree.points node) = [(Octree.small_step d, 0, 0)%Q].
Proof.
  apply (build_octree_deep Octree.MAX_POINTS_PER_NODE _
           (Z.to_nat Octree.MAX_POINTS_PER_NODE) d).
  - apply plain_cloud_aligned.
  - reflexivity.
  - apply Z2Nat.id. discriminate.
  - reflexivity.
Qed.

(** ** Tiles (claim C2) *)

Section TilesCopieFacts.

Import Octree TilesCopie.

Lemma key_eqb_eq (k1 k2 : Z * Z) : key_eqb k1 k2 = true <-> k1 = k2.
Proof.
  destruct k1 as [a b], k2 as [c d]. unfold key_eqb. simpl.
  rewrite andb_true_iff, !Z.eqb_eq. split; [intros [-> ->]|intros [= -> ->]]; auto.
Qed.

Lemma setdefault_append_perm (tiles : TileDict) key p :
  Permutation (concat (map snd (setdefault_append tiles key p)))
              (p :: concat (map snd tiles)).
Proof.
  induction tiles as [|[k v] rest IH]; simpl; [reflexivity|].
  destruct (key_eqb k key); simpl.
  - rewrite <- app_assoc. simpl.
    rewrite <- Permutation_middle. reflexivity.
  - rewrite IH. rewrite Permutation_middle. reflexivity.
Qed.

Lemma setdefault_append_other_key (tiles : TileDict) k key p :
  key_eqb k key = false ->
  In k (map fst (setdefault_append tiles key p)) -> In k (map fst tiles).
Proof.
  intros E. induction tiles as [|[k' v'] rest IH]; simpl.
  - intros [Heq|[]]. subst k.
    assert (key_eqb key key = true) by now apply key_eqb_eq. congruence.
  - destruct (key_eqb k' key); simpl; tauto.
Qed.

Lemma setdefault_append_keys (tiles : TileDict) key p :
  NoDup (map fst tiles) -> NoDup (map fst (setdefault_append tiles key p)).
Proof.
  intros Hnd. induction tiles as [|[k v] rest IH]; simpl.
  - constructor; [intros []|constructor].
  - inversion Hnd as [|? ? Hk Hrest]; subst.
    destruct (key_eqb k key) eqn:E; simpl.
    + constructor; auto.
    + constructor; auto. intros Hin. apply Hk.
      eapply setdefault_append_other_key; eauto.
Qed.

Lemma setdefault_append_buckets (P : Z * Z -> Point3 -> Prop)
    (tiles : TileDict) key p :
  P key p ->
  Forall (fun kv => Forall (P (fst kv)) (snd kv)) tiles ->
  Forall (fun kv => Forall (P (fst kv)) (snd kv)) (setdefault_append tiles key p).
Proof.
  intros Hp Hall. induction Hall as [|[k v] rest Hkv Hrest IH]; simpl.
  - repeat constructor. exact Hp.
  - destruct (key_eqb k key) eqn:E.
    + apply key_eqb_eq in E. subst k. constructor; auto.
      simpl in *. apply Forall_app. split; auto.
    + constructor; auto.
Qed.

(** The sibling implementation partitions the points: the buckets of
    the dictionary, taken together, are the input points, no key occurs
    twice, and every point sits in the bucket of its own tile index. *)
Lemma assign_tiles_partition (min_x min_y : Q) (pts : list Point3) :
  forall tiles,
    NoDup (map fst tiles) ->
    Forall (fun kv => Forall (fun p =>
              compute_tile_index (px p) (py p) min_x min_y = fst kv) (snd kv))
           tiles ->
    Permutation (concat (map snd (assign_tiles min_x min_y pts tiles)))
                (pts ++ concat (map snd tiles)) /\
    NoDup (map fst (assign_tiles min_x min_y pts tiles)) /\
    Forall (fun kv => Forall (fun p =>
              compute_tile_index (px p) (py p) min_x min_y = fst kv) (snd kv))
           (assign_tiles min_x min_y pts tiles).
Proof.
  induction pts as [|p rest IH]; intros tiles Hnd Hall; cbn [assign_tiles].
  - repeat split; auto.
  - destruct (compute_tile_index (px p) (py p) min_x min_y) as [tx ty] eqn:E.
    destruct (IH (setdefault_append tiles (tx, ty) p)) as (Hperm & Hnd' & Hall').
    + now apply setdefault_append_keys.
    + apply (setdefault_append_buckets
               (fun k q => compute_tile_index (px q) (py q) min_x min_y = k));
        auto.
    + repeat split; auto.
      rewrite Hperm, setdefault_append_perm.
      rewrite <- Permutation_middle. reflexivity.
Qed.

Lemma generate_tiles_copie_partition (pts : list Point3) (tiles : TileDict) :
  TilesCopie.generate_tiles pts = Ok tiles ->
  Permutation (concat (map snd tiles)) pts /\ NoDup (map fst tiles).
Proof.
  unfold TilesCopie.generate_tiles. intros H.
  destruct (min_of (map px pts)) as [min_x|]; [|discriminate].
  destruct (min_of (map py pts)) as [min_y|]; [|discriminate].
  simpl in H. injection H as <-.
  destruct (assign_tiles_partition min_x min_y pts []) as (Hperm & Hnd & _);
    [constructor|constructor|].
  split; auto. simpl in Hperm. now rewrite app_nil_r in Hperm.
Qed.

End TilesCopieFacts.

(** C2: evaluation of [LidarProcessor.generate_tiles] with the default
    tile size 100 on two returns at [(0, 0)] and [(100, 100)]. Both loops
    stop as soon as the lower edge reaches the maximum, so a single tile
    [[0, 100) * [0, 100)] is generated; it holds the first return only and
    the return on the maximal boundary is in no tile. *)
Theorem generate_tiles_drops_max_boundary (fuel : nat) :
  exists tile,
    Tiles.generate_tiles (S (S fuel)) Tiles.square_cloud 100 = Ok [tile] /\
    Tiles.tile_points tile = [(0, 0, 0)%Q] /\
    ~ In (100, 100, 7)%Q (Tiles.tile_points tile).
Proof.
  eexists. split; [vm_compute; reflexivity|].
  split; [reflexivity|].
  simpl. intros [H|[]]. discriminate.
Qed.

(** ** Rasters (claims C6, C10, C3) *)

(** C6: evaluation of [_fill_nan_grid] on a 1 x 2 grid that holds the
    elevations 0 and 3 and no missing cell. The mean filter is applied to
    every cell, not only to the cells that hold NaN: both cells come out
    as 3/2, so neither keeps the elevation it had. *)
Theorem fill_nan_grid_overwrites_known_cells :
  Raster.two_cells = [[Some 0%Q; Some 3%Q]] /\
  Raster._fill_nan_grid Raster.two_cells = [[Some (3 # 2)%Q; Some (3 # 2)%Q]].
Proof. split; reflexivity. Qed.

(** C10: evaluation of [generate_dtm] and [generate_dsm] at resolution 1
    on a cloud of two ground returns at [(0, 0)] and [(1, 1)] and one
    return of class 6 at [(5, 5)]. The DTM is laid out on the bounding box
    of the ground returns and the DSM on that of all returns: the shapes
    are (2, 2) and (6, 6), the bounds differ, and the subtraction made by
    [calculate_building_heights] raises [ValueError]. *)
Theorem dtm_dsm_grids_misaligned (fuel : nat) :
  exists dtm dsm,
    Raster.generate_dtm fuel Raster.mast_cloud 1 = Ok dtm /\
    Raster.generate_dsm Raster.mast_cloud 1 = Ok dsm /\
    Raster.rm_shape dtm = (2, 2) /\ Raster.rm_shape dsm = (6, 6) /\
    Raster.rm_bounds dtm = (0, 1, 0, 1)%Q /\
    Raster.rm_bounds dsm = (0, 5, 0, 5)%Q /\
    Raster.calculate_building_heights dtm dsm = Raise ValueError.
Proof.
  eexists. eexists.
  split; [vm_compute; reflexivity|].
  split; [vm_compute; reflexivity|].
  repeat split; vm_compute; reflexivity.
Qed.

Lemma building_scenario_counterexample :
  ~ exists b, Raster.calculate_building_heights Raster.dtm3 Raster.dsm3 = Ok [b].
Proof. intros (b & H). vm_compute in H. discriminate. Qed.

(** C3, as amended. On the 3 x 3 grid with resolution 1, a DTM of zeros
    and the DSM [[0,0,0],[0,5,0],[0,0,0]], the cells higher than 2.0 form
    exactly one connected component, of one cell, with area 1 and maximal
    height 5; it has fewer than 10 cells, so
    [calculate_building_heights] skips it and returns no building. *)
Theorem building_scenario_component_discarded :
  exists height_model labeled b,
    Raster.np_sub (Raster.rm_grid Raster.dsm3) (Raster.rm_grid Raster.dtm3)
      = Ok height_model /\
    Raster.label (map (map (Raster.Qgt_threshold 2)) height_model)
      = (labeled, 1) /\
    Raster.building_of Raster.dtm3 height_model
      (map (map (fun l => l =? 1)) labeled) 1 = Ok b /\
    Raster.b_area_cells b = 1 /\
    Raster.b_height_max b = 5%Q /\
    Raster.b_area_m2 b = 1%Q /\
    Raster.calculate_building_heights Raster.dtm3 Raster.dsm3 = Ok [].
Proof.
  eexists. eexists. eexists.
  split; [vm_compute; reflexivity|].
  split; [vm_compute; reflexivity|].
  split; [vm_compute; reflexivity|].
  repeat split; vm_compute; reflexivity.
Qed.

(** ** Random sampling (claims C8, C5) *)

Lemma range_length (n : Z) : length (range n) = Z.to_nat n.
Proof. unfold range. now rewrite length_map, length_seq. Qed.

Lemma range_In (n i : Z) : In i (range n) <-> 0 <= i < n.
Proof.
  unfold range. rewrite in_map_iff. split.
  - intros (k & <- & Hk). apply in_seq in Hk. lia.
  - intros Hi. exists (Z.to_nat i). split; [lia|]. apply in_seq. lia.
Qed.

Section SamplingFacts.

Import Octree Sampling.

Variable RandomState : Type.
Variable permutation : RandomState -> Z -> list Z * RandomState.

(** What numpy promises of [permutation]: a rearrangement of [range(n)]. *)
Hypothesis permutation_spec :
  forall g n, Permutation (fst (permutation g n)) (range n).

Lemma take_in_range {A : Type} (a : list A) (indices : list Z) :
  Forall (fun i => 0 <= i < len a) indices ->
  exists t, take a indices = Ok t /\ len t = len indices.
Proof.
  induction 1 as [|i rest Hi _ (t & Ht & Hlen)]; simpl.
  - exists []. auto.
  - destruct (list_get_in_range a i Hi) as (x & _ & ->). simpl.
    rewrite Ht. simpl. exists (x :: t). split; auto.
    now rewrite !len_cons, Hlen.
Qed.

Lemma take_opt_in_range {A : Type} (o : option (list A)) (n : Z)
    (indices : list Z) :
  (forall a, o = Some a -> len a = n) ->
  Forall (fun i => 0 <= i < n) indices ->
  exists t, take_opt o indices = Ok t.
Proof.
  intros Hn Hall. destruct o as [a|]; simpl; [|eauto].
  destruct (take_in_range a indices) as (t & -> & _); [|simpl; eauto].
  now rewrite (Hn a eq_refl).
Qed.

Lemma choice_in_range (g : RandomState) (n size : Z) :
  0 < n -> 0 <= size <= n ->
  exists indices g',
    choice RandomState permutation g n size = (Ok indices, g') /\
    len indices = size /\
    Forall (fun i => 0 <= i < n) indices /\
    NoDup indices.
Proof.
  intros Hn Hsize. unfold choice.
  assert (E1 : (n <=? 0) = false) by lia.
  assert (E2 : (n <? size) = false) by lia.
  assert (E3 : (size <? 0) = false) by lia.
  rewrite E1, E2, E3. simpl.
  pose proof (permutation_spec g n) as Hperm.
  destruct (permutation g n) as [perm g']. simpl in Hperm.
  exists (firstn (Z.to_nat size) perm), g'. split; [reflexivity|].
  assert (Hlen : length perm = Z.to_nat n).
  { rewrite (Permutation_length Hperm). apply range_length. }
  assert (Hincl : forall i, In i (firstn (Z.to_nat size) perm) -> In i perm).
  { intros i Hi. rewrite <- (firstn_skipn (Z.to_nat size) perm).
    apply in_or_app. now left. }
  repeat split.
  - unfold len. rewrite length_firstn. lia.
  - apply Forall_forall. intros i Hi. apply range_In.
    eapply Permutation_in; [exact Hperm|]. auto.
  - assert (Hnd : NoDup perm).
    { eapply Permutation_NoDup; [symmetry; exact Hperm|].
      unfold range. apply Finite.Injective_map_NoDup; [|apply seq_NoDup].
      intros a b. apply Nat2Z.inj. }
    rewrite <- (firstn_skipn (Z.to_nat size) perm) in Hnd.
    now apply NoDup_app_remove_r in Hnd.
Qed.

Lemma min_of_nonempty (l : list Q) : 0 < len l -> exists m, min_of l = Ok m.
Proof. destruct l; [unfold len; simpl; lia|simpl; eauto]. Qed.

Lemma max_of_nonempty (l : list Q) : 0 < len l -> exists m, max_of l = Ok m.
Proof. destruct l; [unfold len; simpl; lia|simpl; eauto]. Qed.

(** C8, as amended. A request for more points than the file holds does
    not fail: on a non-empty file and for every non-negative
    [sample_size], [get_lidar_sample] answers with a body of exactly
    [min(sample_size, 50000, n)] points, [n] being the number of points
    of the file. *)
Theorem get_lidar_sample_clamps (g : RandomState) (las : LasData)
    (sample_size : Z) :
  las_well_formed las -> 0 < len (las_x las) -> 0 <= sample_size ->
  exists body g',
    get_lidar_sample RandomState permutation g (Some (Ok las)) sample_size
      = (Response body, g') /\
    sb_point_count body = Z.min (Z.min sample_size 50000) (len (las_x las)) /\
    len (sb_x body) = sb_point_count body.
Proof.
  intros (Hy & Hz & Hc & Hi) Hn Hs. unfold get_lidar_sample.
  set (n := len (las_x las)) in *.
  set (k := Z.min (Z.min sample_size 50000) n).
  destruct (choice_in_range g n k Hn) as (indices & g' & -> & Hlen & Hall & _);
    [lia|].
  unfold sample_body.
  destruct (take_in_range (las_x las) indices Hall) as (x & -> & Hx).
  destruct (take_in_range (las_y las) indices) as (y & -> & _);
    [now rewrite Hy|].
  destruct (take_in_range (las_z las) indices) as (z & -> & _);
    [now rewrite Hz|].
  destruct (take_opt_in_range _ n indices Hc Hall) as (cl & ->).
  destruct (take_opt_in_range _ n indices Hi Hall) as (it & ->).
  destruct (min_of_nonempty (las_x las) Hn) as (m1 & ->).
  destruct (max_of_nonempty (las_x las) Hn) as (m2 & ->).
  destruct (min_of_nonempty (las_y las)) as (m3 & ->); [now rewrite Hy|].
  destruct (max_of_nonempty (las_y las)) as (m4 & ->); [now rewrite Hy|].
  destruct (min_of_nonempty (las_z las)) as (m5 & ->); [now rewrite Hz|].
  destruct (max_of_nonempty (las_z las)) as (m6 & ->); [now rewrite Hz|].
  simpl. eexists. eexists. split; [reflexivity|]. simpl. split; [reflexivity|].
  now rewrite Hx.
Qed.

End SamplingFacts.

Lemma rotation_spec (g n : Z) :
  Permutation (fst (Sampling.rotation g n)) (range n).
Proof.
  unfold Sampling.rotation. simpl.
  rewrite Permutation_app_comm. now rewrite firstn_skipn.
Qed.

Lemma three_returns_well_formed :
  Sampling.las_well_formed Sampling.three_returns.
Proof.
  unfold Sampling.las_well_formed. simpl.
  repeat split; try reflexivity; intros a [= <-]; reflexivity.
Qed.

Lemma get_lidar_sample_clamps_witness :
  exists body g',
    Sampling.get_lidar_sample Z Sampling.rotation 0
      (Some (Ok Sampling.three_returns)) 5 = (Sampling.Response body, g') /\
    Sampling.sb_point_count body = 3 /\
    len (Sampling.sb_x body) = Sampling.sb_point_count body.
Proof.
  apply (get_lidar_sample_clamps Z Sampling.rotation rotation_spec 0
           Sampling.three_returns 5).
  - exact three_returns_well_formed.
  - reflexivity.
  - discriminate.
Defined.

Lemma sample_larger_than_file_counterexample :
  exists body,
    fst (Sampling.get_lidar_sample Z Sampling.rotation 0
           (Some (Ok Sampling.three_returns)) 5) = Sampling.Response body /\
    Sampling.sb_point_count body = 3.
Proof. eexists. split; vm_compute; reflexivity. Qed.

(** *** numpy's generator *)

Section NumpyRandomFacts.

Import NumpyRandom.

Lemma nth_replace_nth_perm (t : list Z) (i : nat) (a : Z) :
  (i < length t)%nat ->
  Permutation (nth i t 0 :: replace_nth t i a) (a :: t).
Proof.
  revert i. induction t as [|b t IH]; intros [|i] Hi; simpl in *; try lia.
  - apply perm_swap.
  - etransitivity; [apply perm_swap|].
    etransitivity; [apply perm_skip, IH; lia|]. apply perm_swap.
Qed.

(** [arr[i], arr[j] = arr[j], arr[i]] rearranges [arr]. *)
Lemma swap_perm (arr : list Z) (i j : nat) :
  (j <= i < length arr)%nat ->
  Permutation (replace_nth (replace_nth arr i (nth j arr 0)) j (nth i arr 0))
    arr.
Proof.
  revert i j. induction arr as [|a t IH]; intros [|i] [|j] Hij; simpl in *;
    try lia.
  - reflexivity.
  - apply nth_replace_nth_perm. lia.
  - apply perm_skip, IH. lia.
Qed.

Lemma bit_mask_nonneg (max : Z) : 0 <= max -> 0 <= bit_mask max.
Proof.
  assert (Hstep : forall m s, 0 <= m -> 0 <= Z.lor m (Z.shiftr m s)).
  { intros m s Hm. apply Z.lor_nonneg. split; [exact Hm|].
    now apply Z.shiftr_nonneg. }
  intros H. unfold bit_mask. cbv zeta. repeat apply Hstep. exact H.
Qed.

Lemma interval_loop_range (tries : nat) (state : State) (mask max : Z)
    (value : Z) (state' : State) :
  0 <= mask ->
  interval_loop tries state mask max = Some (value, state') ->
  0 <= value <= max.
Proof.
  intros Hmask. revert state.
  induction tries as [|tries IH]; intros state; cbn [interval_loop];
    [discriminate|].
  destruct (mt19937_next state) as [word s1].
  destruct (Z.land word mask <=? max) eqn:E.
  - intros [= <- <-]. split; [|lia]. apply Z.land_nonneg. now right.
  - apply IH.
Qed.

Lemma random_interval_range (state : State) (max value : Z) (state' : State) :
  0 <= max ->
  random_interval state max = Some (value, state') ->
  0 <= value <= max.
Proof.
  intros Hmax. unfold random_interval. destruct (max =? 0) eqn:E.
  - intros [= <- <-]. lia.
  - apply interval_loop_range. now apply bit_mask_nonneg.
Qed.

Lemma shuffle_loop_perm (indices : list nat) (state : State) (arr p : list Z)
    (state' : State) :
  Forall (fun i => (i < length arr)%nat) indices ->
  shuffle_loop indices state arr = Some (p, state') ->
  Permutation p arr.
Proof.
  revert state arr.
  induction indices as [|i rest IH]; intros state arr Hall;
    cbn [shuffle_loop].
  - now intros [= <- <-].
  - inversion Hall as [|i' rest' Hi Hrest]; subst.
    destruct (random_interval state (Z.of_nat i)) as [[j s1]|] eqn:E;
      [|discriminate].
    apply random_interval_range in E; [|lia].
    intros H. apply IH in H.
    + rewrite H. apply swap_perm. lia.
    + rewrite !replace_nth_length. exact Hrest.
Qed.

(** Whatever the state of the generator, [permutation] rearranges
    [range(n)]. *)
Lemma numpy_permutation_spec (g : State) (n : Z) :
  Permutation (fst (permutation g n)) (range n).
Proof.
  unfold permutation, shuffled.
  destruct (shuffle_loop _ g (range n)) as [[p s]|] eqn:E; [|reflexivity].
  simpl. eapply shuffle_loop_perm; [|exact E].
  apply Forall_forall. intros i Hi. apply in_rev, in_seq in Hi.
  rewrite range_length. lia.
Qed.

(** The generator is numpy's: seeded with 5489, the first word is the
    first of the reference implementation of MT19937, and seeded with 0
    or 42, [np.random.permutation(10)] is what numpy returns. *)
Lemma mt19937_first_word :
  fst (mt19937_next (mt19937_seed 5489)) = 3499211612.
Proof. vm_compute. reflexivity. Qed.

Lemma permutation_seed_0 :
  option_map fst (shuffled (mt19937_seed 0) 10)
    = Some [2; 8; 4; 9; 1; 6; 7; 3; 0; 5].
Proof. vm_compute. reflexivity. Qed.

Lemma permutation_seed_42 :
  option_map fst (shuffled (mt19937_seed 42) 10)
    = Some [8; 1; 5; 0; 7; 2; 9; 4; 3; 6].
Proof. vm_compute. reflexivity. Qed.

End NumpyRandomFacts.

Section SamplingDeterminism.

Import Octree Sampling Draws.

Variable RandomState : Type.
Variable permutation : RandomState -> Z -> list Z * RandomState.
Variable mean_neighbour_distance : list (Q * Q) -> Q.
Variable delaunay : list (Q * Q) -> result (list (list Z)).

Hypothesis permutation_spec :
  forall g n, Permutation (fst (permutation g n)) (range n).

Local Abbreviation drawn := (Draws.drawn RandomState permutation).









End SamplingDeterminism.



(** ** Two-dimensional arrays *)

Local Abbreviation cell := Raster.cell.

Section IndexFacts.

Context {A : Type}.

Lemma list_get_nonneg (l : list A) (i : Z) :
  0 <= i ->
  list_get l i = match nth_error l (Z.to_nat i) with
                 | Some a => Ok a
                 | None => Raise IndexError
                 end.
Proof.
  intros Hi. unfold list_get, norm_index.
  assert (E0 : (i <? 0) = false) by lia. rewrite !E0. simpl.
  destruct (Z.leb_spec (len l) i) as [Hge|Hlt]; [|reflexivity].
  destruct (nth_error l (Z.to_nat i)) eqn:E; [|reflexivity].
  assert (Z.to_nat i < length l)%nat by (apply nth_error_Some; congruence).
  unfold len in Hge. lia.
Qed.

Lemma list_get_In (l : list A) (i : Z) (a : A) : list_get l i = Ok a -> In a l.
Proof.
  unfold list_get. destruct (_ || _); [discriminate|].
  destruct (nth_error l _) eqn:E; [|discriminate].
  intros [= <-]. eapply nth_error_In; eauto.
Qed.

End IndexFacts.

Section GridFacts.

Context {A : Type}.

Lemma grid_get_cell (g : list (list A)) (r c : Z) :
  0 <= r -> 0 <= c ->
  Raster.grid_get g r c = match cell g r c with
                          | Some v => Ok v
                          | None => Raise IndexError
                          end.
Proof.
  intros Hr Hc. unfold Raster.grid_get, cell.
  rewrite (list_get_nonneg g r Hr).
  destruct (nth_error g (Z.to_nat r)) as [row|]; simpl; [|reflexivity].
  apply list_get_nonneg. exact Hc.
Qed.

Lemma rectangular_row (g : list (list A)) (rows cols r : Z) :
  Raster.rectangular g rows cols -> 0 <= r < rows ->
  exists row, nth_error g (Z.to_nat r) = Some row /\ len row = cols.
Proof.
  intros [Hlen Hall] Hr.
  destruct (nth_error g (Z.to_nat r)) as [row|] eqn:E.
  - exists row. split; auto.
    eapply Forall_forall in Hall; eauto using nth_error_In.
  - apply nth_error_None in E. unfold len in Hlen. lia.
Qed.

Lemma cell_in_range (g : list (list A)) (rows cols r c : Z) :
  Raster.rectangular g rows cols -> 0 <= r < rows -> 0 <= c < cols ->
  exists v, cell g r c = Some v.
Proof.
  intros Hg Hr Hc. unfold cell.
  destruct (rectangular_row g rows cols r Hg Hr) as (row & -> & Hlen).
  destruct (nth_error row (Z.to_nat c)) as [v|] eqn:E; eauto.
  apply nth_error_None in E. unfold len in Hlen. lia.
Qed.

(** Writing a cell inside the array: the shape is kept, the cell holds
    the value written and the other cells are untouched. *)
Lemma grid_set_in_range (g : list (list A)) (rows cols r c : Z) (v : A) :
  Raster.rectangular g rows cols -> 0 <= r < rows -> 0 <= c < cols ->
  exists g',
    Raster.grid_set g r c v = Ok g' /\
    Raster.rectangular g' rows cols /\
    cell g' r c = Some v /\
    forall r' c', 0 <= r' -> 0 <= c' -> (r', c') <> (r, c) ->
                  cell g' r' c' = cell g r' c'.
Proof.
  intros Hg Hr Hc.
  destruct (rectangular_row g rows cols r Hg Hr) as (row & Hrow & Hlen).
  destruct Hg as [Hrows Hall].
  unfold Raster.grid_set.
  rewrite (list_get_nonneg g r) by lia. rewrite Hrow. cbn [bind].
  rewrite list_set_in_range by lia. cbn [bind].
  rewrite list_set_in_range by lia.
  eexists. split; [reflexivity|].
  assert (Hr' : (Z.to_nat r < length g)%nat) by (unfold len in Hrows; lia).
  assert (Hc' : (Z.to_nat c < length row)%nat) by (unfold len in Hlen; lia).
  split; [|split].
  - split.
    + unfold len. now rewrite replace_nth_length.
    + apply Forall_replace_nth; auto.
      unfold len. now rewrite replace_nth_length.
  - unfold cell. rewrite nth_error_replace_nth_eq by exact Hr'.
    now apply nth_error_replace_nth_eq.
  - intros r' c' Hr0 Hc0 Hne. unfold cell.
    destruct (Z.eq_dec r' r) as [->|Hrr].
    + rewrite nth_error_replace_nth_eq by exact Hr'. rewrite Hrow.
      apply nth_error_replace_nth_ne. intros Heq. apply Hne.
      f_equal. lia.
    + rewrite nth_error_replace_nth_ne by lia. reflexivity.
Qed.

End GridFacts.

Lemma all_true_grid (g : list (list bool)) (rows cols : Z) :
  Raster.rectangular g rows cols ->
  (forall r c, 0 <= r < rows -> 0 <= c < cols -> cell g r c = Some true) ->
  g = repeat (repeat true (Z.to_nat cols)) (Z.to_nat rows).
Proof.
  intros [Hrows Hall] Hcells.
  assert (Hg : Forall (eq (repeat true (Z.to_nat cols))) g).
  { apply Forall_forall. intros row Hin.
    apply In_nth_error in Hin as (j & Hj).
    assert (Hjlt : (j < length g)%nat) by (apply nth_error_Some; congruence).
    assert (Hlen : len row = cols).
    { eapply Forall_forall in Hall; eauto using nth_error_In. }
    assert (Hrow : Forall (eq true) row).
    { apply Forall_forall. intros v Hv.
      apply In_nth_error in Hv as (i & Hi).
      assert (Hilt : (i < length row)%nat) by (apply nth_error_Some; congruence).
      specialize (Hcells (Z.of_nat j) (Z.of_nat i)).
      unfold cell in Hcells. rewrite !Nat2Z.id, Hj, Hi in Hcells.
      unfold len in *. 
      assert (Some v = Some true) by (apply Hcells; lia). congruence. }
    apply Forall_eq_repeat in Hrow. rewrite Hrow. f_equal.
    unfold len in Hlen. lia. }
  apply Forall_eq_repeat in Hg. rewrite Hg at 1. f_equal.
  unfold len in Hrows. lia.
Qed.

(** ** The line tracing of the viewshed *)

Section Bresenham.

Import Viewshed.

Variables x0 y0 x1 y1 : Z.

Let dx := Z.abs (x1 - x0).
Let dy := Z.abs (y1 - y0).
Let sx := if x0 <? x1 then 1 else -1.
Let sy := if y0 <? y1 then 1 else -1.

Local Abbreviation in_span := (Viewshed.in_span x0 y0 x1 y1).

(** After [a] steps along the first axis and [b] along the second, the
    error term is [dx - dy - a * dy + b * dx]; no step leaves the span, and
    each iteration makes at least one step. *)
Lemma bresenham_loop_terminates (fuel : nat) : forall a b points,
  0 <= a <= dx -> 0 <= b <= dy ->
  (dx - a) + (dy - b) < Z.of_nat fuel ->
  Forall in_span points ->
  exists pts,
    bresenham_loop fuel x1 y1 dx dy sx sy (x0 + sx * a) (y0 + sy * b)
      (dx - dy - a * dy + b * dx) points = Ok pts /\
    Forall in_span pts /\ pts <> [].
Proof.
  assert (Hsx : x1 = x0 + sx * dx).
  { unfold sx, dx. destruct (Z.ltb_spec x0 x1); lia. }
  assert (Hsy : y1 = y0 + sy * dy).
  { unfold sy, dy. destruct (Z.ltb_spec y0 y1); lia. }
  assert (Hsx1 : sx = 1 \/ sx = -1) by (unfold sx; destruct (x0 <? x1); auto).
  assert (Hsy1 : sy = 1 \/ sy = -1) by (unfold sy; destruct (y0 <? y1); auto).
  assert (Hdx : 0 <= dx) by (unfold dx; lia).
  assert (Hdy : 0 <= dy) by (unfold dy; lia).
  clearbody dx dy sx sy.
  induction fuel as [|fuel IH]; intros a b points Ha Hb Hfuel Hpts; [lia|].
  cbn [bresenham_loop].
  assert (Hhere : Forall in_span (points ++ [(x0 + sx * a, y0 + sy * b)])).
  { apply Forall_app. split; auto. constructor; [|constructor].
    unfold in_span. simpl. destruct Hsx1, Hsy1; subst sx sy; lia. }
  destruct ((x0 + sx * a =? x1) && (y0 + sy * b =? y1)) eqn:Eend.
  - eexists. split; [reflexivity|]. split; auto.
    intros Hnil. apply app_eq_nil in Hnil as [_ Hnil]. discriminate.
  - assert (Hnot : a < dx \/ b < dy).
    { apply andb_false_iff in Eend. rewrite !Z.eqb_neq in Eend.
      destruct Hsx1, Hsy1; subst sx sy; lia. }
    set (err := dx - dy - a * dy + b * dx).
    destruct (Z.gtb_spec (2 * err) (- dy)) as [Hx|Hx];
      destruct (Z.ltb_spec (2 * err) dx) as [Hy|Hy].
    + (* a step along both axes *)
      assert (a < dx) by (unfold err in *; nia).
      assert (b < dy) by (unfold err in *; nia).
      replace (x0 + sx * a + sx) with (x0 + sx * (a + 1)) by lia.
      replace (y0 + sy * b + sy) with (y0 + sy * (b + 1)) by lia.
      replace (err - dy + dx)
        with (dx - dy - (a + 1) * dy + (b + 1) * dx) by (unfold err; lia).
      apply IH; auto; lia.
    + (* a step along the first axis *)
      assert (a < dx) by (unfold err in *; nia).
      replace (x0 + sx * a + sx) with (x0 + sx * (a + 1)) by lia.
      replace (err - dy) with (dx - dy - (a + 1) * dy + b * dx)
        by (unfold err; lia).
      apply IH; auto; lia.
    + (* a step along the second axis *)
      assert (b < dy) by (unfold err in *; nia).
      replace (y0 + sy * b + sy) with (y0 + sy * (b + 1)) by lia.
      replace (err + dx) with (dx - dy - a * dy + (b + 1) * dx)
        by (unfold err; lia).
      apply IH; auto; lia.
    + (* no step: only at the end point *)
      exfalso. unfold err in *. nia.
Qed.

Lemma bresenham_line_in_span (fuel : nat) :
  dx + dy < Z.of_nat fuel ->
  exists pts,
    _bresenham_line fuel x0 y0 x1 y1 = Ok pts /\
    Forall in_span pts /\ pts <> [].
Proof.
  intros Hfuel. unfold _bresenham_line. fold dx dy sx sy.
  destruct (bresenham_loop_terminates fuel 0 0 []) as (pts & H & Hall & Hne);
    try (unfold dx, dy; lia); [constructor|].
  exists pts. split; auto.
  rewrite <- H. f_equal; lia.
Qed.

End Bresenham.

(** ** The viewshed (claim C7) *)

Lemma fraction_bounds (k n : Z) :
  0 <= k <= n -> 0 < n -> (0 <= inject_Z k / inject_Z n <= 1)%Q.
Proof.
  intros Hk Hn.
  assert (Hn' : (0 < inject_Z n)%Q)
    by (change 0%Q with (inject_Z 0); rewrite <- Zlt_Qlt; lia).
  split.
  - apply Qle_shift_div_l; auto. rewrite Qmult_0_l.
    change 0%Q with (inject_Z 0). rewrite <- Zle_Qle. lia.
  - apply Qle_shift_div_r; auto. rewrite Qmult_1_l.
    rewrite <- Zle_Qle. lia.

Qed.

Lemma sight_line_above (elev e t h oh th f : Q) :
  (e == elev -> t == elev -> h == elev -> 0 <= oh -> 0 <= th ->
   0 <= f <= 1 -> h <= e + oh + f * (t + th - (e + oh)))%Q.
Proof.
  intros He Ht Hh Hoh Hth [Hf0 Hf1]. rewrite He, Ht, Hh.
  assert (H1 : (0 <= (1 - f) * oh)%Q) by (apply Qmult_le_0_compat; lra).
  assert (H2 : (0 <= f * th)%Q) by (apply Qmult_le_0_compat; lra).
  setoid_replace (elev + oh + f * (elev + th - (elev + oh)))%Q
    with (elev + ((1 - f) * oh + f * th))%Q by ring.
  lra.
Qed.

Lemma inner_slice_incl {A : Type} (l : list A) (x : A) :
  In x (Viewshed.inner_slice l) -> In x l.
Proof.
  unfold Viewshed.inner_slice. intros H.
  destruct l as [|a t]; [contradiction|]. simpl in H. right.
  destruct t as [|b t'] using rev_ind; [contradiction|].
  rewrite removelast_last in H. apply in_or_app. now left.
Qed.

Lemma inner_slice_length {A : Type} (l : list A) :
  len (Viewshed.inner_slice l) <= len l.
Proof.
  unfold Viewshed.inner_slice, len. destruct l as [|a t]; simpl; [lia|].
  destruct t as [|b t'] using rev_ind; simpl; [lia|].
  rewrite removelast_last, length_app. simpl. lia.
Qed.

Lemma enumerate_spec {A : Type} (l : list A) : forall s k a,
  In (k, a) (enumerate s l) -> s <= k < s + len l /\ In a l.
Proof.
  induction l as [|h t IH]; intros s k a Hin; simpl in Hin; [contradiction|].
  rewrite len_cons. pose proof (len_nonneg t).
  destruct Hin as [Heq|Hin].
  - injection Heq as <- <-. split; [lia|now left].
  - apply IH in Hin as [Hk Ha]. split; [lia|now right].
Qed.

Section ViewshedFacts.

Import Viewshed.

Variable dem : Dem.
Variables rows cols : Z.
Variables obs_row obs_col : Z.
Variables observer_height target_height : Q.
Variable fuel : nat.
Variable e : Q.

Hypothesis dem_rect : Raster.rectangular dem rows cols.
Hypothesis obs_row_in : 0 <= obs_row < rows.
Hypothesis obs_col_in : 0 <= obs_col < cols.
Hypothesis enough_fuel : rows + cols <= Z.of_nat fuel.
Hypothesis obs_cell : cell dem obs_row obs_col = Some e.

Local Abbreviation in_grid := (Viewshed.in_grid rows cols).
Local Abbreviation flat := (Viewshed.flat dem observer_height target_height).
Local Abbreviation loop_inv :=
  (Viewshed.loop_inv dem rows cols obs_row obs_col observer_height
     target_height).

Lemma flat_cell (elev : Q) (r c : Z) (v : Q) :
  flat elev -> cell dem r c = Some v -> (v == elev)%Q.
Proof.
  intros (Hc & _ & _) Hv. unfold cell in Hv.
  destruct (nth_error dem (Z.to_nat r)) as [row|] eqn:Er; [|discriminate].
  apply nth_error_In in Er, Hv.
  unfold constant in Hc. rewrite Forall_forall in Hc.
  specialize (Hc row Er). rewrite Forall_forall in Hc. auto.
Qed.

Lemma sight_loop_ok (t : Q) (n : Z) (pts : list (Z * (Z * Z))) :
  0 < n ->
  Forall (fun kp => 0 <= fst kp <= n /\ in_grid (snd kp)) pts ->
  exists b,
    sight_loop dem (e + observer_height) (t + target_height) n pts = Ok b /\
    forall elev, flat elev -> (t == elev)%Q -> b = true.
Proof.
  intros Hn. induction 1 as [|[k [r c]] rest [Hk [Hr Hc]] _ (b & Hb & Hflat)].
  - exists true. split; auto.
  - simpl in Hk, Hr, Hc. cbn [sight_loop].
    destruct (cell_in_range dem rows cols r c dem_rect Hr Hc) as (h & Hh).
    rewrite grid_get_cell by lia. rewrite Hh. cbn [bind].
    destruct (Qgtb h _) eqn:Egt.
    + exists false. split; [reflexivity|].
      intros elev Hfl Ht. exfalso.
      unfold Qgtb in Egt. apply negb_true_iff in Egt.
      assert (Hle : Qle_bool h
                (e + observer_height +
                 inject_Z k / inject_Z n *
                 (t + target_height - (e + observer_height))) = true).
      { apply Qle_bool_iff. destruct Hfl as (Hc0 & Hoh & Hth).
        apply (sight_line_above elev); auto.
        - eapply flat_cell; [repeat split; eauto|exact obs_cell].
        - eapply flat_cell; [repeat split; eauto|exact Hh].
        - apply fraction_bounds; auto. }
      congruence.
    + exists b. split; auto.
Qed.

Lemma visit_cell_inv (visible : list (list bool)) (T : Z -> Z -> Prop) (i j : Z) :
  loop_inv visible T -> in_grid (i, j) ->
  exists visible',
    visit_cell fuel dem obs_row obs_col (e + observer_height) target_height
      i j visible = Ok visible' /\
    loop_inv visible' (fun r c => T r c \/ (r = i /\ c = j)).
Proof.
  intros (Hrect & Hobs & HT) [Hi Hj]. simpl in Hi, Hj. unfold visit_cell.
  destruct ((i =? obs_row) && (j =? obs_col)) eqn:Eobs.
  - apply andb_true_iff in Eobs as [Ei Ej].
    apply Z.eqb_eq in Ei, Ej. subst i j.
    exists visible. split; [reflexivity|].
    split; [exact Hrect|split; [exact Hobs|]].
    intros elev Hfl r c Hrc [Ht|[-> ->]]; eauto.
  - destruct (bresenham_line_in_span obs_row obs_col i j fuel)
      as (line & -> & Hspan & Hne); [lia|]. cbn [bind].
    destruct (cell_in_range dem rows cols i j dem_rect Hi Hj) as (t & Ht).
    rewrite grid_get_cell by lia. rewrite Ht. cbn [bind].
    destruct (sight_loop_ok t (len line) (enumerate 1 (inner_slice line)))
      as (b & -> & Hb).
    { destruct line; [congruence|]. rewrite len_cons.
      pose proof (len_nonneg line). lia. }
    { apply Forall_forall. intros [k p] Hin.
      apply enumerate_spec in Hin as [Hk Hp]. simpl.
      pose proof (inner_slice_length line).
      split; [lia|].
      apply inner_slice_incl in Hp.
      rewrite Forall_forall in Hspan. destruct (Hspan p Hp) as [H1 H2].
      unfold in_grid. lia. }
    cbn [bind].
    destruct (grid_set_in_range visible rows cols i j b Hrect Hi Hj)
      as (visible' & -> & Hrect' & Hset & Hother).
    exists visible'. split; [reflexivity|]. repeat split; try apply Hrect'.
    + rewrite Hother; auto; try lia.
      intros [= <- <-]. rewrite !Z.eqb_refl in Eobs. discriminate.
    + intros elev Hfl r c [Hr Hc] HTrc. simpl in Hr, Hc.
      destruct (Z.eq_dec r i) as [->|Hri];
        [destruct (Z.eq_dec c j) as [->|Hcj]|].
      * rewrite Hset. f_equal. apply (Hb elev Hfl).
        eapply flat_cell; eauto.
      * rewrite Hother; try lia; [|congruence].
        destruct HTrc as [HTrc|[_ ?]]; [|contradiction].
        apply (HT elev); auto. split; auto.
      * rewrite Hother; try lia; [|congruence].
        destruct HTrc as [HTrc|[? _]]; [|contradiction].
        apply (HT elev); auto. split; auto.
Qed.

Lemma visit_row_inv (i : Z) (js : list Z) :
  0 <= i < rows -> Forall (fun j => 0 <= j < cols) js ->
  forall visible T,
    loop_inv visible T ->
    exists visible',
      visit_row fuel dem obs_row obs_col (e + observer_height) target_height
        i js visible = Ok visible' /\
      loop_inv visible' (fun r c => T r c \/ (r = i /\ In c js)).
Proof.
  intros Hi. induction 1 as [|j rest Hj _ IH]; intros visible T Hinv.
  - exists visible. split; [reflexivity|].
    destruct Hinv as (H1 & H2 & H3). split; [exact H1|split; [exact H2|]].
    intros elev Hfl r c Hrc [Ht|[_ []]]. eauto.
  - cbn [visit_row].
    destruct (visit_cell_inv visible T i j Hinv) as (v1 & -> & Hinv1);
      [split; auto|]. cbn [bind].
    destruct (IH v1 _ Hinv1) as (v2 & -> & (H1 & H2 & H3)).
    exists v2. split; [reflexivity|]. split; [exact H1|split; [exact H2|]].
    intros elev Hfl r c Hrc Hcase. apply (H3 elev); auto.
    simpl in Hcase. intuition (subst; auto).
Qed.

Lemma visit_rows_inv (row_indices : list Z) :
  Forall (fun i => 0 <= i < rows) row_indices ->
  forall visible T,
    loop_inv visible T ->
    exists visible',
      visit_rows fuel dem obs_row obs_col (e + observer_height) target_height
        cols row_indices visible = Ok visible' /\
      loop_inv visible'
        (fun r c => T r c \/ (In r row_indices /\ In c (range cols))).
Proof.
  induction 1 as [|i rest Hi _ IH]; intros visible T Hinv.
  - exists visible. split; [reflexivity|].
    destruct Hinv as (H1 & H2 & H3). split; [exact H1|split; [exact H2|]].
    intros elev Hfl r c Hrc [Ht|[[] _]]. eauto.
  - cbn [visit_rows].
    destruct (visit_row_inv i (range cols) Hi) with (visible := visible) (T := T)
      as (v1 & -> & Hinv1); auto.
    { apply Forall_forall. intros j Hj. now apply range_In. }
    cbn [bind].
    destruct (IH v1 _ Hinv1) as (v2 & -> & (H1 & H2 & H3)).
    exists v2. split; [reflexivity|]. split; [exact H1|split; [exact H2|]].
    intros elev Hfl r c Hrc Hcase. apply (H3 elev); auto.
    simpl in Hcase. intuition (subst; auto).
Qed.

Lemma calculate_visible :
  exists visible,
    calculate fuel dem (obs_row, obs_col) observer_height target_height
      = Ok visible /\
    Raster.grid_get visible obs_row obs_col = Ok true /\
    forall elev, flat elev ->
      visible = repeat (repeat true (Z.to_nat cols)) (Z.to_nat rows).
Proof.
  unfold calculate.
  assert (Hshape : shape dem = (rows, cols)).
  { unfold shape, Raster.shape_of. destruct dem_rect as [Hlen Hall].
    rewrite Hlen. f_equal. destruct dem as [|row rest].
    - unfold len in Hlen. simpl in Hlen. lia.
    - now inversion Hall. }
  rewrite Hshape.
  rewrite grid_get_cell by lia. rewrite obs_cell. cbn [bind].
  assert (Hrect0 : Raster.rectangular (map (map (fun _ : Q => false)) dem)
                     rows cols).
  { destruct dem_rect as [Hlen Hall]. split.
    - unfold len in *. now rewrite length_map.
    - apply Forall_map. eapply Forall_impl; [|exact Hall].
      intros row Hrow. unfold len in *. now rewrite length_map. }
  destruct (grid_set_in_range _ rows cols obs_row obs_col true Hrect0
              obs_row_in obs_col_in) as (v0 & -> & Hrect1 & Hset & _).
  cbn [bind].
  destruct (visit_rows_inv (range rows)) with (visible := v0)
    (T := fun (_ _ : Z) => False) as (v & -> & (H1 & H2 & H3)).
  { apply Forall_forall. intros i Hi. now apply range_In. }
  { repeat split; try apply Hrect1; auto. intros ? ? ? ? ? []. }
  exists v. split; [reflexivity|]. split.
  - rewrite grid_get_cell by lia. now rewrite H2.
  - intros elev Hfl. apply all_true_grid; auto.
    intros r c Hr Hc. apply (H3 elev Hfl); [split; auto|].
    right. split; apply range_In; auto.
Qed.

End ViewshedFacts.

(** C7. On a raster of constant elevation, with the observer on a cell of
    the raster and non-negative observer and target heights, and once the
    line tracing is given enough iterations, [ViewshedAnalyzer.calculate]
    returns a grid in which every cell is visible. On any raster, the
    cell of the observer is visible in the grid returned. *)
Theorem viewshed_flat_all_visible (dem : Viewshed.Dem) (rows cols : Z)
    (obs_row obs_col : Z) (observer_height target_height : Q) (fuel : nat) :
  Raster.rectangular dem rows cols ->
  0 <= obs_row < rows -> 0 <= obs_col < cols ->
  rows + cols <= Z.of_nat fuel ->
  exists visible,
    Viewshed.calculate fuel dem (obs_row, obs_col) observer_height
      target_height = Ok visible /\
    Raster.grid_get visible obs_row obs_col = Ok true /\
    forall elevation,
      Viewshed.constant dem elevation ->
      (0 <= observer_height)%Q -> (0 <= target_height)%Q ->
      visible = repeat (repeat true (Z.to_nat cols)) (Z.to_nat rows).
Proof.
  intros Hrect Hr Hc Hfuel.
  destruct (cell_in_range dem rows cols obs_row obs_col Hrect Hr Hc) as (e & He).
  destruct (calculate_visible dem rows cols obs_row obs_col observer_height
              target_height fuel e Hrect Hr Hc Hfuel He)
    as (visible & Hcalc & Hobs & Hflat).
  exists visible. repeat split; auto.
  intros elevation Hconst Hoh Hth. apply (Hflat elevation).
  repeat split; auto.
Qed.

Lemma viewshed_flat_all_visible_witness :
  exists visible,
    Viewshed.calculate 7 Viewshed.plateau (1, 2) 2 0 = Ok visible /\
    Raster.grid_get visible 1 2 = Ok true /\
    forall elevation,
      Viewshed.constant Viewshed.plateau elevation ->
      (0 <= 2)%Q -> (0 <= 0)%Q ->
      visible = repeat (repeat true 4) 3.
Proof.
  apply (viewshed_flat_all_visible Viewshed.plateau 3 4 1 2 2 0 7).
  - split; [reflexivity|]. repeat constructor.
  - lia.
  - lia.
  - simpl. lia.
Defined.

(* ================================================================== *)
(** * Part III: further properties of the code                         *)
(* ================================================================== *)

(** ** Minimum and maximum of a sequence *)

Lemma Qmin'_spec (a b : Q) :
  (Qmin' a b <= a)%Q /\ (Qmin' a b <= b)%Q /\ (Qmin' a b = a \/ Qmin' a b = b).
Proof.
  unfold Qmin'. destruct (Qle_bool a b) eqn:E.
  - apply Qle_bool_iff in E. repeat split; auto. apply Qle_refl.
  - assert (H : ~ (a <= b)%Q) by (rewrite <- Qle_bool_iff; congruence).
    apply Qnot_le_lt in H. repeat split; auto; [apply Qlt_le_weak|apply Qle_refl]; auto.
Qed.

Lemma Qmax'_spec (a b : Q) :
  (a <= Qmax' a b)%Q /\ (b <= Qmax' a b)%Q /\ (Qmax' a b = a \/ Qmax' a b = b).
Proof.
  unfold Qmax'. destruct (Qle_bool a b) eqn:E.
  - apply Qle_bool_iff in E. repeat split; auto. apply Qle_refl.
  - assert (H : ~ (a <= b)%Q) by (rewrite <- Qle_bool_iff; congruence).
    apply Qnot_le_lt in H. repeat split; auto; [apply Qle_refl|apply Qlt_le_weak]; auto.
Qed.

Lemma fold_Qmin'_spec (t : list Q) : forall a,
  (fold_left Qmin' t a <= a)%Q /\
  Forall (fun x => fold_left Qmin' t a <= x)%Q t /\
  (fold_left Qmin' t a = a \/ In (fold_left Qmin' t a) t).
Proof.
  induction t as [|b t IH]; intros a; simpl.
  - repeat split; auto. apply Qle_refl.
  - destruct (IH (Qmin' a b)) as (H1 & H2 & H3).
    destruct (Qmin'_spec a b) as (Ha & Hb & Hab).
    repeat split.
    + eapply Qle_trans; eauto.
    + constructor; auto. eapply Qle_trans; eauto.
    + destruct H3 as [H3|H3]; [|auto].
      rewrite H3. destruct Hab as [-> | ->]; auto.
Qed.

Lemma fold_Qmax'_spec (t : list Q) : forall a,
  (a <= fold_left Qmax' t a)%Q /\
  Forall (fun x => x <= fold_left Qmax' t a)%Q t /\
  (fold_left Qmax' t a = a \/ In (fold_left Qmax' t a) t).
Proof.
  induction t as [|b t IH]; intros a; simpl.
  - repeat split; auto. apply Qle_refl.
  - destruct (IH (Qmax' a b)) as (H1 & H2 & H3).
    destruct (Qmax'_spec a b) as (Ha & Hb & Hab).
    repeat split.
    + eapply Qle_trans; eauto.
    + constructor; auto. eapply Qle_trans; eauto.
    + destruct H3 as [H3|H3]; [|auto].
      rewrite H3. destruct Hab as [-> | ->]; auto.
Qed.

(** [min(l)] is an element of [l] below all the others. *)
Lemma min_of_spec (l : list Q) (m : Q) :
  min_of l = Ok m -> In m l /\ Forall (fun x => m <= x)%Q l.
Proof.
  destruct l as [|a t]; [discriminate|]. simpl. intros [= <-].
  destruct (fold_Qmin'_spec t a) as (H1 & H2 & H3).
  split; [simpl; destruct H3 as [H3|H3]; auto|]. constructor; auto.
Qed.

Lemma max_of_spec (l : list Q) (m : Q) :
  max_of l = Ok m -> In m l /\ Forall (fun x => x <= m)%Q l.
Proof.
  destruct l as [|a t]; [discriminate|]. simpl. intros [= <-].
  destruct (fold_Qmax'_spec t a) as (H1 & H2 & H3).
  split; [simpl; destruct H3 as [H3|H3]; auto|]. constructor; auto.
Qed.

(** ** The octree: octants, shape, content *)

Section OctantFacts.

Import Octree OctreeMore.

Lemma get_octant_selects_octant (self : OctreeNode) (p : Point3) :
  in_box (bounds self) p ->
  exists b,
    nth_error (octants_of (bounds self)) (Z.to_nat (get_octant self p)) = Some b /\
    in_box b p.
Proof.
  unfold in_box, get_octant, octants_of. destruct p as [[x y] z].
  destruct (bounds self) as [[[[[a1 a2] b1] b2] c1] c2].
  intros (H1 & H2 & H3 & H4 & H5 & H6). unfold Qgeb.
  assert (Hcase : forall m v : Q,
            (Qle_bool m v = true /\ (m <= v)%Q) \/
            (Qle_bool m v = false /\ (v <= m)%Q)).
  { intros m v. destruct (Qle_bool m v) eqn:E.
    - left. split; auto. now apply Qle_bool_iff.
    - right. split; auto. apply Qlt_le_weak, Qnot_le_lt.
      rewrite <- Qle_bool_iff. congruence. }
  destruct (Hcase ((a1 + a2) / 2)%Q x) as [[-> Hx]|[-> Hx]];
    destruct (Hcase ((b1 + b2) / 2)%Q y) as [[-> Hy]|[-> Hy]];
    destruct (Hcase ((c1 + c2) / 2)%Q z) as [[-> Hz]|[-> Hz]];
    simpl; eexists; (split; [reflexivity|]); repeat split; assumption.
Qed.

(** X1. [get_octant] agrees with [subdivide]: a point of the box of a
    node lies in the box of the octant that [get_octant] selects for
    it. *)
Theorem get_octant_selects_containing_octant (self : OctreeNode) (p : Point3) :
  in_box (bounds self) p ->
  exists b,
    nth_error (octants_of (bounds self)) (Z.to_nat (get_octant self p)) = Some b /\
    in_box b p.
Proof. apply get_octant_selects_octant. Qed.

End OctantFacts.

Lemma get_octant_selects_containing_octant_witness :
  exists b,
    nth_error (Octree.octants_of (0, 4, 0, 4, 0, 4)%Q)
      (Z.to_nat (Octree.get_octant
                   (Octree.OctreeNode_init 2 (0, 4, 0, 4, 0, 4)%Q 0)
                   (2, 1, 3)%Q)) = Some b /\
    OctreeMore.in_box b (2, 1, 3)%Q.
Proof.
  apply (get_octant_selects_containing_octant
           (Octree.OctreeNode_init 2 (0, 4, 0, 4, 0, 4)%Q 0) (2, 1, 3)%Q).
  simpl. repeat split; discriminate.
Defined.

Lemma flat_map_replace_nth_perm {A B : Type} (f : A -> list B)
    (cs : list A) (o : nat) (c c' : A) (x : B) :
  nth_error cs o = Some c ->
  Permutation (f c') (x :: f c) ->
  Permutation (flat_map f (replace_nth cs o c')) (x :: flat_map f cs).
Proof.
  revert o. induction cs as [|h t IH]; intros [|o] Hn Hp; simpl in *;
    try discriminate.
  - injection Hn as ->.
    change (x :: f c ++ flat_map f t) with ((x :: f c) ++ flat_map f t).
    now apply Permutation_app_tail.
  - rewrite (IH o Hn Hp). apply Permutation_sym, Permutation_middle.
Qed.

Lemma map_replace_nth_same {A B : Type} (f : A -> B) (cs : list A) (o : nat)
    (c c' : A) :
  nth_error cs o = Some c -> f c' = f c ->
  map f (replace_nth cs o c') = map f cs.
Proof.
  revert o. induction cs as [|h t IH]; intros [|o] Hn Hf; simpl in *;
    try discriminate.
  - injection Hn as ->. now rewrite Hf.
  - now rewrite (IH o Hn Hf).
Qed.

Lemma Forall_replace_nth_at {A : Type} (P Q : A -> Prop) (cs : list A)
    (o : nat) (c c' : A) :
  nth_error cs o = Some c -> Forall P cs -> (P c -> Q c') ->
  (forall a, P a -> Q a) -> Forall Q (replace_nth cs o c').
Proof.
  intros Hn Hall Hc HPQ. revert o Hn.
  induction Hall as [|h t Hh Ht IH]; intros [|o] Hn; simpl in *;
    try discriminate.
  - injection Hn as ->. constructor; auto.
    eapply Forall_impl; eauto.
  - constructor; eauto.
Qed.

Section OctreeInvariants.

Import Octree OctreeMore.

Variable capacity : Z.

Local Abbreviation shaped := (OctreeMore.shaped capacity).

Lemma tree_points_eq (n : OctreeNode) :
  tree_points n =
  points n ++ flat_map (fun c => match c with
                                 | Some c' => tree_points c'
                                 | None => []
                                 end) (children n).
Proof. destruct n. reflexivity. Qed.

Lemma tree_points_inner (n : OctreeNode) (cs : list OctreeNode) :
  children n = map Some cs ->
  tree_points n = points n ++ flat_map tree_points cs.
Proof.
  intros Hc. rewrite tree_points_eq, Hc. f_equal.
  clear Hc. induction cs as [|c t IH]; simpl; [reflexivity|now rewrite IH].
Qed.

Lemma tree_points_leaf (n : OctreeNode) :
  children n = repeat None 8 -> tree_points n = points n.
Proof.
  intros Hc. rewrite tree_points_eq, Hc. simpl. apply app_nil_r.
Qed.

Lemma placed_inner (n : OctreeNode) (cs : list OctreeNode) :
  children n = map Some cs ->
  (placed n <->
   Forall (fun pa => in_box (bounds n) (fst pa)) (points n) /\ Forall placed cs).
Proof.
  intros Hc. split.
  - intros H. inversion H as [n0 Hp Hch]; subst n0. split; auto.
    apply Forall_forall. intros c Hin. apply Hch. rewrite Hc.
    now apply in_map.
  - intros [Hp Hall]. constructor; auto.
    intros c Hin. rewrite Hc in Hin. apply in_map_iff in Hin as (c' & E & Hin).
    injection E as ->. eapply Forall_forall; eauto.
Qed.

Lemma placed_leaf (n : OctreeNode) :
  children n = repeat None 8 ->
  (placed n <-> Forall (fun pa => in_box (bounds n) (fst pa)) (points n)).
Proof.
  intros Hc. split.
  - intros H. now inversion H.
  - intros Hp. constructor; auto. intros c Hin. rewrite Hc in Hin.
    simpl in Hin. repeat (destruct Hin as [Hin|Hin]; [discriminate|]).
    contradiction.
Qed.

Lemma shaped_init (b : Bounds) (lvl : Z) : shaped (OctreeNode_init capacity b lvl).
Proof. apply shaped_leaf; try reflexivity. unfold len. simpl. lia. Qed.

(** What a recursive call [child.insert(p, attr)] is required to do. *)
Local Abbreviation ins_good ins :=
  (forall c p a c', shaped c -> ins c p a = Ok c' ->
     shaped c' /\ bounds c' = bounds c /\ level c' = level c /\
     Permutation (tree_points c') ((p, a) :: tree_points c) /\
     (placed c -> in_box (bounds c) p -> placed c')).

Lemma insert_child_step ins self p a self' cs :
  children self = map Some cs -> length cs = 8%nat ->
  insert_child ins self p a = Ok self' ->
  exists c c',
    nth_error cs (Z.to_nat (get_octant self p)) = Some c /\
    ins c p a = Ok c' /\
    self' = set_children self
              (map Some (replace_nth cs (Z.to_nat (get_octant self p)) c')).
Proof.
  intros Hc Hlen H. unfold insert_child in H.
  pose proof (get_octant_range self p) as Ho.
  set (o := get_octant self p) in *.
  destruct (list_get_in_range (children self) o) as (slot & Hn & Hg).
  { rewrite Hc. unfold len. rewrite length_map, Hlen. lia. }
  rewrite Hg in H. simpl in H.
  rewrite Hc, nth_error_map in Hn.
  destruct (nth_error cs (Z.to_nat o)) as [c|] eqn:Ec; [|discriminate].
  injection Hn as <-.
  destruct (ins c p a) as [c'|e] eqn:Ei; [|discriminate]. simpl in H.
  rewrite list_set_in_range in H
    by (rewrite Hc; unfold len; rewrite length_map, Hlen; lia).
  simpl in H. injection H as <-.
  exists c, c'. repeat split; auto.
  rewrite Hc, replace_nth_map. reflexivity.
Qed.

Lemma insert_child_good ins self p a self' cs :
  ins_good ins ->
  children self = map Some cs -> length cs = 8%nat -> Forall shaped cs ->
  insert_child ins self p a = Ok self' ->
  exists cs',
    self' = set_children self (map Some cs') /\ length cs' = 8%nat /\
    Forall shaped cs' /\ map bounds cs' = map bounds cs /\
    map level cs' = map level cs /\
    Permutation (flat_map tree_points cs') ((p, a) :: flat_map tree_points cs) /\
    (Forall placed cs -> map bounds cs = octants_of (bounds self) ->
     in_box (bounds self) p -> Forall placed cs').
Proof.
  intros Hins Hc Hlen Hall H.
  destruct (insert_child_step _ _ _ _ _ _ Hc Hlen H) as (c & c' & Hn & Hi & ->).
  assert (Hsc : shaped c) by (eapply Forall_forall; eauto using nth_error_In).
  destruct (Hins _ _ _ _ Hsc Hi) as (Hs' & Hb & Hl & Hperm & Hpl).
  eexists. split; [reflexivity|].
  split; [now rewrite replace_nth_length|].
  split; [now apply Forall_replace_nth|].
  split; [now apply map_replace_nth_same with (c := c)|].
  split; [now apply map_replace_nth_same with (c := c)|].
  split; [now apply flat_map_replace_nth_perm with (c := c)|].
  intros Hplaced Hoct Hbox.
  eapply Forall_replace_nth_at with (P := placed); eauto.
  intros Hpc. apply Hpl; auto.
  destruct (get_octant_selects_octant self p Hbox) as (b & Hb1 & Hb2).
  assert (E : nth_error (map bounds cs) (Z.to_nat (get_octant self p)) = Some (bounds c))
    by (rewrite nth_error_map, Hn; reflexivity).
  rewrite Hoct, Hb1 in E. injection E as <-. exact Hb2.
Qed.

Lemma redistribute_good ins ps : forall self self' cs,
  ins_good ins ->
  children self = map Some cs -> length cs = 8%nat -> Forall shaped cs ->
  redistribute ins self ps = Ok self' ->
  exists cs',
    self' = set_children self (map Some cs') /\ length cs' = 8%nat /\
    Forall shaped cs' /\ map bounds cs' = map bounds cs /\
    map level cs' = map level cs /\
    Permutation (flat_map tree_points cs') (ps ++ flat_map tree_points cs) /\
    (Forall placed cs -> map bounds cs = octants_of (bounds self) ->
     Forall (fun pa => in_box (bounds self) (fst pa)) ps -> Forall placed cs').
Proof.
  induction ps as [|[p a] rest IH]; intros self self' cs Hins Hc Hlen Hall H.
  - simpl in H. injection H as <-. exists cs. repeat split; auto.
    rewrite <- Hc. now destruct self.
  - simpl in H.
    destruct (insert_child ins self p a) as [self1|e] eqn:E1; [|discriminate].
    simpl in H.
    destruct (insert_child_good _ _ _ _ _ _ Hins Hc Hlen Hall E1)
      as (cs1 & -> & Hlen1 & Hall1 & Hb1 & Hl1 & Hp1 & Hpl1).
    destruct (IH (set_children self (map Some cs1)) self' cs1 Hins
                 eq_refl Hlen1 Hall1 H)
      as (cs2 & -> & Hlen2 & Hall2 & Hb2 & Hl2 & Hp2 & Hpl2).
    exists cs2. repeat split; auto; try congruence.
    + rewrite Hp2. simpl.
      rewrite (Permutation_app_head rest Hp1).
      apply Permutation_sym, Permutation_middle.
    + intros Hplaced Hoct Hbox. inversion Hbox as [|x l Hx Hl]; subst.
      apply Hpl2; auto. simpl. congruence.
Qed.

Lemma insert_good (fuel : nat) : ins_good (insert capacity fuel).
Proof.
  induction fuel as [|fuel IH]; intros n p a n' Hn H; [discriminate|].
  rewrite insert_succ in H. cbv zeta in H.
  inversion Hn as [n0 Hc Hlenp Hcap|n0 cs Hc Hlen Hpts Hoct Hlev Hall Hcap];
    subst n0.
  - (* a leaf *)
    simpl in H. rewrite Hc in H. simpl in H.
    destruct (max_points_per_node n <=? len (points n)) eqn:Efull.
    + (* full: subdivide and redistribute *)
      destruct (subdivide_fresh capacity (set_point_count n (point_count n + 1)) Hc)
        as (cs0 & Hsub & Hlen0 & Hcs0).
      rewrite Hsub in H. simpl in H.
      destruct (redistribute _ _ _) as [self2|e] eqn:Er in H; [|discriminate].
      simpl in H.
      assert (Hall0 : Forall shaped cs0).
      { rewrite Hcs0. apply Forall_map, Forall_forall. intros b _.
        apply shaped_init. }
      assert (Hb0 : map bounds cs0 = octants_of (bounds n)).
      { rewrite Hcs0, map_map. simpl. apply map_id. }
      assert (Hl0 : Forall (fun c => level c = level n + 1) cs0).
      { rewrite Hcs0. apply Forall_map, Forall_forall. intros b _. reflexivity. }
      assert (Htp0 : flat_map tree_points cs0 = []).
      { rewrite Hcs0. simpl. destruct (bounds n) as [[[[[? ?] ?] ?] ?] ?].
        reflexivity. }
      assert (Hpl0 : Forall placed cs0).
      { rewrite Hcs0. apply Forall_map, Forall_forall. intros b _.
        apply placed_leaf; [reflexivity|constructor]. }
      match type of Er with redistribute _ ?s _ = _ =>
        destruct (redistribute_good _ _ s self2 cs0 IH eq_refl Hlen0 Hall0 Er)
          as (cs1 & -> & Hlen1 & Hall1 & Hb1 & Hl1 & Hp1 & Hpl1)
      end.
      simpl in H.
      destruct cs1 as [|c1 cs1']; [discriminate|]. simpl in H.
      match type of H with insert_child _ ?s _ _ = _ =>
        destruct (insert_child_good _ s p a n' (c1 :: cs1') IH eq_refl Hlen1 Hall1 H)
          as (cs2 & -> & Hlen2 & Hall2 & Hb2 & Hl2 & Hp2 & Hpl2)
      end.
      split; [|split; [reflexivity|split; [reflexivity|split]]].
      * eapply shaped_inner with (cs := cs2); simpl; auto; try congruence.
        apply Forall_map with (f := level) (P := fun l => l = level n + 1).
        rewrite Hl2, Hl1. now apply Forall_map.
      * rewrite tree_points_inner with (cs := cs2) by reflexivity. simpl.
        rewrite (tree_points_leaf n Hc).
        rewrite Hp2, Hp1, Htp0, app_nil_r. reflexivity.
      * intros Hpn Hbox.
        apply placed_inner with (cs := cs2); [reflexivity|]. simpl. split; [constructor|].
        apply placed_leaf in Hpn; [|exact Hc].
        apply Hpl2; [apply Hpl1; simpl; auto|simpl in *; congruence|exact Hbox].
    + (* room left: append *)
      simpl in H. rewrite Hc in H. simpl in H. injection H as <-.
      split; [|split; [reflexivity|split; [reflexivity|split]]].
      * apply shaped_leaf; simpl; auto.
        rewrite len_app. unfold len at 2. simpl. lia.
      * rewrite !tree_points_leaf by (simpl; auto). simpl.
        apply Permutation_sym, Permutation_cons_append.
      * intros Hpn Hbox. apply placed_leaf in Hpn; [|exact Hc].
        apply placed_leaf; [exact Hc|]. simpl.
        apply Forall_app. split; auto.
  - (* a subdivided node *)
    destruct cs as [|c0 cs']; [discriminate|].
    simpl in H. rewrite Hc in H. simpl in H. rewrite Hc in H. simpl in H.
    destruct (insert_child_good _ (set_point_count n (point_count n + 1))
                p a n' (c0 :: cs') IH Hc Hlen Hall H)
      as (cs2 & -> & Hlen2 & Hall2 & Hb2 & Hl2 & Hp2 & Hpl2).
    split; [|split; [reflexivity|split; [reflexivity|split]]].
    + eapply shaped_inner with (cs := cs2); simpl; auto; try congruence.
      apply Forall_map with (f := level) (P := fun l => l = level n + 1).
      rewrite Hl2. now apply Forall_map.
    + rewrite tree_points_inner with (cs := cs2) by reflexivity. simpl.
      rewrite (tree_points_inner n _ Hc), Hpts, Hp2. reflexivity.
    + intros Hpn Hbox.
      apply (placed_inner _ _ Hc) in Hpn. destruct Hpn as [_ Hpcs].
      apply placed_inner with (cs := cs2); [reflexivity|]. simpl. rewrite Hpts.
      split; [constructor|]. apply Hpl2; auto.
Qed.

End OctreeInvariants.

Section OctreeBuilt.

Import Octree OctreeMore.

Variable capacity : Z.

Local Abbreviation shaped := (OctreeMore.shaped capacity).

Lemma insert_all_good (fuel : nat) ps : forall root root',
  shaped root ->
  insert_all capacity fuel root ps = Ok root' ->
  shaped root' /\ bounds root' = bounds root /\
  Permutation (tree_points root') (ps ++ tree_points root) /\
  (placed root -> Forall (fun pa => in_box (bounds root) (fst pa)) ps ->
   placed root').
Proof.
  induction ps as [|[p a] rest IH]; intros root root' Hr H; simpl in H.
  - injection H as <-. split; [|split; [|split]]; auto.
  - destruct (insert capacity fuel root p a) as [r1|e] eqn:E; [|discriminate].
    simpl in H.
    destruct (insert_good capacity fuel _ _ _ _ Hr E) as (Hs1 & Hb1 & _ & Hp1 & Hpl1).
    destruct (IH _ _ Hs1 H) as (Hs' & Hb' & Hp' & Hpl').
    split; [|split; [|split]]; auto; try congruence.
    + rewrite Hp'. simpl. rewrite (Permutation_app_head rest Hp1).
      apply Permutation_sym, Permutation_middle.
    + intros Hpl Hbox. inversion Hbox as [|x l Hx Hl]; subst.
      apply Hpl'; [now apply Hpl1|]. now rewrite Hb1.
Qed.

Lemma build_loop_good (fuel : nat) (self : LidarProcessor) ips :
  forall root root',
    shaped root ->
    build_loop capacity fuel self root ips = Ok root' ->
    shaped root' /\ bounds root' = bounds root /\
    Permutation (map fst (tree_points root'))
                (map snd ips ++ map fst (tree_points root)) /\
    (placed root -> Forall (fun ip => in_box (bounds root) (snd ip)) ips ->
     placed root').
Proof.
  induction ips as [|[i p] rest IH]; intros root root' Hr H; simpl in H.
  - injection H as <-. split; [|split; [|split]]; auto.
  - destruct (attributes_of self i) as [a|]; [|discriminate]. simpl in H.
    destruct (insert capacity fuel root p a) as [r1|] eqn:E; [|discriminate].
    simpl in H.
    destruct (insert_good capacity fuel _ _ _ _ Hr E) as (Hs1 & Hb1 & _ & Hp1 & Hpl1).
    destruct (IH _ _ Hs1 H) as (Hs' & Hb' & Hp' & Hpl').
    split; [|split; [|split]]; auto; try congruence.
    + rewrite Hp'. simpl.
      rewrite (Permutation_app_head (map snd rest)
                 (Permutation_map fst Hp1)).
      simpl. apply Permutation_sym, Permutation_middle.
    + intros Hpl Hbox. inversion Hbox as [|x l Hx Hl]; subst.
      apply Hpl'; [now apply Hpl1|]. now rewrite Hb1.
Qed.

Lemma shaped_in_tree (m n : OctreeNode) :
  in_tree m n -> shaped n -> shaped m.
Proof.
  induction 1 as [|n c Hin Hmc IH]; intros Hn; auto.
  apply IH.
  inversion Hn as [n0 Hc _ _|n0 cs Hc _ _ _ _ Hall _]; subst n0.
  - rewrite Hc in Hin. simpl in Hin.
    repeat (destruct Hin as [Hin|Hin]; [discriminate|]). contradiction.
  - rewrite Hc in Hin. apply in_map_iff in Hin as (c' & Heq & Hin').
    injection Heq as ->. eapply Forall_forall; eauto.
Qed.

Lemma placed_in_tree (m n : OctreeNode) :
  in_tree m n -> placed n -> placed m.
Proof.
  induction 1 as [|n c Hin Hmc IH]; intros Hn; auto.
  apply IH. inversion Hn as [n0 _ Hch]; subst n0. now apply Hch.
Qed.

(** The box given to the root by [build_octree] contains every return. *)
Lemma bounding_box_contains (pts : list Point3)
    (min_x max_x min_y max_y min_z max_z : Q) :
  min_of (map px pts) = Ok min_x -> max_of (map px pts) = Ok max_x ->
  min_of (map py pts) = Ok min_y -> max_of (map py pts) = Ok max_y ->
  min_of (map pz pts) = Ok min_z -> max_of (map pz pts) = Ok max_z ->
  Forall (in_box (min_x, max_x, min_y, max_y, min_z, max_z)) pts.
Proof.
  intros H1 H2 H3 H4 H5 H6.
  apply min_of_spec in H1 as [_ H1]. apply max_of_spec in H2 as [_ H2].
  apply min_of_spec in H3 as [_ H3]. apply max_of_spec in H4 as [_ H4].
  apply min_of_spec in H5 as [_ H5]. apply max_of_spec in H6 as [_ H6].
  rewrite Forall_map in H1, H2, H3, H4, H5, H6.
  rewrite Forall_forall in *.
  intros [[x y] z] Hin.
  specialize (H1 _ Hin). specialize (H2 _ Hin). specialize (H3 _ Hin).
  specialize (H4 _ Hin). specialize (H5 _ Hin). specialize (H6 _ Hin).
  unfold px, py, pz in *. simpl in *. tauto.
Qed.

Lemma build_octree_good (fuel : nat) (self : LidarProcessor) (max_level : Z)
    (root : OctreeNode) :
  build_octree capacity fuel self max_level = Ok root ->
  shaped root /\
  Forall (in_box (bounds root)) (lp_points self) /\
  Permutation (map fst (tree_points root)) (lp_points self) /\
  placed root.
Proof.
  unfold build_octree. intros H.
  destruct (min_of (map px _)) as [min_x|] eqn:E1; [|discriminate].
  destruct (min_of (map py _)) as [min_y|] eqn:E2; [|discriminate].
  destruct (min_of (map pz _)) as [min_z|] eqn:E3; [|discriminate].
  destruct (max_of (map px _)) as [max_x|] eqn:E4; [|discriminate].
  destruct (max_of (map py _)) as [max_y|] eqn:E5; [|discriminate].
  destruct (max_of (map pz _)) as [max_z|] eqn:E6; [|discriminate].
  simpl in H.
  pose proof (bounding_box_contains _ _ _ _ _ _ _ E1 E4 E2 E5 E3 E6) as Hbox.
  destruct (build_loop_good fuel self _ _ _ (shaped_init capacity _ 0) H)
    as (Hs & Hb & Hp & Hpl).
  rewrite enumerate_snd in Hp. simpl in Hp. rewrite app_nil_r in Hp.
  simpl in Hb. rewrite Hb.
  split; [|split; [|split]]; auto.
  apply Hpl.
  - apply placed_leaf; [reflexivity|constructor].
  - apply Forall_forall. intros [i q] Hin.
    apply enumerate_spec in Hin as [_ Hin]. simpl.
    eapply Forall_forall in Hbox; eauto.
Qed.

(** X2. The tree returned by [build_octree] stores every return of the
    cloud exactly once: the points held by its nodes are a permutation
    of the points of the file. *)
Theorem build_octree_keeps_every_point (fuel : nat) (self : LidarProcessor)
    (max_level : Z) (root : OctreeNode) :
  build_octree capacity fuel self max_level = Ok root ->
  Permutation (map fst (tree_points root)) (lp_points self).
Proof. intros H. now apply build_octree_good in H. Qed.

(** X3. In a tree built by calls to [insert] on a new root, every node
    is either a leaf whose buffer holds at most [max_points_per_node]
    points (none if that bound is negative), or a subdivided node with an
    empty buffer and eight children one level further down whose boxes
    are the eight octants of its own box. *)
Theorem insert_keeps_node_shape (fuel : nat) (b : Bounds)
    (ps : list (Point3 * Attributes)) (root m : OctreeNode) :
  insert_all capacity fuel (OctreeNode_init capacity b 0) ps = Ok root ->
  in_tree m root -> shaped m.
Proof.
  intros H Hm.
  destruct (insert_all_good fuel ps _ _ (shaped_init capacity b 0) H) as (Hs & _).
  eapply shaped_in_tree; eauto.
Qed.

(** X4. In the tree returned by [build_octree], the box of the root
    contains every return of the cloud, and every point held in the
    buffer of a node lies in the box of that node. *)
Theorem build_octree_points_in_node_boxes (fuel : nat) (self : LidarProcessor)
    (max_level : Z) (root : OctreeNode) :
  build_octree capacity fuel self max_level = Ok root ->
  Forall (in_box (bounds root)) (lp_points self) /\
  forall m pa, in_tree m root -> In pa (points m) ->
               in_box (bounds m) (fst pa).
Proof.
  intros H. apply build_octree_good in H as (_ & Hbox & _ & Hpl).
  split; [exact Hbox|].
  intros m pa Hm Hin.
  apply (placed_in_tree _ _ Hm) in Hpl.
  inversion Hpl as [n0 Hp _]; subst n0.
  eapply Forall_forall in Hp; eauto.
Qed.

End OctreeBuilt.

Lemma build_octree_keeps_every_point_witness :
  exists root,
    Octree.build_octree 2 4 OctreeMore.six_returns 10 = Ok root /\
    Octree.subdivided root /\
    Permutation (map fst (OctreeMore.tree_points root))
                (Octree.lp_points OctreeMore.six_returns).
Proof.
  eexists. split; [vm_compute; reflexivity|].
  split; [eexists; eexists; reflexivity|].
  apply (build_octree_keeps_every_point 2 4 OctreeMore.six_returns 10).
  vm_compute. reflexivity.
Defined.

Lemma insert_keeps_node_shape_witness :
  exists root c,
    Octree.insert_all 2 3 (Octree.OctreeNode_init 2 (0, 4, 0, 4, 0, 4)%Q 0)
      Octree.four_points = Ok root /\
    Octree.children root = Some c :: tl (Octree.children root) /\
    OctreeMore.shaped 2 c.
Proof.
  eexists. eexists. split; [vm_compute; reflexivity|].
  split; [reflexivity|].
  eapply (insert_keeps_node_shape 2 3 (0, 4, 0, 4, 0, 4)%Q Octree.four_points).
  - vm_compute. reflexivity.
  - eapply Octree.in_tree_child; [left; reflexivity|apply Octree.in_tree_here].
Defined.

Lemma build_octree_points_in_node_boxes_witness :
  exists root,
    Octree.build_octree 2 4 OctreeMore.six_returns 10 = Ok root /\
    Forall (OctreeMore.in_box (Octree.bounds root))
           (Octree.lp_points OctreeMore.six_returns) /\
    forall m pa, Octree.in_tree m root -> In pa (Octree.points m) ->
                 OctreeMore.in_box (Octree.bounds m) (fst pa).
Proof.
  eexists. split; [vm_compute; reflexivity|].
  apply (build_octree_points_in_node_boxes 2 4 OctreeMore.six_returns 10).
  vm_compute. reflexivity.
Defined.

(** ** Levels of detail and streaming budget *)

Section SliceFacts.

Import Lod.

Context {A : Type}.

Lemma nth_error_every_from (stride : nat) (l : list A) : forall skip i,
  (1 <= stride)%nat ->
  nth_error (every_from stride skip l) i = nth_error l (skip + i * stride).
Proof.
  induction l as [|a t IH]; intros skip i Hs.
  - simpl. destruct i, (skip + _)%nat; reflexivity.
  - destruct skip as [|k]; simpl.
    + destruct i as [|i]; [reflexivity|]. simpl.
      rewrite IH by exact Hs.
      replace (stride + i * stride)%nat with (S (stride - 1 + i * stride)) by lia.
      reflexivity.
    + apply IH. exact Hs.
Qed.

(** [len(l[::s])] is [len(l)] divided by [s], rounded up. *)
Lemma every_from_len (stride : nat) (l : list A) :
  (1 <= stride)%nat ->
  len (every_from stride 0 l) =
  (len l + Z.of_nat stride - 1) / Z.of_nat stride.
Proof.
  intros Hs. unfold len.
  set (r := every_from stride 0 l).
  assert (Hlt : forall i, (i < length r)%nat <-> (i * stride < length l)%nat).
  { intros i. unfold r. rewrite <- !nth_error_Some.
    rewrite nth_error_every_from by exact Hs. reflexivity. }
  assert (Hup : (length l <= length r * stride)%nat).
  { destruct (Nat.le_gt_cases (length l) (length r * stride)) as [H|H]; auto.
    apply Hlt in H. lia. }
  assert (Hlo : length r = 0%nat \/ ((length r - 1) * stride < length l)%nat).
  { destruct (length r) as [|n] eqn:E; [now left|right].
    apply Hlt. lia. }
  apply Z.div_unique with (r := Z.of_nat (length l) + Z.of_nat stride - 1 - Z.of_nat stride * Z.of_nat (length r)).
  - left. nia.
  - lia.
Qed.

End SliceFacts.

Section LodFacts.

Import Octree Lod.

Lemma pow4_pos (k : Z) : 0 <= k -> 0 < 4 ^ k.
Proof. intros Hk. apply Z.pow_pos_nonneg; lia. Qed.

Lemma slice_step_pow4 {A : Type} (l : list A) (k : Z) :
  0 <= k ->
  slice_step l (4 ^ k) = Ok (every_from (Z.to_nat (4 ^ k)) 0 l).
Proof.
  intros Hk. pose proof (pow4_pos k Hk) as Hp. unfold slice_step.
  assert (E0 : (4 ^ k =? 0) = false) by lia.
  assert (E1 : (0 <? 4 ^ k) = true) by lia.
  now rewrite E0, E1.
Qed.

Lemma lod_loop_spec (points : list Point3) (n : nat) : forall (a : Z) acc,
  0 <= a ->
  lod_loop points (map (fun k => a + k) (map Z.of_nat (seq 0 n))) acc =
  Ok (acc ++ map (fun k => every_from (Z.to_nat (4 ^ (a + Z.of_nat k))) 0 points)
                 (seq 0 n)).
Proof.
  induction n as [|n IH]; intros a acc Ha.
  - simpl. now rewrite app_nil_r.
  - simpl seq. simpl map. cbn [lod_loop].
    rewrite Z.add_0_r, slice_step_pow4 by exact Ha. simpl.
    rewrite <- seq_shift, !map_map.
    assert (E : map (fun x => a + Z.of_nat (S x)) (seq 0 n) =
                map (fun k => (a + 1) + k) (map Z.of_nat (seq 0 n))).
    { rewrite map_map. apply map_ext. intros x. lia. }
    rewrite E, IH by lia. rewrite <- app_assoc. simpl. do 3 f_equal.
    apply map_ext. intros x. do 3 f_equal. lia.
Qed.

Lemma generate_lod_levels_eq (self : LidarProcessor) (num_levels : Z) :
  generate_lod_levels self num_levels =
  Ok (lp_points self ::
      map (fun k => every_from (Z.to_nat (4 ^ (1 + Z.of_nat k))) 0 (lp_points self))
          (seq 0 (Z.to_nat (num_levels - 1)))).
Proof.
  unfold generate_lod_levels, range_from, range.
  rewrite lod_loop_spec by lia. reflexivity.
Qed.

(** X5. [generate_lod_levels] returns [max(1, num_levels)] levels; level
    [k] holds the points of indices [0, 4^k, 2 * 4^k, ...] of the cloud,
    so that its size is the size of the cloud divided by [4^k], rounded
    up. *)
Theorem generate_lod_levels_strides (self : LidarProcessor) (num_levels : Z) :
  exists levels,
    generate_lod_levels self num_levels = Ok levels /\
    len levels = Z.max 1 num_levels /\
    forall k : nat, Z.of_nat k < Z.max 1 num_levels ->
      exists lk,
        nth_error levels k = Some lk /\
        len lk = (len (lp_points self) + 4 ^ Z.of_nat k - 1) / 4 ^ Z.of_nat k /\
        forall i : nat,
          nth_error lk i =
          nth_error (lp_points self) (i * Z.to_nat (4 ^ Z.of_nat k)).
Proof.
  eexists. split; [apply generate_lod_levels_eq|]. split.
  - rewrite len_cons. unfold len. rewrite length_map, length_seq. lia.
  - intros k Hk.
    assert (Hstride : forall j : nat, (1 <= Z.to_nat (4 ^ Z.of_nat j))%nat).
    { intros j. pose proof (pow4_pos (Z.of_nat j)). lia. }
    destruct k as [|k].
    + exists (lp_points self). split; [reflexivity|]. split.
      * simpl. rewrite Z.add_simpl_r, Z.div_1_r. reflexivity.
      * intros i. simpl. now rewrite Nat.mul_1_r.
    + eexists. split.
      * cbn [nth_error]. rewrite nth_error_map, nth_error_seq.
        destruct (Nat.ltb_spec k (Z.to_nat (num_levels - 1))) as [_|Hge]; [|lia].
        reflexivity.
      * cbv beta. replace (1 + Z.of_nat (0 + k)) with (Z.of_nat (S k)) by lia.
        split.
        -- rewrite every_from_len by apply Hstride.
           rewrite Z2Nat.id by (pose proof (pow4_pos (Z.of_nat (S k))); lia).
           reflexivity.
        -- intros i. rewrite nth_error_every_from by apply Hstride.
           reflexivity.
Qed.

(** The loop of [estimate_streaming_budget], for a budget that is not
    negative. *)
Lemma budget_loop_spec (ppf total : Z) (n : nat) :
  forall (fuel : nat) (level : Z) (acc : list LodInfo),
    0 <= ppf -> 0 <= level -> 0 <= total ->
    (Z.to_nat (total / 4 ^ level) < fuel)%nat ->
    len acc = level ->
    (n = Z.to_nat (total / 4 ^ level)) ->
    Forall (fun e => ppf < li_point_count e) acc ->
    (forall k : nat, Z.of_nat k < level ->
       nth_error acc k =
       Some (mkLodInfo (Z.of_nat k) (total / 4 ^ Z.of_nat k) (4 ^ Z.of_nat k))) ->
    exists lods,
      budget_loop fuel ppf (total / 4 ^ level) level acc = Ok lods /\
      Forall (fun e => ppf < li_point_count e) lods /\
      total / 4 ^ (len lods) <= ppf /\
      forall k : nat, Z.of_nat k < len lods ->
        nth_error lods k =
        Some (mkLodInfo (Z.of_nat k) (total / 4 ^ Z.of_nat k) (4 ^ Z.of_nat k)).
Proof.
  induction n as [n IH] using lt_wf_ind.
  intros fuel level acc Hppf Hlevel Htot Hfuel Hlen Hn Hall Hnth.
  destruct fuel as [|fuel]; [lia|]. cbn [budget_loop].
  pose proof (pow4_pos level Hlevel) as Hp.
  assert (Hcur : 0 <= total / 4 ^ level) by (apply Z.div_pos; lia).
  assert (Hnext : total / 4 ^ level / 4 = total / 4 ^ (level + 1)).
  { rewrite Z.pow_add_r, Z.pow_1_r by lia. apply Z.div_div; lia. }
  destruct (Z.ltb_spec ppf (total / 4 ^ level)) as [Hgt|Hle].
  - rewrite Hnext.
    assert (Hdec : total / 4 ^ (level + 1) < total / 4 ^ level).
    { rewrite <- Hnext. apply Z.div_lt; lia. }
    assert (Hcur' : 0 <= total / 4 ^ (level + 1)).
    { rewrite <- Hnext. apply Z.div_pos; lia. }
    apply (IH (Z.to_nat (total / 4 ^ (level + 1)))); try lia.
    + rewrite len_app, Hlen. reflexivity.
    + apply Forall_app. split; auto.
    + intros k Hk. destruct (Z.eq_dec (Z.of_nat k) level) as [E|E].
      * rewrite nth_error_app2 by (unfold len in Hlen; lia).
        replace (k - length acc)%nat with 0%nat
          by (unfold len in Hlen; lia).
        simpl. now rewrite E.
      * rewrite nth_error_app1.
        -- apply Hnth. lia.
        -- unfold len in Hlen. lia.
  - exists acc. rewrite Hlen.
    repeat split; auto.
Qed.

(** X6. For a budget [points_per_frame >= 0], [estimate_streaming_budget]
    returns once the loop has been given as many iterations as the cloud
    has points; entry [k] of [lod_info] has level [k], stride [4^k] and
    [total // 4^k] points; every listed level exceeds the budget, and
    [lod_levels_needed] is the first level whose size fits it. *)
Theorem estimate_streaming_budget_levels (self : LidarProcessor)
    (target_fps points_per_frame : Z) (fuel : nat) :
  0 <= points_per_frame ->
  (length (lp_points self) < fuel)%nat ->
  exists b,
    estimate_streaming_budget fuel self target_fps points_per_frame = Ok b /\
    total_points b = len (lp_points self) /\
    lod_levels_needed b = len (lod_info b) /\
    Forall (fun e => points_per_frame < li_point_count e) (lod_info b) /\
    total_points b / 4 ^ lod_levels_needed b <= points_per_frame /\
    forall k : nat, Z.of_nat k < lod_levels_needed b ->
      nth_error (lod_info b) k =
      Some (mkLodInfo (Z.of_nat k) (total_points b / 4 ^ Z.of_nat k)
              (4 ^ Z.of_nat k)).
Proof.
  intros Hppf Hfuel. unfold estimate_streaming_budget.
  set (total := len (lp_points self)).
  assert (Htot : 0 <= total) by apply len_nonneg.
  destruct (budget_loop_spec points_per_frame total (Z.to_nat (total / 4 ^ 0))
              fuel 0 [] Hppf (Z.le_refl 0) Htot) as (lods & Hl & Hall & Hfit & Hnth).
  - simpl. rewrite Z.div_1_r. unfold total, len. lia.
  - reflexivity.
  - reflexivity.
  - constructor.
  - intros k Hk. lia.
  - simpl in Hl. rewrite Z.div_1_r in Hl. rewrite Hl. simpl.
    eexists. split; [reflexivity|]. simpl. repeat split; auto.
Qed.

Lemma budget_loop_negative (ppf : Z) (fuel : nat) : forall current level acc,
  ppf < 0 -> 0 <= current ->
  budget_loop fuel ppf current level acc = Raise Unfinished.
Proof.
  induction fuel as [|fuel IH]; intros current level acc Hp Hc; [reflexivity|].
  cbn [budget_loop].
  destruct (Z.ltb_spec ppf current) as [_|Hle]; [|lia].
  apply IH; auto. apply Z.div_pos; lia.
Qed.

(** X7. With a negative [points_per_frame] the loop of
    [estimate_streaming_budget] never ends: no number of iterations is
    enough for the function to return. *)
Theorem estimate_streaming_budget_negative_budget_diverges
    (self : LidarProcessor) (target_fps points_per_frame : Z) (fuel : nat) :
  points_per_frame < 0 ->
  estimate_streaming_budget fuel self target_fps points_per_frame =
  Raise Unfinished.
Proof.
  intros Hp. unfold estimate_streaming_budget.
  rewrite budget_loop_negative; auto. apply len_nonneg.
Qed.

End LodFacts.

Lemma estimate_streaming_budget_levels_witness :
  exists b,
    Lod.estimate_streaming_budget 40 (Lod.diagonal_cloud 37) 60 2 = Ok b /\
    Lod.total_points b = len (Octree.lp_points (Lod.diagonal_cloud 37)) /\
    Lod.lod_levels_needed b = len (Lod.lod_info b) /\
    Forall (fun e => 2 < Lod.li_point_count e) (Lod.lod_info b) /\
    Lod.total_points b / 4 ^ Lod.lod_levels_needed b <= 2 /\
    forall k : nat, Z.of_nat k < Lod.lod_levels_needed b ->
      nth_error (Lod.lod_info b) k =
      Some (Lod.mkLodInfo (Z.of_nat k) (Lod.total_points b / 4 ^ Z.of_nat k)
              (4 ^ Z.of_nat k)).
Proof.
  apply (estimate_streaming_budget_levels (Lod.diagonal_cloud 37) 60 2 40).
  - lia.
  - vm_compute. lia.
Defined.

Lemma estimate_streaming_budget_negative_budget_diverges_witness :
  Lod.estimate_streaming_budget 1000 (Lod.diagonal_cloud 5) 60 (-1) =
  Raise Unfinished.
Proof.
  apply (estimate_streaming_budget_negative_budget_diverges
           (Lod.diagonal_cloud 5) 60 (-1) 1000).
  lia.
Defined.

(** ** Endpoints over the cloud *)

Section EndpointFacts.

Import Octree Sampling Lod.

(** X8. [get_octree_level] on a readable file: for a level that is not
    negative the response holds every [4^level]-th point, cut to the
    first 100000, so that [point_count] is the smaller of 100000 and the
    size of the cloud divided by [4^level], rounded up; a negative level
    makes [4 ** level] a float, the slice raises, and the answer is the
    status 500. *)
Theorem get_octree_level_point_count (processor : LidarProcessor) (level : Z) :
  exists r,
    get_octree_level (Some (Ok processor)) level = Ok r /\
    (level < 0 -> r = HTTPException 500) /\
    (0 <= level ->
     exists b,
       r = Response b /\
       lb_stride b = 4 ^ level /\
       lb_point_count b = len (lb_points b) /\
       lb_point_count b =
       Z.min 100000 ((len (lp_points processor) + 4 ^ level - 1) / 4 ^ level) /\
       forall i : nat, Z.of_nat i < lb_point_count b ->
         nth_error (lb_points b) i =
         nth_error (lp_points processor) (i * Z.to_nat (4 ^ level))).
Proof.
  unfold get_octree_level, pow4. cbn [lift and_then].
  destruct (Z.leb_spec 0 level) as [Hl|Hl].
  - rewrite slice_step_pow4 by exact Hl. cbn [lift and_then except_500]. cbv zeta.
    eexists. split; [reflexivity|]. split; [lia|]. intros _.
    eexists. split; [reflexivity|].
    cbn [lb_stride lb_point_count lb_points].
    pose proof (pow4_pos level Hl) as Hp.
    assert (Hs : (1 <= Z.to_nat (4 ^ level))%nat) by lia.
    pose proof (every_from_len (Z.to_nat (4 ^ level)) (lp_points processor) Hs) as Hlen.
    rewrite Z2Nat.id in Hlen by lia.
    set (pts := every_from (Z.to_nat (4 ^ level)) 0 (lp_points processor)) in *.
    split; [reflexivity|]. split; [reflexivity|].
    destruct (Z.ltb_spec 100000 (len pts)) as [Hbig|Hsmall].
    + split.
      * unfold len in *. rewrite length_firstn. lia.
      * intros i Hi. unfold len in Hi. rewrite length_firstn in Hi.
        rewrite nth_error_firstn.
        destruct (Nat.ltb_spec i (Z.to_nat 100000)) as [_|Hge]; [|lia].
        unfold pts. now rewrite nth_error_every_from.
    + split; [lia|].
      intros i _. unfold pts. now rewrite nth_error_every_from.
  - eexists. split; [reflexivity|]. split; [reflexivity|lia].
Qed.

Lemma except_500_not_404 {A : Type} (body : outcome A) :
  except_500 body <> Ok (HTTPException 404).
Proof.
  destruct body as [a|[[| | | | |]| | |s]]; simpl; discriminate.
Qed.

(** X9. Once the database row exists, [stream_tile_points] never answers
    with the status 404: the [HTTPException] that its body raises for a
    [tile_id] beyond the last tile is caught by the handler of the same
    [try] block, and the answer is the status 500. *)
Theorem stream_tile_points_never_404 (fuel : nat)
    (processor : result LidarProcessor) (tile_id lod : Z) :
  stream_tile_points fuel (Some processor) tile_id lod <> Ok (HTTPException 404) /\
  forall p tiles,
    processor = Ok p -> Tiles.generate_tiles fuel p 100 = Ok tiles ->
    len tiles <= tile_id ->
    stream_tile_points fuel (Some processor) tile_id lod = Ok (HTTPException 500).
Proof.
  split; [apply except_500_not_404|].
  intros p tiles -> Ht Hid. unfold stream_tile_points. simpl. rewrite Ht. simpl.
  destruct (Z.leb_spec (len tiles) tile_id) as [_|Hlt]; [reflexivity|lia].
Qed.

(** X10. A negative [tile_id] is not refused by [stream_tile_points]: it
    passes the test [tile_id >= len(tiles)] and indexes the list of tiles
    from its end, so that the tile [len(tiles) + tile_id] is served. *)
Theorem stream_tile_points_negative_id_wraps (fuel : nat) (p : LidarProcessor)
    (tiles : list Tiles.Tile) (tile_id lod : Z) :
  Tiles.generate_tiles fuel p 100 = Ok tiles ->
  - len tiles <= tile_id < 0 -> 0 <= lod ->
  exists tile,
    nth_error tiles (Z.to_nat (len tiles + tile_id)) = Some tile /\
    stream_tile_points fuel (Some (Ok p)) tile_id lod =
    Ok (Response
          (let pts := every_from (Z.to_nat (4 ^ lod)) 0 (Tiles.tile_points tile) in
           mkTileBody tile_id lod (len pts) pts)).
Proof.
  intros Ht Hid Hlod. unfold stream_tile_points. simpl. rewrite Ht. simpl.
  destruct (Z.leb_spec (len tiles) tile_id) as [Hge|_];
    [pose proof (len_nonneg tiles); lia|].
  destruct (list_get_in_range tiles (len tiles + tile_id)) as (tile & Hn & Hg);
    [lia|].
  exists tile. split; [exact Hn|].
  assert (Hget : list_get tiles tile_id = Ok tile).
  { unfold list_get, norm_index in *.
    assert (E : (tile_id <? 0) = true) by lia. rewrite E.
    assert (E' : (len tiles + tile_id <? 0) = false) by lia.
    rewrite E' in Hg. rewrite Z.add_comm. exact Hg. }
  rewrite Hget. simpl. unfold pow4.
  destruct (Z.leb_spec 0 lod) as [_|Hneg]; [|lia].
  rewrite slice_step_pow4 by exact Hlod. reflexivity.
Qed.

(** X11. On a cloud without points every reduction [min]/[max] over the
    coordinates raises [ValueError]: [build_octree], [generate_tiles],
    [generate_dsm] and [_extract_ground_simple] raise it, and the tile
    endpoint answers with the status 500. *)
Theorem empty_cloud_raises_value_error (capacity : Z) (fuel : nat)
    (intensity : option (list Q)) (classification : option (list Z))
    (colors : option (list (list Z))) (max_level : Z) (size : Q) :
  build_octree capacity fuel
    (mkLidarProcessor [] intensity classification colors) max_level =
  Raise ValueError /\
  Tiles.generate_tiles fuel
    (mkLidarProcessor [] intensity classification colors) size =
  Raise ValueError /\
  Raster.generate_dsm
    (mkLidarProcessor [] intensity classification colors) size =
  Raise ValueError /\
  Raster._extract_ground_simple fuel
    (mkLidarProcessor [] intensity classification colors) size =
  Raise ValueError /\
  get_spatial_tiles fuel
    (Some (Ok (mkLidarProcessor [] intensity classification colors))) size =
  Ok (HTTPException 500).
Proof. repeat split. Qed.

End EndpointFacts.

Lemma stream_tile_points_negative_id_wraps_witness :
  exists tile,
    nth_error [Tiles.mkTile (0, 100, 0, 100)%Q 1 [(0, 0, 0)%Q] (100 # 2, 100 # 2)%Q]
      (Z.to_nat (1 + -1)) = Some tile /\
    Lod.stream_tile_points 3 (Some (Ok Tiles.square_cloud)) (-1) 0 =
    Ok (Sampling.Response
          (let pts := Lod.every_from (Z.to_nat (4 ^ 0)) 0 (Tiles.tile_points tile) in
           Lod.mkTileBody (-1) 0 (len pts) pts)).
Proof.
  apply (stream_tile_points_negative_id_wraps 3 Tiles.square_cloud
           [Tiles.mkTile (0, 100, 0, 100)%Q 1 [(0, 0, 0)%Q] (100 # 2, 100 # 2)%Q] (-1) 0).
  - vm_compute. reflexivity.
  - unfold len. simpl. lia.
  - lia.
Defined.

Section ToDict.

Import Octree OctreeMore.

(** X12. [to_dict] on a node of a tree built by [insert] returns a
    dictionary: [has_children] is true exactly when [children_ids] lists
    the eight slots, and [children_ids] is empty otherwise. *)
Theorem to_dict_children_all_or_none (capacity : Z) (n : OctreeNode) :
  shaped capacity n ->
  exists d,
    to_dict n = Ok d /\
    nd_bounds d = bounds n /\ nd_level d = level n /\
    nd_point_count d = point_count n /\
    ((nd_has_children d = true /\ nd_children_ids d = range 8) \/
     (nd_has_children d = false /\ nd_children_ids d = [])).
Proof.
  intros Hn.
  inversion Hn as [n0 Hc Hlenp Hcap|n0 cs Hc Hlen Hpts Hoct Hlev Hall Hcap];
    subst n0.
  - unfold to_dict. rewrite Hc. eexists. split; [reflexivity|].
    simpl. repeat split. right. split; reflexivity.
  - do 8 (destruct cs as [|? cs]; [discriminate|]).
    destruct cs; [|discriminate].
    unfold to_dict. rewrite Hc. eexists. split; [reflexivity|].
    simpl. repeat split. left. split; reflexivity.
Qed.

End ToDict.

Lemma to_dict_children_all_or_none_witness :
  exists d,
    OctreeMore.to_dict (Octree.OctreeNode_init 2 (0, 4, 0, 4, 0, 4)%Q 0) = Ok d /\
    OctreeMore.nd_bounds d = (0, 4, 0, 4, 0, 4)%Q /\
    OctreeMore.nd_level d = 0 /\
    OctreeMore.nd_point_count d = 0 /\
    ((OctreeMore.nd_has_children d = true /\
      OctreeMore.nd_children_ids d = range 8) \/
     (OctreeMore.nd_has_children d = false /\
      OctreeMore.nd_children_ids d = [])).
Proof.
  apply (to_dict_children_all_or_none 2
           (Octree.OctreeNode_init 2 (0, 4, 0, 4, 0, 4)%Q 0)).
  apply OctreeMore.shaped_leaf; [reflexivity|vm_compute; discriminate|reflexivity].
Defined.

(** ** Tiles of [generate_tiles] *)

Section FloatComparisons.

Lemma Qltb_true (a b : Q) : Qltb a b = true <-> (a < b)%Q.
Proof.
  unfold Qltb. rewrite negb_true_iff. split.
  - intros H. apply Qnot_le_lt. rewrite <- Qle_bool_iff. congruence.
  - intros H. apply not_true_is_false. rewrite Qle_bool_iff.
    now apply Qlt_not_le.
Qed.

Lemma Qltb_false (a b : Q) : Qltb a b = false <-> (b <= a)%Q.
Proof.
  unfold Qltb. rewrite negb_false_iff. apply Qle_bool_iff.
Qed.

Lemma Qgeb_true (a b : Q) : Qgeb a b = true <-> (b <= a)%Q.
Proof. apply Qle_bool_iff. Qed.

Lemma Qgtb_true (a b : Q) : Qgtb a b = true <-> (b < a)%Q.
Proof.
  unfold Qgtb. rewrite negb_true_iff. split.
  - intros H. apply Qnot_le_lt. rewrite <- Qle_bool_iff. congruence.
  - intros H. apply not_true_is_false. rewrite Qle_bool_iff.
    now apply Qlt_not_le.
Qed.

End FloatComparisons.

Section TilesFacts.

Import Octree Tiles TilesMore.

Variable pts : list Point3.
Variable tile_size : Q.

Lemma tiles_along_y_sound (fuel : nat) : forall x max_y y tiles tiles',
  Forall (tile_of pts tile_size) tiles ->
  tiles_along_y fuel pts tile_size x max_y y tiles = Ok tiles' ->
  Forall (tile_of pts tile_size) tiles'.
Proof.
  induction fuel as [|fuel IH]; intros x max_y y tiles tiles' Hall H;
    [discriminate|].
  cbn [tiles_along_y] in H.
  destruct (Qltb y max_y); [|now injection H as <-].
  apply IH in H; auto.
  destruct (Z.ltb_spec 0 (len (filter (in_tile x y tile_size) pts))) as [Hpos|_];
    [|exact Hall].
  apply Forall_app. split; [exact Hall|]. constructor; [|constructor].
  exists x, y. simpl. repeat split; auto.
Qed.

Lemma tiles_along_x_sound (fuel : nat) : forall max_x min_y max_y x tiles tiles',
  Forall (tile_of pts tile_size) tiles ->
  tiles_along_x fuel pts tile_size max_x min_y max_y x tiles = Ok tiles' ->
  Forall (tile_of pts tile_size) tiles'.
Proof.
  induction fuel as [|fuel IH]; intros max_x min_y max_y x tiles tiles' Hall H;
    [discriminate|].
  cbn [tiles_along_x] in H.
  destruct (Qltb x max_x); [|now injection H as <-].
  destruct (tiles_along_y (S fuel) pts tile_size x max_y min_y tiles)
    as [t1|e] eqn:E; [|discriminate].
  simpl in H. apply tiles_along_y_sound in E; auto.
  eapply IH; eauto.
Qed.

Lemma tile_of_members (t : Tile) (p : Point3) :
  tile_of pts tile_size t ->
  (In p (tile_points t) <-> In p pts /\ in_bounds (tile_bounds t) p).
Proof.
  intros (x & y & Hb & Hp & _). rewrite Hb, Hp, filter_In.
  unfold in_bounds, in_tile.
  rewrite !andb_true_iff, !Qgeb_true, !Qltb_true. tauto.
Qed.

Lemma tiles_along_y_unfinished (fuel : nat) : forall x max_y y tiles e,
  tiles_along_y fuel pts tile_size x max_y y tiles = Raise e -> e = Unfinished.
Proof.
  induction fuel as [|fuel IH]; intros x max_y y tiles e H.
  - now injection H as <-.
  - cbn [tiles_along_y] in H. destruct (Qltb y max_y); [|discriminate].
    eapply IH; eauto.
Qed.

Lemma tiles_along_x_diverges (fuel : nat) : forall max_x min_y max_y x tiles,
  (tile_size <= 0)%Q -> (x < max_x)%Q ->
  tiles_along_x fuel pts tile_size max_x min_y max_y x tiles = Raise Unfinished.
Proof.
  induction fuel as [|fuel IH]; intros max_x min_y max_y x tiles Hs Hx;
    [reflexivity|].
  cbn [tiles_along_x].
  apply Qltb_true in Hx as Hx'. rewrite Hx'.
  destruct (tiles_along_y (S fuel) pts tile_size x max_y min_y tiles)
    as [t1|e] eqn:E.
  - simpl. apply IH; auto. lra.
  - simpl. apply tiles_along_y_unfinished in E. now subst e.
Qed.

End TilesFacts.

Section TilesTheorems.

Import Octree Tiles TilesMore.

(** X13. Every tile returned by [generate_tiles] is a square of side
    [tile_size] that holds at least one point; its [point_count] is the
    number of its points, and its points are exactly the points of the
    cloud inside its half-open bounds. *)
Theorem generate_tiles_tiles_hold_their_points (fuel : nat)
    (self : LidarProcessor) (tile_size : Q) (tiles : list Tile) (t : Tile) :
  generate_tiles fuel self tile_size = Ok tiles -> In t tiles ->
  tile_of (lp_points self) tile_size t /\
  forall p, In p (tile_points t) <->
            In p (lp_points self) /\ in_bounds (tile_bounds t) p.
Proof.
  unfold generate_tiles. intros H Hin.
  destruct (min_of (map px _)) as [min_x|]; [|discriminate].
  destruct (min_of (map py _)) as [min_y|]; [|discriminate].
  destruct (max_of (map px _)) as [max_x|]; [|discriminate].
  destruct (max_of (map py _)) as [max_y|]; [|discriminate].
  simpl in H.
  apply (tiles_along_x_sound (lp_points self) tile_size) in H; [|constructor].
  assert (Ht : tile_of (lp_points self) tile_size t)
    by (eapply Forall_forall; eauto).
  split; [exact Ht|]. intros p.
  apply (tile_of_members (lp_points self) tile_size). exact Ht.
Qed.

Lemma extent_of_nonempty (l : list Q) :
  l <> [] -> exists lo hi, min_of l = Ok lo /\ max_of l = Ok hi.
Proof. destruct l as [|a t]; [congruence|]. simpl. eauto. Qed.

(** X15. With a [tile_size] that is zero or negative and a cloud that
    extends along [x], the outer loop of [generate_tiles] never ends: no
    number of iterations is enough for the function to return. *)
Theorem generate_tiles_nonpositive_size_diverges (self : LidarProcessor)
    (tile_size : Q) (p q : Point3) (fuel : nat) :
  (tile_size <= 0)%Q ->
  In p (lp_points self) -> In q (lp_points self) -> (px p < px q)%Q ->
  generate_tiles fuel self tile_size = Raise Unfinished.
Proof.
  intros Hs Hp Hq Hlt. unfold generate_tiles.
  destruct (extent_of_nonempty (map px (lp_points self)))
    as (min_x & max_x & Emin & Emax).
  { destruct (lp_points self); [contradiction|discriminate]. }
  destruct (extent_of_nonempty (map py (lp_points self))) as (min_y & max_y & -> & ->).
  { destruct (lp_points self); [contradiction|discriminate]. }
  rewrite Emin, Emax. simpl.
  apply tiles_along_x_diverges; auto.
  apply min_of_spec in Emin as [_ Hmin]. apply max_of_spec in Emax as [_ Hmax].
  rewrite Forall_map, Forall_forall in Hmin, Hmax.
  specialize (Hmin _ Hp). specialize (Hmax _ Hq). lra.
Qed.

(** X16. A cloud whose points all have the same [x] (a single return, a
    vertical scan line) has [min_x = max_x]: the outer loop of
    [generate_tiles] is not entered and no tile is returned, whatever the
    tile size. *)
Theorem generate_tiles_flat_extent_no_tiles (fuel : nat) (self : LidarProcessor)
    (tile_size : Q) (p : Point3) :
  In p (lp_points self) ->
  Forall (fun q => px q == px p)%Q (lp_points self) ->
  generate_tiles (S fuel) self tile_size = Ok [].
Proof.
  intros Hp Hall. unfold generate_tiles.
  destruct (extent_of_nonempty (map px (lp_points self)))
    as (min_x & max_x & Emin & Emax).
  { destruct (lp_points self); [contradiction|discriminate]. }
  destruct (extent_of_nonempty (map py (lp_points self))) as (min_y & max_y & -> & ->).
  { destruct (lp_points self); [contradiction|discriminate]. }
  rewrite Emin, Emax. simpl.
  apply min_of_spec in Emin as [Hmin _]. apply max_of_spec in Emax as [Hmax _].
  apply in_map_iff in Hmin as (a & <- & Ha). apply in_map_iff in Hmax as (b & <- & Hb).
  rewrite Forall_forall in Hall.
  pose proof (Hall _ Ha) as Ea. pose proof (Hall _ Hb) as Eb.
  assert (E : Qltb (px a) (px b) = false) by (apply Qltb_false; lra).
  now rewrite E.
Qed.

End TilesTheorems.

Lemma generate_tiles_tiles_hold_their_points_witness :
  exists t,
    Tiles.generate_tiles 3 Tiles.square_cloud 100 = Ok [t] /\
    TilesMore.tile_of (Octree.lp_points Tiles.square_cloud) 100 t /\
    forall p, In p (Tiles.tile_points t) <->
              In p (Octree.lp_points Tiles.square_cloud) /\
              TilesMore.in_bounds (Tiles.tile_bounds t) p.
Proof.
  eexists. split; [vm_compute; reflexivity|].
  eapply (generate_tiles_tiles_hold_their_points 3 Tiles.square_cloud 100).
  - vm_compute. reflexivity.
  - left. reflexivity.
Defined.

Lemma generate_tiles_nonpositive_size_diverges_witness :
  Tiles.generate_tiles 1000 Tiles.square_cloud 0 = Raise Unfinished.
Proof.
  apply (generate_tiles_nonpositive_size_diverges Tiles.square_cloud 0
           (0, 0, 0)%Q (100, 100, 7)%Q 1000).
  - discriminate.
  - left. reflexivity.
  - right. left. reflexivity.
  - reflexivity.
Defined.

Lemma generate_tiles_flat_extent_no_tiles_witness :
  Tiles.generate_tiles 1 TilesMore.scan_line 100 = Ok [].
Proof.
  apply (generate_tiles_flat_extent_no_tiles 0 TilesMore.scan_line 100
           (5, 0, 1)%Q).
  - left. reflexivity.
  - repeat constructor.
Defined.

(** ** Gap filling *)

Section MeanFacts.

Lemma Qsum_from (l : list Q) : forall a, (fold_left Qplus l a == a + Qsum l)%Q.
Proof.
  unfold Qsum. induction l as [|x t IH]; intros a; simpl.
  - lra.
  - rewrite (IH (a + x)%Q), (IH (0 + x)%Q). lra.
Qed.

Lemma Qsum_cons (x : Q) (l : list Q) : (Qsum (x :: l) == x + Qsum l)%Q.
Proof. unfold Qsum at 1. simpl. rewrite Qsum_from. lra. Qed.

Lemma Qsum_nonneg (l : list Q) :
  Forall (fun x => 0 <= x)%Q l -> (0 <= Qsum l)%Q.
Proof.
  induction 1 as [|x t Hx _ IH].
  - apply Qle_refl.
  - rewrite Qsum_cons. lra.
Qed.

(** The mean of numbers that are not negative is not negative. *)
Lemma Qmean_nonneg (l : list Q) :
  0 < len l -> Forall (fun x => 0 <= x)%Q l -> (0 <= Qmean l)%Q.
Proof.
  intros Hn Hall. pose proof (Qsum_nonneg l Hall) as H.
  assert (Hpos : (0 < inject_Z (len l))%Q).
  { change 0%Q with (inject_Z 0). now rewrite <- Zlt_Qlt. }
  unfold Qmean. apply Qle_shift_div_l; [exact Hpos|]. lra.
Qed.

End MeanFacts.

Section EnumerateFacts.

Context {A : Type}.

Lemma enumerate_In_nth (l : list A) : forall s k a,
  In (k, a) (enumerate s l) ->
  s <= k /\ nth_error l (Z.to_nat (k - s)) = Some a.
Proof.
  induction l as [|h t IH]; intros s k a Hin; simpl in Hin; [contradiction|].
  destruct Hin as [Heq|Hin].
  - injection Heq as <- <-. rewrite Z.sub_diag. split; [lia|reflexivity].
  - apply IH in Hin as [Hk Hn]. split; [lia|].
    replace (Z.to_nat (k - s)) with (S (Z.to_nat (k - (s + 1)))) by lia.
    exact Hn.
Qed.

Lemma In_enumerate (l : list A) (a : A) : forall s,
  In a l -> exists k, In (k, a) (enumerate s l).
Proof.
  induction l as [|h t IH]; intros s Hin; [contradiction|].
  destruct Hin as [->|Hin].
  - exists s. now left.
  - destruct (IH (s + 1) Hin) as (k & Hk). exists k. now right.
Qed.

Lemma enumerate_length (l : list A) : forall s,
  length (enumerate s l) = length l.
Proof. induction l as [|h t IH]; intros s; simpl; auto. Qed.

End EnumerateFacts.

Section FillFacts.

Import Raster.

Lemma valid_values_In (l : list (option Q)) (v : Q) :
  In v (valid_values l) <-> In (Some v) l.
Proof.
  induction l as [|[x|] t IH]; simpl; [tauto| |].
  - rewrite IH. split; intros [H|H]; auto; left; congruence.
  - rewrite IH. split; [auto|]. intros [H|H]; [discriminate|auto].
Qed.

Lemma valid_values_pos (l : list (option Q)) (v : Q) :
  In (Some v) l -> 0 < len (valid_values l).
Proof.
  intros H. apply valid_values_In in H.
  destruct (valid_values l); [contradiction|]. rewrite len_cons.
  pose proof (len_nonneg l0). lia.
Qed.

Lemma valid_values_none (l : list (option Q)) :
  (forall v, ~ In (Some v) l) -> valid_values l = [].
Proof.
  intros H. destruct (valid_values l) as [|v t] eqn:E; [reflexivity|].
  exfalso. apply (H v). apply valid_values_In. rewrite E. now left.
Qed.

Lemma cell_or_cval_In (g : Grid) (j i : Z) (v : Q) :
  cell_or_cval g j i = Some v -> In (Some v) (concat g).
Proof.
  unfold cell_or_cval. destruct (_ && _); [|discriminate].
  destruct (nth_error g _) as [row|] eqn:Er; [|discriminate].
  destruct (nth_error row _) as [x|] eqn:Ei; [|discriminate].
  intros ->. apply in_concat. exists row.
  split; eauto using nth_error_In.
Qed.

Lemma window3_In (g : Grid) (j i : Z) (v : Q) :
  In (Some v) (window3 g j i) -> In (Some v) (concat g).
Proof.
  unfold window3. simpl.
  intros H.
  repeat (destruct H as [H|H]; [now apply cell_or_cval_In in H|]).
  contradiction.
Qed.

Lemma window3_centre (g : Grid) (j i : Z) :
  In (cell_or_cval g j i) (window3 g j i).
Proof. unfold window3. simpl. tauto. Qed.

Lemma generic_filter3_In (g : Grid) (f : list (option Q) -> option Q) x :
  In x (concat (generic_filter3 g f)) -> exists j i, x = f (window3 g j i).
Proof.
  unfold generic_filter3. intros H.
  apply in_concat in H as (row & Hrow & Hx).
  apply in_map_iff in Hrow as ([j r] & <- & _).
  apply in_map_iff in Hx as ([i v] & <- & _).
  simpl. eauto.
Qed.

Lemma generic_filter3_centre (g : Grid) (f : list (option Q) -> option Q)
    (row : list (option Q)) (v : option Q) :
  In row g -> In v row ->
  exists j i, cell_or_cval g j i = v /\
              In (f (window3 g j i)) (concat (generic_filter3 g f)).
Proof.
  intros Hrow Hv.
  destruct (In_enumerate g row 0 Hrow) as (j & Hj).
  destruct (In_enumerate row v 0 Hv) as (i & Hi).
  exists j, i. split.
  - apply enumerate_In_nth in Hj as [Hj0 Hjn].
    apply enumerate_In_nth in Hi as [Hi0 Hin].
    rewrite Z.sub_0_r in Hjn, Hin. unfold cell_or_cval.
    assert (E : (0 <=? j) && (0 <=? i) = true) by lia.
    now rewrite E, Hjn, Hin.
  - unfold generic_filter3. apply in_concat.
    eexists. split.
    + apply in_map_iff. exists (j, row). split; [reflexivity|exact Hj].
    + apply in_map_iff. exists (i, v). split; [reflexivity|exact Hi].
Qed.

Lemma generic_filter3_shape (g : Grid) (f : list (option Q) -> option Q) :
  map (@length _) (generic_filter3 g f) = map (@length _) g.
Proof.
  unfold generic_filter3. rewrite map_map.
  rewrite <- (enumerate_snd g 0) at 2. rewrite map_map.
  apply map_ext. intros [j row]. simpl.
  now rewrite length_map, enumerate_length.
Qed.

Lemma fill_nan_grid_shape (g : Grid) :
  map (@length _) (_fill_nan_grid g) = map (@length _) g.
Proof.
  unfold _fill_nan_grid. cbv zeta. rewrite map_map.
  rewrite <- generic_filter3_shape with (f := fill_nan).
  apply map_ext. intros row. apply length_map.
Qed.

Lemma fill_nan_grid_rectangular (g : Grid) (rows cols : Z) :
  rectangular g rows cols -> rectangular (_fill_nan_grid g) rows cols.
Proof.
  intros [Hr Hc]. pose proof (fill_nan_grid_shape g) as Hs.
  split.
  - unfold len in *. rewrite <- Hr.
    rewrite <- (length_map (@length _) (_fill_nan_grid g)), Hs.
    now rewrite length_map.
  - apply Forall_map with (f := @length _) (P := fun n => Z.of_nat n = cols).
    rewrite Hs. now apply Forall_map.
Qed.

Lemma fill_nan_some (values : list (option Q)) (v : Q) :
  In (Some v) values -> exists m, fill_nan values = Some m.
Proof.
  intros H. unfold fill_nan. apply valid_values_pos in H.
  destruct (Z.ltb_spec 0 (len (valid_values values))); [eauto|lia].
Qed.

Lemma fill_nan_grid_In (g : Grid) (x : option Q) :
  In x (concat (_fill_nan_grid g)) ->
  exists y, In y (concat (generic_filter3 g fill_nan)) /\
            x = if is_nan y then nanmean (generic_filter3 g fill_nan) else y.
Proof.
  unfold _fill_nan_grid. cbv zeta. intros H.
  apply in_concat in H as (row & Hrow & Hx).
  apply in_map_iff in Hrow as (r & <- & Hr).
  apply in_map_iff in Hx as (y & <- & Hy).
  exists y. split; [|reflexivity]. apply in_concat. eauto.
Qed.

Lemma fill_nan_grid_fills_gaps (g : Grid) :
  map (@length _) (_fill_nan_grid g) = map (@length _) g /\
  ((exists v, In (Some v) (concat g)) ->
   forall x, In x (concat (_fill_nan_grid g)) -> is_nan x = false) /\
  ((forall v, ~ In (Some v) (concat g)) ->
   forall x, In x (concat (_fill_nan_grid g)) -> is_nan x = true).
Proof.
  split; [apply fill_nan_grid_shape|]. split.
  - intros (v & Hv) x Hx.
    apply in_concat in Hv as (row & Hrow & Hv).
    destruct (generic_filter3_centre g fill_nan row (Some v) Hrow Hv)
      as (j & i & Hc & Hin).
    destruct (fill_nan_some (window3 g j i) v) as (m & Hm).
    { rewrite <- Hc. apply window3_centre. }
    rewrite Hm in Hin.
    assert (Hmean : exists gm, nanmean (generic_filter3 g fill_nan) = Some gm).
    { unfold nanmean. apply valid_values_pos in Hin.
      destruct (Z.ltb_spec 0 (len (valid_values (concat (generic_filter3 g fill_nan)))));
        [eauto|lia]. }
    destruct Hmean as (gm & Hgm).
    apply fill_nan_grid_In in Hx as (y & _ & ->).
    rewrite Hgm. destruct y; reflexivity.
  - intros Hnone x Hx.
    assert (Hfilled : forall y, In y (concat (generic_filter3 g fill_nan)) -> y = None).
    { intros y Hy. apply generic_filter3_In in Hy as (j & i & ->).
      unfold fill_nan. rewrite valid_values_none; [reflexivity|].
      intros v Hv. apply window3_In in Hv. now apply Hnone in Hv. }
    apply fill_nan_grid_In in Hx as (y & Hy & ->).
    rewrite (Hfilled y Hy). simpl.
    unfold nanmean. rewrite valid_values_none; [reflexivity|].
    intros v Hv. apply Hfilled in Hv. discriminate.
Qed.

(** X17. [_fill_nan_grid] keeps the shape of the grid. If the grid holds
    at least one value, the result holds no NaN; if it holds none, the
    result is NaN everywhere. *)
Theorem fill_nan_grid_fills_every_gap (g : Grid) :
  map (@length _) (_fill_nan_grid g) = map (@length _) g /\
  ((exists v, In (Some v) (concat g)) ->
   forall x, In x (concat (_fill_nan_grid g)) -> is_nan x = false) /\
  ((forall v, ~ In (Some v) (concat g)) ->
   forall x, In x (concat (_fill_nan_grid g)) -> is_nan x = true).
Proof. apply fill_nan_grid_fills_gaps. Qed.

End FillFacts.

(** ** The surface model *)

Section FloatToInt.

Lemma int_of_float_nonneg (q : Q) : (0 <= q)%Q -> int_of_float q = Qfloor q.
Proof.
  destruct q as [n d]. unfold Qle, int_of_float, Qfloor. simpl.
  intros H. apply Z.quot_div_nonneg; lia.
Qed.

Lemma int_div_positive (a b : Q) :
  (0 < b)%Q -> int_div a b = Ok (int_of_float (a / b)).
Proof.
  intros Hb. unfold int_div.
  destruct (Qeq_bool b 0) eqn:E; [|reflexivity].
  apply Qeq_bool_iff in E. rewrite E in Hb. now apply Qlt_irrefl in Hb.
Qed.

(** The column of a coordinate [v] of the extent [[lo, hi]] on a grid of
    step [res] that starts at [lo]. *)
Lemma column_in_range (v lo hi res : Q) :
  (0 < res)%Q -> (lo <= v)%Q -> (v <= hi)%Q ->
  0 <= int_of_float ((v - lo) / res) <= int_of_float ((hi - lo) / res).
Proof.
  intros Hres Hlo Hhi.
  assert (H0 : (0 <= (v - lo) / res)%Q).
  { apply Qle_shift_div_l; [exact Hres|]. lra. }
  assert (H1 : ((v - lo) / res <= (hi - lo) / res)%Q).
  { apply Qle_shift_div_l; [exact Hres|].
    assert (E : ((v - lo) / res * res == v - lo)%Q).
    { field. intros E0. rewrite E0 in Hres. now apply Qlt_irrefl in Hres. }
    rewrite E. lra. }
  rewrite !int_of_float_nonneg by (try exact H0; eapply Qle_trans; eauto).
  split.
  - change 0 with (Qfloor 0). now apply Qfloor_resp_le.
  - now apply Qfloor_resp_le.
Qed.

End FloatToInt.

Lemma In_replace_nth {A : Type} (l : list A) (n : nat) (x y : A) :
  In y (replace_nth l n x) -> y = x \/ In y l.
Proof.
  revert n. induction l as [|h t IH]; intros [|n] H; simpl in *; auto.
  - destruct H as [H|H]; auto.
  - destruct H as [H|H]; auto. apply IH in H. tauto.
Qed.

Section ReplaceFacts.

Context {A : Type}.

Lemma cell_In (g : list (list A)) (r c : Z) (x : A) :
  Raster.cell g r c = Some x -> In x (concat g).
Proof.
  unfold Raster.cell.
  destruct (nth_error g _) as [row|] eqn:Er; [|discriminate].
  intros Hc. apply in_concat. exists row. eauto using nth_error_In.
Qed.

Lemma grid_set_values (g g' : list (list A)) (j i : Z) (v x : A) :
  Raster.grid_set g j i v = Ok g' -> In x (concat g') -> x = v \/ In x (concat g).
Proof.
  unfold Raster.grid_set, list_set.
  destruct (list_get g j) as [row|] eqn:Er; [|discriminate]. simpl.
  destruct (_ || _); [discriminate|]. simpl.
  destruct (_ || _); [discriminate|]. intros [= <-] Hin.
  apply in_concat in Hin as (r & Hr & Hx).
  apply In_replace_nth in Hr as [->|Hr].
  - apply In_replace_nth in Hx as [->|Hx]; [now left|right].
    apply in_concat. exists row. split; [|exact Hx].
    eapply list_get_In; eauto.
  - right. apply in_concat. eauto.
Qed.

End ReplaceFacts.

Section SurfaceModel.

Import Octree Raster.

Variables (min_x min_y resolution : Q) (nx ny : Z).

(** Every return falls in a cell of the grid. *)
Local Abbreviation on_grid pts :=
  (Forall (fun p =>
     exists i j,
       int_div (px p - min_x) resolution = Ok i /\
       int_div (py p - min_y) resolution = Ok j /\
       0 <= i < nx /\ 0 <= j < ny) pts).

Lemma dsm_loop_total (pts : list Point3) : forall dsm,
  on_grid pts -> rectangular dsm ny nx ->
  exists dsm',
    dsm_loop pts min_x min_y resolution nx ny dsm = Ok dsm' /\
    rectangular dsm' ny nx /\
    ((pts <> [] \/ exists v, In (Some v) (concat dsm)) ->
     exists v, In (Some v) (concat dsm')) /\
    (forall v, In (Some v) (concat dsm') ->
       In (Some v) (concat dsm) \/ exists p, In p pts /\ v = pz p).
Proof.
  induction pts as [|p rest IH]; intros dsm Hon Hrect.
  - exists dsm. simpl. split; [reflexivity|]. split; [exact Hrect|].
    split; [intros [H|H]; [congruence|exact H]|auto].
  - inversion Hon as [|p0 l (i & j & Hi & Hj & Hir & Hjr) Hrest]; subst.
    cbn [dsm_loop]. rewrite Hi, Hj. cbn [bind].
    assert (E : (0 <=? i) && (i <? nx) && (0 <=? j) && (j <? ny) = true) by lia.
    rewrite E.
    destruct (cell_in_range dsm ny nx j i Hrect Hjr Hir) as (cur & Hcur).
    rewrite grid_get_cell, Hcur by lia. cbn [bind].
    assert (Hstep : exists dsm1,
      (if is_none cur || Qgt_cell (pz p) cur
       then grid_set dsm j i (Some (pz p)) else @Ok Grid dsm) = Ok dsm1 /\
      rectangular dsm1 ny nx /\
      (exists v, In (Some v) (concat dsm1)) /\
      (forall v, In (Some v) (concat dsm1) ->
         In (Some v) (concat dsm) \/ v = pz p)).
    { destruct (is_none cur || Qgt_cell (pz p) cur) eqn:Eset.
      - destruct (grid_set_in_range dsm ny nx j i (Some (pz p)) Hrect Hjr Hir)
          as (dsm1 & Hset & Hrect1 & Hcell1 & _).
        exists dsm1. split; [exact Hset|]. split; [exact Hrect1|]. split.
        + exists (pz p). eapply cell_In; eauto.
        + intros v Hv. eapply grid_set_values in Hv; [|exact Hset].
          destruct Hv as [Hv|Hv]; [right; congruence|now left].
      - exists dsm. split; [reflexivity|]. split; [exact Hrect|]. split.
        + destruct cur as [c|]; [|discriminate].
          exists c. eapply cell_In; eauto.
        + auto. }
    destruct Hstep as (dsm1 & -> & Hrect1 & Hval1 & Hsub1). cbn [bind].
    destruct (IH dsm1 Hrest Hrect1) as (dsm' & Hloop & Hrect' & Hval' & Hsub').
    exists dsm'. split; [exact Hloop|]. split; [exact Hrect'|]. split.
    + intros _. apply Hval'. now right.
    + intros v Hv. apply Hsub' in Hv as [Hv|(q & Hq & ->)].
      * apply Hsub1 in Hv as [Hv | ->]; [now left|].
        right. exists p. split; [now left|reflexivity].
      * right. exists q. split; [now right|reflexivity].
Qed.

End SurfaceModel.

Section SurfaceModelTheorems.

Import Octree Raster.

Lemma np_full_rectangular {A : Type} (ny nx : Z) (v : A) :
  0 <= ny -> 0 <= nx ->
  exists g, np_full ny nx v = Ok g /\ rectangular g ny nx /\
            forall x, In x (concat g) -> x = v.
Proof.
  intros Hy Hx. unfold np_full.
  assert (E : (ny <? 0) || (nx <? 0) = false) by lia. rewrite E.
  eexists. split; [reflexivity|]. split; [split|].
  - unfold len. rewrite repeat_length. lia.
  - apply Forall_forall. intros row Hrow. apply repeat_spec in Hrow. subst row.
    unfold len. rewrite repeat_length. lia.
  - intros x Hin. apply in_concat in Hin as (row & Hrow & Hin).
    apply repeat_spec in Hrow. subst row. now apply repeat_spec in Hin.
Qed.

(** The steps of [generate_dsm], the divisions being exact: every return
    falls in a cell of the grid, which gap filling then completes. *)
Lemma generate_dsm_steps (self : LidarProcessor) (resolution : Q) :
  (0 < resolution)%Q -> lp_points self <> [] ->
  exists m ny nx,
    generate_dsm self resolution = Ok m /\
    rm_shape m = (ny, nx) /\ 1 <= ny /\ 1 <= nx /\
    rm_resolution m = resolution /\
    rectangular (rm_grid m) ny nx /\
    (forall x, In x (concat (rm_grid m)) -> is_nan x = false).
Proof.
  intros Hres Hne. unfold generate_dsm.
  destruct (extent_of_nonempty (map px (lp_points self)))
    as (min_x & max_x & Eminx & Emaxx).
  { destruct (lp_points self); [congruence|discriminate]. }
  destruct (extent_of_nonempty (map py (lp_points self)))
    as (min_y & max_y & Eminy & Emaxy).
  { destruct (lp_points self); [congruence|discriminate]. }
  rewrite Eminx, Eminy, Emaxx, Emaxy. cbn [bind].
  rewrite !int_div_positive by exact Hres. cbn [bind].
  apply min_of_spec in Eminx as [Hminx_in Hminx].
  apply max_of_spec in Emaxx as [_ Hmaxx].
  apply min_of_spec in Eminy as [Hminy_in Hminy].
  apply max_of_spec in Emaxy as [_ Hmaxy].
  rewrite Forall_map in Hminx, Hmaxx, Hminy, Hmaxy.
  rewrite Forall_forall in Hminx, Hmaxx, Hminy, Hmaxy.
  set (nx0 := int_of_float ((max_x - min_x) / resolution)).
  set (ny0 := int_of_float ((max_y - min_y) / resolution)).
  assert (Hnx0 : 0 <= nx0).
  { apply in_map_iff in Hminx_in as (q & <- & Hq).
    pose proof (column_in_range (px q) (px q) max_x resolution Hres
                  (Qle_refl _) (Hmaxx _ Hq)) as H.
    unfold nx0. lia. }
  assert (Hny0 : 0 <= ny0).
  { apply in_map_iff in Hminy_in as (q & <- & Hq).
    pose proof (column_in_range (py q) (py q) max_y resolution Hres
                  (Qle_refl _) (Hmaxy _ Hq)) as H.
    unfold ny0. lia. }
  destruct (np_full_rectangular (ny0 + 1) (nx0 + 1) (@None Q))
    as (g0 & -> & Hrect0 & Hnone0); [lia|lia|]. cbn [bind].
  destruct (dsm_loop_total min_x min_y resolution (nx0 + 1) (ny0 + 1)
              (lp_points self) g0) as (g1 & -> & Hrect1 & Hval1 & Hsub1).
  { apply Forall_forall. intros p Hp.
    exists (int_of_float ((px p - min_x) / resolution)),
           (int_of_float ((py p - min_y) / resolution)).
    rewrite !int_div_positive by exact Hres.
    split; [reflexivity|]. split; [reflexivity|].
    pose proof (column_in_range (px p) min_x max_x resolution Hres
                  (Hminx _ Hp) (Hmaxx _ Hp)).
    pose proof (column_in_range (py p) min_y max_y resolution Hres
                  (Hminy _ Hp) (Hmaxy _ Hp)).
    unfold nx0, ny0. lia. }
  { exact Hrect0. }
  cbn [bind].
  eexists. exists (ny0 + 1), (nx0 + 1). split; [reflexivity|].
  cbn [rm_shape rm_resolution rm_grid].
  split; [reflexivity|]. split; [lia|]. split; [lia|]. split; [reflexivity|].
  split; [now apply fill_nan_grid_rectangular|].
  apply (proj1 (proj2 (fill_nan_grid_fills_gaps g1))).
  apply Hval1. now left.
Qed.

(** X19. A model that [generate_dsm] returns for a positive resolution
    has the shape it announces, with at least one cell in each
    direction, carries the resolution asked for, and holds no NaN. *)
Theorem generate_dsm_returns_gap_free_grid (self : LidarProcessor)
    (resolution : Q) (m : RasterModel) :
  (0 < resolution)%Q -> generate_dsm self resolution = Ok m ->
  exists ny nx,
    rm_shape m = (ny, nx) /\ 1 <= ny /\ 1 <= nx /\
    rm_resolution m = resolution /\
    rectangular (rm_grid m) ny nx /\
    (forall x, In x (concat (rm_grid m)) -> is_nan x = false).
Proof.
  intros Hres Hm.
  assert (Hne : lp_points self <> []).
  { intros E. unfold generate_dsm in Hm. rewrite E in Hm. discriminate. }
  destruct (generate_dsm_steps self resolution Hres Hne)
    as (m' & ny & nx & Hm' & H).
  rewrite Hm in Hm'. injection Hm' as <-. eauto.
Qed.

Lemma int_div_zero (a : Q) :
  int_div a 0 = Raise ValueError \/ int_div a 0 = Raise OverflowError.
Proof. unfold int_div. simpl. destruct (Qeq_bool a 0); auto. Qed.

(** X20. With a resolution of zero [generate_dsm] never returns a model:
    the division by zero gives an infinity or a NaN that [int] refuses,
    and on an empty cloud the reductions raise first. *)
Theorem generate_dsm_zero_resolution_raises (self : LidarProcessor) :
  generate_dsm self 0 = Raise ValueError \/
  generate_dsm self 0 = Raise OverflowError.
Proof.
  unfold generate_dsm.
  destruct (lp_points self) as [|p t]; [left; reflexivity|].
  cbn [map min_of max_of bind].
  match goal with
  | |- context [int_div ?a 0] => destruct (int_div_zero a) as [-> | ->]
  end; auto.
Qed.

Lemma select_none {A : Type} (a : list A) (mask : list bool) :
  Forall (fun b => b = false) mask -> select a mask = [].
Proof.
  intros H. revert a. induction H as [|b t -> _ IH]; intros [|x a]; simpl; auto.
Qed.

(** X21. On a file that carries a classification without any point of
    class 2 (ground), [generate_dtm] raises [ValueError]: the ground
    cloud is empty and its extent cannot be computed. *)
Theorem generate_dtm_without_ground_class_raises (fuel : nat)
    (self : LidarProcessor) (classification : list Z) (resolution : Q) :
  lp_classification self = Some classification ->
  len classification = len (lp_points self) ->
  Forall (fun c => c <> 2) classification ->
  generate_dtm fuel self resolution = Raise ValueError.
Proof.
  intros Hc Hlen Hall. unfold generate_dtm, extract_ground_points, bool_index.
  rewrite Hc. unfold len in *. rewrite length_map.
  assert (E : (Z.of_nat (length (lp_points self)) =?
               Z.of_nat (length classification)) = true) by lia.
  rewrite E, select_none; [reflexivity|].
  apply Forall_map. eapply Forall_impl; [|exact Hall].
  intros c Hne. cbv beta in Hne. simpl. lia.
Qed.

End SurfaceModelTheorems.

Lemma generate_dsm_returns_gap_free_grid_witness :
  exists m,
    Raster.generate_dsm Raster.mast_cloud 1 = Ok m /\
    exists ny nx,
      Raster.rm_shape m = (ny, nx) /\ 1 <= ny /\ 1 <= nx /\
      Raster.rm_resolution m = 1%Q /\
      Raster.rectangular (Raster.rm_grid m) ny nx /\
      (forall x, In x (concat (Raster.rm_grid m)) -> Raster.is_nan x = false).
Proof.
  eexists. split; [vm_compute; reflexivity|].
  apply (generate_dsm_returns_gap_free_grid Raster.mast_cloud 1).
  - reflexivity.
  - vm_compute. reflexivity.
Defined.

Lemma generate_dtm_without_ground_class_raises_witness :
  Raster.generate_dtm 0
    (Octree.mkLidarProcessor [(0, 0, 0)%Q; (1, 1, 4)%Q] None (Some [6; 5]) None)
    1 = Raise ValueError.
Proof.
  apply (generate_dtm_without_ground_class_raises 0
           (Octree.mkLidarProcessor [(0, 0, 0)%Q; (1, 1, 4)%Q] None
              (Some [6; 5]) None) [6; 5] 1).
  - reflexivity.
  - reflexivity.
  - repeat constructor; discriminate.
Defined.

(** ** Building heights *)

Section LabelFacts.

Import Raster.

(** A label other than 0 is only found on a cell of the mask. *)
Local Abbreviation on_mask := (fun (l : Z) (m : bool) => l <> 0 -> m = true).
Local Abbreviation aligned labeled mask := (Forall2 (Forall2 on_mask) labeled mask).

Lemma row_set_on_mask (lrow : list Z) (mrow : list bool) (v : Z) :
  Forall2 on_mask lrow mrow -> forall i,
  nth i mrow false = true -> Forall2 on_mask (replace_nth lrow i v) mrow.
Proof.
  induction 1 as [|l m lt mt Hlm Hrest IH]; intros [|i] Hn; simpl in *;
    try constructor; auto.
Qed.

Lemma set2_aligned (labeled : list (list Z)) (mask : list (list bool))
    (j i v : Z) :
  aligned labeled mask -> get2 false mask j i = true ->
  aligned (set2 labeled j i v) mask.
Proof.
  unfold get2, set2. destruct ((0 <=? j) && (0 <=? i)); [|discriminate].
  generalize (Z.to_nat j) as n, (Z.to_nat i) as k. clear j i.
  intros n k Hal. revert n.
  induction Hal as [|l m lt mt Hlm Hrest IH]; intros [|n] Hn; simpl in *;
    try constructor; auto.
  now apply row_set_on_mask.
Qed.

Lemma flood_aligned (mask : list (list bool)) (fuel : nat) :
  forall labeled id stack,
    aligned labeled mask -> aligned (flood fuel mask labeled id stack) mask.
Proof.
  induction fuel as [|fuel IH]; intros labeled id stack Hal; simpl; auto.
  destruct stack as [|[j i] rest]; auto.
  destruct (get2 false mask j i) eqn:Em; simpl; [|now apply IH].
  destruct (get2 0 labeled j i =? 0); apply IH; auto.
  now apply set2_aligned.
Qed.

Lemma label_scan_aligned (mask : list (list bool)) (fuel : nat) (cells : list (Z * Z)) :
  forall labeled num,
    aligned labeled mask ->
    aligned (fst (label_scan fuel cells mask labeled num)) mask.
Proof.
  induction cells as [|[j i] rest IH]; intros labeled num Hal; simpl; auto.
  destruct (get2 false mask j i && (get2 0 labeled j i =? 0)); apply IH; auto.
  now apply flood_aligned.
Qed.

Lemma label_aligned (mask : list (list bool)) : aligned (fst (label mask)) mask.
Proof.
  unfold label. apply label_scan_aligned.
  induction mask as [|row mask IH]; simpl; constructor; auto.
  induction row as [|m row IHr]; simpl; constructor; auto.
Qed.

Lemma select_app {A : Type} (a1 a2 : list A) (m1 m2 : list bool) :
  length a1 = length m1 ->
  select (a1 ++ a2) (m1 ++ m2) = select a1 m1 ++ select a2 m2.
Proof.
  revert m1. induction a1 as [|x a1 IH]; intros [|b m1] H; simpl in *;
    try discriminate; auto.
  injection H as H. rewrite (IH m1 H). now destruct b.
Qed.

Lemma row_select_on_mask {A : Type} (f : A -> bool) (id : Z) (hrow : list A) :
  id <> 0 -> forall lrow,
  Forall2 on_mask lrow (map f hrow) ->
  Forall (fun h => f h = true) (select hrow (map (fun l => l =? id) lrow)).
Proof.
  intros Hid. induction hrow as [|h hrow IH]; intros lrow Hal.
  - inversion Hal; subst. constructor.
  - inversion Hal as [|l m lt mt Hlm Hrest]; subst. simpl.
    destruct (Z.eqb_spec l id) as [->|Hne]; [constructor|]; auto.
Qed.

Lemma grid_select_on_mask {A : Type} (f : A -> bool) (id : Z)
    (heights : list (list A)) :
  id <> 0 -> forall labeled,
  aligned labeled (map (map f) heights) ->
  Forall (fun h => f h = true)
         (select (concat heights)
                 (concat (map (map (fun l => l =? id)) labeled))).
Proof.
  intros Hid. induction heights as [|hrow heights IH]; intros labeled Hal.
  - inversion Hal; subst. constructor.
  - inversion Hal as [|lrow mrow lt mt Hrow Hrest]; subst. simpl.
    rewrite select_app.
    + apply Forall_app. split; [now apply row_select_on_mask|now apply IH].
    + apply Forall2_length in Hrow. now rewrite !length_map in *.
Qed.

End LabelFacts.

Section BuildingFacts.

Import Raster RasterMore.

Lemma Qgt_threshold_true (t : Q) (h : option Q) :
  Qgt_threshold t h = true -> exists v, h = Some v /\ (t < v)%Q.
Proof.
  destruct h as [v|]; simpl; [|discriminate].
  intros H. apply Qgtb_true in H. eauto.
Qed.

Lemma building_of_tall (dtm : RasterModel) (height_model : Grid)
    (labeled : list (list Z)) (id : Z) (b : Building) :
  id <> 0 ->
  Forall2 (Forall2 (fun (l : Z) (m : bool) => l <> 0 -> m = true)) labeled
          (map (map (Qgt_threshold 2)) height_model) ->
  10 <= mask_sum (map (map (fun l => l =? id)) labeled) ->
  building_of dtm height_model (map (map (fun l => l =? id)) labeled) id = Ok b ->
  tall_and_wide b /\ b_id b = id.
Proof.
  intros Hid Hal Harea. unfold building_of.
  destruct (np_where _) as [ys xs].
  destruct (rm_bounds dtm) as [[[min_x ?] min_y] ?].
  set (heights := valid_values _).
  destruct (min_of heights) as [lo|] eqn:Elo; [|discriminate].
  destruct (max_of heights) as [hi|] eqn:Ehi; [|discriminate].
  simpl. intros [= <-]. split; [|reflexivity].
  unfold tall_and_wide. simpl.
  apply min_of_spec in Elo as [Hlo_in Hlo]. apply max_of_spec in Ehi as [_ Hhi].
  split; [exact Harea|]. split.
  - unfold heights in Hlo_in. apply valid_values_In in Hlo_in.
    pose proof (grid_select_on_mask (Qgt_threshold 2) id height_model Hid
                  labeled Hal) as Hsel.
    eapply Forall_forall in Hsel; [|exact Hlo_in].
    apply Qgt_threshold_true in Hsel as (v & [= <-] & Hv). exact Hv.
  - rewrite Forall_forall in Hhi. now apply Hhi.
Qed.

Lemma buildings_loop_tall (dtm : RasterModel) (height_model : Grid)
    (labeled : list (list Z)) (ids : list Z) : forall buildings result,
  Forall (fun id => id <> 0) ids ->
  Forall2 (Forall2 (fun (l : Z) (m : bool) => l <> 0 -> m = true)) labeled
          (map (map (Qgt_threshold 2)) height_model) ->
  Forall tall_and_wide buildings ->
  buildings_loop dtm height_model labeled ids buildings = Ok result ->
  Forall tall_and_wide result.
Proof.
  induction ids as [|id rest IH]; intros buildings result Hids Hal Hall H.
  - simpl in H. now injection H as <-.
  - inversion Hids as [|i l Hid Hrest]; subst. cbn [buildings_loop] in H.
    destruct (Z.ltb_spec (mask_sum (map (map (fun l => l =? id)) labeled)) 10)
      as [Hsmall|Hbig].
    + eapply IH; eauto.
    + destruct (building_of _ _ _ _) as [b|] eqn:Eb; [|discriminate].
      simpl in H. eapply IH; [exact Hrest|exact Hal| |exact H].
      apply Forall_app. split; [exact Hall|]. constructor; [|constructor].
      eapply building_of_tall; eauto.
Qed.

(** X22. Every building reported by [calculate_building_heights] covers
    at least ten cells, all of them more than 2 m above the terrain: its
    [height_min] exceeds the threshold, and does not exceed its
    [height_max]. *)
Theorem calculate_building_heights_reports_tall_buildings
    (dtm dsm : RasterModel) (buildings : list Building) :
  calculate_building_heights dtm dsm = Ok buildings ->
  Forall tall_and_wide buildings.
Proof.
  unfold calculate_building_heights. intros H.
  destruct (np_sub _ _) as [height_model|] eqn:Eh; [|discriminate].
  cbn [bind] in H. cbv zeta in H.
  pose proof (label_aligned (map (map (Qgt_threshold 2)) height_model)) as Hal.
  destruct (label _) as [labeled num]. simpl in Hal.
  eapply buildings_loop_tall; [|exact Hal|constructor|exact H].
  apply Forall_map, Forall_forall. intros k Hk.
  apply range_In in Hk. lia.
Qed.

End BuildingFacts.

Lemma calculate_building_heights_reports_tall_buildings_witness :
  exists b,
    Raster.calculate_building_heights RasterMore.terrain4 RasterMore.roof4 =
    Ok [b] /\
    Forall RasterMore.tall_and_wide [b].
Proof.
  eexists. split; [vm_compute; reflexivity|].
  apply (calculate_building_heights_reports_tall_buildings
           RasterMore.terrain4 RasterMore.roof4).
  vm_compute. reflexivity.
Defined.

(** ** The line tracing of the viewshed, continued *)

Section BresenhamShape.

Import Viewshed ViewshedMore.

Variables x0 y0 x1 y1 : Z.

Let dx := Z.abs (x1 - x0).
Let dy := Z.abs (y1 - y0).
Let sx := if x0 <? x1 then 1 else -1.
Let sy := if y0 <? y1 then 1 else -1.

(** The points already traced do not take part in the loop. *)
Lemma bresenham_loop_acc (fuel : nat) : forall x y err points,
  bresenham_loop fuel x1 y1 dx dy sx sy x y err points =
  (r <- bresenham_loop fuel x1 y1 dx dy sx sy x y err [] ;; Ok (points ++ r)).
Proof.
  induction fuel as [|fuel IH]; intros x y err points; [reflexivity|].
  cbn [bresenham_loop].
  destruct ((x =? x1) && (y =? y1)); [reflexivity|].
  destruct (2 * err >? - dy), (2 * err <? dx);
    rewrite IH; rewrite (IH _ _ _ ([] ++ [(x, y)]));
    destruct (bresenham_loop fuel _ _ _ _ _ _ _ _ _ []); simpl;
    try reflexivity; now rewrite <- app_assoc.
Qed.

Lemma chained_cons (p q : Z * Z) (t : list (Z * Z)) :
  king_move p q -> hd_error t = Some q -> chained t -> chained (p :: t).
Proof.
  intros Hpq Hhd Ht. destruct t as [|q' t]; [discriminate|].
  injection Hhd as ->. simpl. auto.
Qed.

Lemma bresenham_loop_shape (fuel : nat) : forall a b,
  0 <= a <= dx -> 0 <= b <= dy ->
  (dx - a) + (dy - b) < Z.of_nat fuel ->
  (dy <= dx /\ 0 < dx /\ - dy < 2 * (dx - dy - a * dy + b * dx)) \/
  (dx < dy /\ 2 * (dx - dy - a * dy + b * dx) < dx) \/
  (dx = 0 /\ dy = 0) ->
  exists pts,
    bresenham_loop fuel x1 y1 dx dy sx sy (x0 + sx * a) (y0 + sy * b)
      (dx - dy - a * dy + b * dx) [] = Ok pts /\
    hd_error pts = Some (x0 + sx * a, y0 + sy * b) /\
    last pts (x0, y0) = (x1, y1) /\
    chained pts /\
    (dy <= dx -> len pts = dx - a + 1) /\
    (dx < dy -> len pts = dy - b + 1).
Proof.
  assert (Hsx : x1 = x0 + sx * dx).
  { unfold sx, dx. destruct (Z.ltb_spec x0 x1); lia. }
  assert (Hsy : y1 = y0 + sy * dy).
  { unfold sy, dy. destruct (Z.ltb_spec y0 y1); lia. }
  assert (Hsx1 : sx = 1 \/ sx = -1) by (unfold sx; destruct (x0 <? x1); auto).
  assert (Hsy1 : sy = 1 \/ sy = -1) by (unfold sy; destruct (y0 <? y1); auto).
  assert (Hdx : 0 <= dx) by (unfold dx; lia).
  assert (Hdy : 0 <= dy) by (unfold dy; lia).
  clearbody dx dy sx sy.
  induction fuel as [|fuel IH]; intros a b Ha Hb Hfuel Hinv; [lia|].
  cbn [bresenham_loop].
  destruct ((x0 + sx * a =? x1) && (y0 + sy * b =? y1)) eqn:Eend.
  - apply andb_true_iff in Eend as [Ex Ey]. rewrite Z.eqb_eq in Ex, Ey.
    assert (a = dx) by (destruct Hsx1; subst sx; lia).
    assert (b = dy) by (destruct Hsy1; subst sy; lia).
    eexists. split; [reflexivity|]. simpl.
    split; [reflexivity|]. split; [congruence|]. split; [exact I|].
    unfold len. simpl. split; lia.
  - assert (Hnot : a < dx \/ b < dy).
    { apply andb_false_iff in Eend. rewrite !Z.eqb_neq in Eend.
      destruct Hsx1, Hsy1; subst sx sy; lia. }
    set (err := dx - dy - a * dy + b * dx) in *.
    assert (Hstep : forall a' b' pts,
      a <= a' <= a + 1 -> b <= b' <= b + 1 -> (a', b') <> (a, b) ->
      hd_error pts = Some (x0 + sx * a', y0 + sy * b') ->
      last pts (x0, y0) = (x1, y1) -> chained pts ->
      hd_error ((x0 + sx * a, y0 + sy * b) :: pts) =
        Some (x0 + sx * a, y0 + sy * b) /\
      last ((x0 + sx * a, y0 + sy * b) :: pts) (x0, y0) = (x1, y1) /\
      chained ((x0 + sx * a, y0 + sy * b) :: pts)).
    { intros a' b' pts Ha' Hb' Hne Hhd Hlast Hch.
      split; [reflexivity|]. split.
      - destruct pts; [discriminate|]. exact Hlast.
      - eapply chained_cons; eauto.
        unfold king_move. simpl.
        split; [destruct Hsx1; subst sx; lia|].
        split; [destruct Hsy1; subst sy; lia|].
        intros E. apply Hne. injection E as E1 E2.
        f_equal; [destruct Hsx1; subst sx; lia|destruct Hsy1; subst sy; lia]. }
    destruct (Z.gtb_spec (2 * err) (- dy)) as [Hx|Hx];
      destruct (Z.ltb_spec (2 * err) dx) as [Hy|Hy].
    + (* a step along both axes *)
      assert (a < dx) by (unfold err in *; nia).
      assert (b < dy) by (unfold err in *; nia).
      replace (x0 + sx * a + sx) with (x0 + sx * (a + 1)) by lia.
      replace (y0 + sy * b + sy) with (y0 + sy * (b + 1)) by lia.
      replace (err - dy + dx)
        with (dx - dy - (a + 1) * dy + (b + 1) * dx) by (unfold err; lia).
      rewrite bresenham_loop_acc.
      destruct (IH (a + 1) (b + 1)) as (pts & -> & Hhd & Hlast & Hch & Hl1 & Hl2);
        [lia|lia|lia|unfold err in *; destruct Hinv as [H1|[H1|H1]]; solve [lia | left; nia | right; left; nia]|].
      cbn [bind app].
      eexists. split; [reflexivity|].
      destruct (Hstep (a + 1) (b + 1) pts) as (G1 & G2 & G3); auto; try lia.
      { intros E. injection E as E1 E2. lia. }
      split; [exact G1|]. split; [exact G2|]. split; [exact G3|].
      rewrite len_cons. split; intros Hc; [rewrite Hl1|rewrite Hl2]; lia.
    + (* a step along the first axis *)
      assert (a < dx) by (unfold err in *; nia).
      replace (x0 + sx * a + sx) with (x0 + sx * (a + 1)) by lia.
      replace (err - dy) with (dx - dy - (a + 1) * dy + b * dx)
        by (unfold err; lia).
      rewrite bresenham_loop_acc.
      assert (Hmajor : dy <= dx /\ 0 < dx).
      { unfold err in *. destruct Hinv as [H1|[H1|H1]]; lia. }
      destruct (IH (a + 1) b) as (pts & -> & Hhd & Hlast & Hch & Hl1 & Hl2);
        [lia|lia|lia| |].
      { left. unfold err in *.
        destruct (Z.eq_dec dx dy) as [E|E]; [|lia].
        subst dy. assert (1 <= b - a) by nia. nia. }
      cbn [bind app].
      eexists. split; [reflexivity|].
      destruct (Hstep (a + 1) b pts) as (G1 & G2 & G3); auto; try lia.
      { intros E. injection E as E1. lia. }
      split; [exact G1|]. split; [exact G2|]. split; [exact G3|].
      rewrite len_cons. split; intros Hc; [rewrite Hl1|]; lia.
    + (* a step along the second axis *)
      assert (b < dy) by (unfold err in *; nia).
      replace (y0 + sy * b + sy) with (y0 + sy * (b + 1)) by lia.
      replace (err + dx) with (dx - dy - a * dy + (b + 1) * dx)
        by (unfold err; lia).
      rewrite bresenham_loop_acc.
      assert (Hmajor : dx < dy).
      { unfold err in *. destruct Hinv as [H1|[H1|H1]]; lia. }
      destruct (IH a (b + 1)) as (pts & -> & Hhd & Hlast & Hch & Hl1 & Hl2);
        [lia|lia|lia|right; left; unfold err in *; nia|].
      cbn [bind app].
      eexists. split; [reflexivity|].
      destruct (Hstep a (b + 1) pts) as (G1 & G2 & G3); auto; try lia.
      { intros E. injection E as E1. lia. }
      split; [exact G1|]. split; [exact G2|]. split; [exact G3|].
      rewrite len_cons. split; intros Hc; [|rewrite Hl2]; lia.
    + (* no step: only at the end point *)
      exfalso. unfold err in *. nia.
Qed.

(** X23. [_bresenham_line] returns after at most [dx + dy + 1]
    iterations; the line starts at [(x0, y0)], ends at [(x1, y1)], moves
    from each cell to one of its eight neighbours, and has
    [max(dx, dy) + 1] cells. *)
Theorem bresenham_line_connects_endpoints (fuel : nat) :
  dx + dy < Z.of_nat fuel ->
  exists pts,
    _bresenham_line fuel x0 y0 x1 y1 = Ok pts /\
    hd_error pts = Some (x0, y0) /\
    last pts (x0, y0) = (x1, y1) /\
    chained pts /\
    len pts = Z.max dx dy + 1.
Proof.
  intros Hfuel. unfold _bresenham_line. fold dx dy sx sy.
  destruct (bresenham_loop_shape fuel 0 0)
    as (pts & H & Hhd & Hlast & Hch & Hl1 & Hl2);
    [unfold dx, dy; lia|unfold dx, dy; lia|unfold dx, dy; lia|
     unfold dx, dy; lia|].
  exists pts.
  replace (x0 + sx * 0) with x0 in * by lia.
  replace (y0 + sy * 0) with y0 in * by lia.
  replace (dx - dy - 0 * dy + 0 * dx) with (dx - dy) in H by lia.
  split; [exact H|]. split; [exact Hhd|]. split; [exact Hlast|].
  split; [exact Hch|].
  destruct (Z.le_gt_cases dy dx) as [Hc|Hc]; [rewrite Hl1|rewrite Hl2]; lia.
Qed.

End BresenhamShape.

Lemma bresenham_line_connects_endpoints_witness :
  exists pts,
    Viewshed._bresenham_line 9 0 0 5 2 = Ok pts /\
    hd_error pts = Some (0, 0) /\
    last pts (0, 0) = (5, 2) /\
    ViewshedMore.chained pts /\
    len pts = Z.max (Z.abs (5 - 0)) (Z.abs (2 - 0)) + 1.
Proof.
  apply (bresenham_line_connects_endpoints 0 0 5 2 9). simpl. lia.
Defined.

(** ** The flood simulator *)

Section FloodFacts.

Import Viewshed Flood.

Lemma zip_with_map_same {A B C D : Type} (h : B -> C -> D) (g : A -> B)
    (f : A -> C) (l : list A) :
  Raster.zip_with h (map g l) (map f l) = map (fun a => h (g a) (f a)) l.
Proof. induction l as [|a t IH]; simpl; [reflexivity|now rewrite IH]. Qed.

Lemma select_map_same {A B : Type} (g : A -> B) (f : A -> bool) (l : list A) :
  select (map g l) (map f l) = map g (filter f l).
Proof.
  induction l as [|a t IH]; simpl; [reflexivity|].
  rewrite IH. now destruct (f a).
Qed.

Lemma filter_id_map {A : Type} (f : A -> bool) (l : list A) :
  length (filter (fun b : bool => b) (map f l)) = length (filter f l).
Proof.
  induction l as [|a t IH]; simpl; [reflexivity|].
  destruct (f a); simpl; now rewrite IH.
Qed.

(** The depth of the water over a cell of elevation [z]. *)
Local Abbreviation depth_over water_level :=
  (fun z : Q => Qmax' 0 (water_level - z)).

Lemma clear_dry_redundant (dem : Dem) (water_level : Q) :
  clear_dry (map (map (depth_over water_level)) dem)
            (map (map (fun z => Qle_bool z water_level)) dem) =
  map (map (depth_over water_level)) dem.
Proof.
  unfold clear_dry. rewrite zip_with_map_same. apply map_ext. intros row.
  rewrite zip_with_map_same. apply map_ext. intros z.
  destruct (Qle_bool z water_level) eqn:E; [reflexivity|].
  unfold Qmax'. destruct (Qle_bool 0 (water_level - z)) eqn:E'; [|reflexivity].
  apply Qle_bool_iff in E'.
  assert (H : (z <= water_level)%Q) by lra.
  apply Qle_bool_iff in H. congruence.
Qed.

Lemma depth_over_nonneg (water_level z : Q) : (0 <= depth_over water_level z)%Q.
Proof.
  unfold Qmax'. destruct (Qle_bool 0 (water_level - z)) eqn:E.
  - now apply Qle_bool_iff.
  - apply Qle_refl.
Qed.

(** X24. [FloodSimulator.simulate] raises [ValueError] on a raster
    without cells. On any other raster of elevations it returns; the
    depth of every cell is [max(0, water_level - elevation)], which is 0
    already on the cells that [water_depth[~flooded] = 0] clears;
    [flooded_cells] counts the cells at or below the water level; every
    depth lies between 0 and [max_depth_m], and [avg_depth_m] is not
    negative. *)
Theorem flood_simulate_statistics (dem : Dem) (water_level resolution : Q) :
  (concat dem = [] -> simulate dem water_level resolution = Raise ValueError) /\
  (concat dem <> [] ->
   exists r,
     simulate dem water_level resolution = Ok r /\
     flooded_mask r = map (map (fun z => Qle_bool z water_level)) dem /\
     water_depth r = map (map (depth_over water_level)) dem /\
     flooded_cells (statistics r) =
       len (filter (fun z => Qle_bool z water_level) (concat dem)) /\
     Forall (fun d => 0 <= d /\ d <= max_depth_m (statistics r))%Q
            (concat (water_depth r)) /\
     (0 <= avg_depth_m (statistics r))%Q).
Proof.
  unfold simulate. cbv zeta. rewrite clear_dry_redundant.
  rewrite <- !concat_map.
  set (l := concat dem).
  assert (Hcount : Raster.mask_sum (map (map (fun z => Qle_bool z water_level)) dem)
                   = len (filter (fun z => Qle_bool z water_level) l)).
  { unfold Raster.mask_sum, len. rewrite <- concat_map. fold l.
    now rewrite filter_id_map. }
  rewrite Hcount.
  split.
  - intros ->. reflexivity.
  - intros Hne.
    destruct (max_of (map (depth_over water_level) l)) as [hi|] eqn:Ehi.
    2:{ destruct l; [congruence|discriminate]. }
    cbn [bind]. eexists. split; [reflexivity|].
    cbn [flooded_mask water_depth statistics flooded_cells max_depth_m avg_depth_m].
    split; [reflexivity|]. split; [reflexivity|]. split; [reflexivity|].
    rewrite <- concat_map. fold l.
    apply max_of_spec in Ehi as [Hin Hmax].
    assert (Hall : Forall (fun d => 0 <= d /\ d <= hi)%Q
                          (map (depth_over water_level) l)).
    { apply Forall_forall. intros d Hd. split.
      - apply in_map_iff in Hd as (z & <- & _). apply depth_over_nonneg.
      - eapply Forall_forall in Hmax; eauto. }
    split; [exact Hall|].
    destruct (Z.ltb_spec 0 (len (filter (fun z => Qle_bool z water_level) l)))
      as [Hpos|_].
    + rewrite select_map_same. apply Qmean_nonneg.
      * unfold len in *. now rewrite length_map.
      * apply Forall_forall. intros d Hd.
        apply in_map_iff in Hd as (z & <- & _). apply depth_over_nonneg.
    + apply Qle_refl.
Qed.

End FloodFacts.

(** The valley under 3 m of water: two cells are flooded. *)
Lemma flood_simulate_statistics_witness :
  exists r,
    Flood.simulate Flood.valley 3 1 = Ok r /\
    Flood.flooded_cells (Flood.statistics r) = 2 /\
    Forall (fun d => 0 <= d /\ d <= Flood.max_depth_m (Flood.statistics r))%Q
           (concat (Flood.water_depth r)) /\
    (0 <= Flood.avg_depth_m (Flood.statistics r))%Q.
Proof.
  destruct (proj2 (flood_simulate_statistics Flood.valley 3 1))
    as (r & Hr & _ & _ & Hcells & Hdepths & Havg); [discriminate|].
  exists r. split; [exact Hr|]. split; [|split; assumption].
  rewrite Hcells. reflexivity.
Defined.

(** ** The flight plan *)

Section DroneFacts.

Import Octree Drone.

Variables min_x max_x max_y altitude line_spacing : Q.

Lemma serpentine_length (direction : Z) (ys : list Q) :
  len (serpentine min_x max_x altitude direction ys) = 2 * len ys.
Proof.
  revert direction. induction ys as [|y rest IH]; intros direction;
    [reflexivity|].
  cbn [serpentine]. rewrite len_app, IH, len_cons.
  destruct (direction =? 1); unfold len; cbn [length]; lia.
Qed.

(** What the loop appends when it ends: one flight line for each [y] it
    went through, none of them beyond [max_y]. *)
Lemma waypoints_loop_lines (fuel : nat) : forall y direction acc result,
  waypoints_loop fuel min_x max_x max_y altitude line_spacing y direction acc
    = Ok result ->
  exists ys,
    result = acc ++ serpentine min_x max_x altitude direction ys /\
    Forall (fun y' => y' <= max_y)%Q ys /\
    hd_error ys = (if Qle_bool y max_y then Some y else None).
Proof.
  induction fuel as [|fuel IH]; intros y direction acc result H;
    [discriminate|].
  cbn [waypoints_loop] in H. destruct (Qle_bool y max_y) eqn:Ey.
  - apply IH in H as (ys & -> & Hall & _). exists (y :: ys). split; [|split].
    + cbn [serpentine]. destruct (direction =? 1);
        rewrite <- !app_assoc; reflexivity.
    + constructor; [now apply Qle_bool_iff|exact Hall].
    + reflexivity.
  - injection H as <-. exists []. split; [|split].
    + cbn [serpentine]. now rewrite app_nil_r.
    + constructor.
    + reflexivity.
Qed.

Lemma waypoints_loop_diverges (fuel : nat) : forall y direction acc,
  (line_spacing <= 0)%Q -> (y <= max_y)%Q ->
  waypoints_loop fuel min_x max_x max_y altitude line_spacing y direction acc =
  Raise Unfinished.
Proof.
  induction fuel as [|fuel IH]; intros y direction acc Hs Hy; [reflexivity|].
  cbn [waypoints_loop].
  apply Qle_bool_iff in Hy as Hy'. rewrite Hy'.
  apply IH; [exact Hs|lra].
Qed.

End DroneFacts.

Section DroneTheorem.

Import Octree Drone.

Variable np_sqrt : Q -> Q.

(** X25. A plan that [plan_drone_path] returns over given bounds is made
    of flight lines of two waypoints each, at the requested altitude,
    flown alternately from [min_x] to [max_x] and back; no line lies
    beyond [max_y], the first one is at [min_y], and there is none when
    [min_y] is beyond [max_y]; [num_waypoints] is twice the number of
    lines. With an overlap of 1 or more and [min_y <= max_y] the loop
    never ends. *)
Theorem plan_drone_path_flight_lines (self : LidarProcessor)
    (altitude overlap min_x max_x min_y max_y : Q) :
  (forall fuel plan,
     plan_drone_path np_sqrt fuel self altitude overlap
       (Some (min_x, max_x, min_y, max_y)) = Ok plan ->
     exists ys,
       waypoints plan = serpentine min_x max_x altitude 1 ys /\
       num_waypoints plan = 2 * len ys /\
       Forall (fun y => y <= max_y)%Q ys /\
       hd_error ys = (if Qle_bool min_y max_y then Some min_y else None) /\
       altitude_m plan = altitude) /\
  ((1 <= overlap)%Q -> (min_y <= max_y)%Q ->
   forall fuel,
     plan_drone_path np_sqrt fuel self altitude overlap
       (Some (min_x, max_x, min_y, max_y)) = Raise Unfinished).
Proof.
  split.
  - intros fuel plan. unfold plan_drone_path. cbn [bind]. cbv zeta.
    destruct (waypoints_loop _ _ _ _ _ _ _ _ _) as [w|e] eqn:E;
      [|discriminate].
    cbn [bind]. intros [= <-].
    apply waypoints_loop_lines in E as (ys & -> & Hall & Hhd).
    exists ys. cbn [waypoints num_waypoints altitude_m app].
    split; [reflexivity|]. split; [apply serpentine_length|].
    split; [exact Hall|]. split; [exact Hhd|reflexivity].
  - intros Hov Hy fuel. unfold plan_drone_path. cbn [bind]. cbv zeta.
    rewrite waypoints_loop_diverges; [reflexivity|lra|exact Hy].
Qed.

End DroneTheorem.

Lemma plan_drone_path_flight_lines_witness :
  (exists plan,
     Drone.plan_drone_path Drone.sqrt_of_square 3 Raster.mast_cloud 50 (1 # 2)
       (Some (0, 100, 0, 30)%Q) = Ok plan /\
     Drone.num_waypoints plan = 4 /\
     exists ys,
       Drone.waypoints plan = Drone.serpentine 0 100 50 1 ys /\
       Drone.num_waypoints plan = 2 * len ys /\
       Forall (fun y => y <= 30)%Q ys /\
       hd_error ys = Some 0%Q /\
       Drone.altitude_m plan = 50%Q) /\
  Drone.plan_drone_path Drone.sqrt_of_square 1000 Raster.mast_cloud 50 1
    (Some (0, 100, 0, 30)%Q) = Raise Unfinished.
Proof.
  split.
  - eexists. split; [vm_compute; reflexivity|]. split; [reflexivity|].
    apply (proj1 (plan_drone_path_flight_lines Drone.sqrt_of_square
                    Raster.mast_cloud 50 (1 # 2) 0 100 0 30) 3%nat).
    vm_compute. reflexivity.
  - apply (proj2 (plan_drone_path_flight_lines Drone.sqrt_of_square
                    Raster.mast_cloud 50 1 0 100 0 30)); discriminate.
Defined.

(** ** The stand-alone router: tiles, octree, rasters, streaming *)

Section CopieTiles.

Import Octree TilesCopie.

Lemma setdefault_append_nonempty (tiles : TileDict) key p :
  Forall (fun kv => snd kv <> []) tiles ->
  Forall (fun kv => snd kv <> []) (setdefault_append tiles key p).
Proof.
  induction 1 as [|[k v] rest Hv Hrest IH]; simpl.
  - constructor; [discriminate|constructor].
  - destruct (key_eqb k key); constructor; auto.
    simpl. intros E. apply app_eq_nil in E as [_ E]. discriminate.
Qed.

Lemma assign_tiles_nonempty (min_x min_y : Q) (pts : list Point3) :
  forall tiles,
    Forall (fun kv => snd kv <> []) tiles ->
    Forall (fun kv => snd kv <> []) (assign_tiles min_x min_y pts tiles).
Proof.
  induction pts as [|p rest IH]; intros tiles Hall; cbn [assign_tiles]; auto.
  destruct (compute_tile_index (px p) (py p) min_x min_y) as [tx ty].
  apply IH. now apply setdefault_append_nonempty.
Qed.

(** X26. [generate_tiles] of [lidar - Copie.py] partitions the cloud:
    the buckets of the dictionary, taken together, are a permutation of
    the points; no key occurs twice; every bucket holds at least one
    point, and every point sits in the bucket of its own tile index. *)
Theorem copie_generate_tiles_partitions_points (pts : list Point3)
    (tiles : TileDict) :
  TilesCopie.generate_tiles pts = Ok tiles ->
  exists min_x min_y,
    min_of (map px pts) = Ok min_x /\ min_of (map py pts) = Ok min_y /\
    Permutation (concat (map snd tiles)) pts /\
    NoDup (map fst tiles) /\
    Forall (fun kv => snd kv <> []) tiles /\
    Forall (fun kv =>
              Forall (fun p => compute_tile_index (px p) (py p) min_x min_y
                               = fst kv) (snd kv)) tiles.
Proof.
  unfold TilesCopie.generate_tiles. intros H.
  destruct (min_of (map px pts)) as [min_x|]; [|discriminate].
  destruct (min_of (map py pts)) as [min_y|]; [|discriminate].
  simpl in H. injection H as <-.
  destruct (assign_tiles_partition min_x min_y pts []) as (Hperm & Hnd & Hall);
    [constructor|constructor|].
  exists min_x, min_y. split; [reflexivity|]. split; [reflexivity|].
  split; [|split; [exact Hnd|split; [|exact Hall]]].
  - simpl in Hperm. now rewrite app_nil_r in Hperm.
  - apply assign_tiles_nonempty. constructor.
Qed.

End CopieTiles.

Lemma copie_generate_tiles_partitions_points_witness :
  exists tiles min_x min_y,
    TilesCopie.generate_tiles [(0, 0, 0)%Q; (250, 10, 1)%Q; (20, 30, 2)%Q]
      = Ok tiles /\
    min_of (map Octree.px [(0, 0, 0)%Q; (250, 10, 1)%Q; (20, 30, 2)%Q])
      = Ok min_x /\
    min_of (map Octree.py [(0, 0, 0)%Q; (250, 10, 1)%Q; (20, 30, 2)%Q])
      = Ok min_y /\
    Permutation (concat (map snd tiles))
                [(0, 0, 0)%Q; (250, 10, 1)%Q; (20, 30, 2)%Q] /\
    NoDup (map fst tiles) /\
    Forall (fun kv => snd kv <> []) tiles /\
    Forall (fun kv =>
              Forall (fun p => TilesCopie.compute_tile_index
                                 (Octree.px p) (Octree.py p) min_x min_y
                               = fst kv) (snd kv)) tiles.
Proof.
  eexists. 
  assert (H : TilesCopie.generate_tiles
                [(0, 0, 0)%Q; (250, 10, 1)%Q; (20, 30, 2)%Q] = Ok _)
    by (vm_compute; reflexivity).
  destruct (copie_generate_tiles_partitions_points _ _ H)
    as (min_x & min_y & H1 & H2 & H3 & H4 & H5 & H6).
  exists min_x, min_y. split; [exact H|].
  split; [exact H1|]. split; [exact H2|]. split; [exact H3|].
  split; [exact H4|]. split; [exact H5|exact H6].
Defined.

Section CopieOctree.

Import Octree Copie.

Lemma classes_once {A K : Type} (m : K -> A -> bool) (ks : list K) (a : A)
    (l : list A) :
  Permutation (flat_map (fun k => filter (m k) (a :: l)) ks)
              (repeat a (length (filter (fun k => m k a) ks)) ++
               flat_map (fun k => filter (m k) l) ks).
Proof.
  induction ks as [|k ks IH]; simpl; [reflexivity|].
  destruct (m k a); simpl.
  - apply perm_skip. rewrite IH.
    apply Permutation_app_swap_app.
  - rewrite IH. apply Permutation_app_swap_app.
Qed.

(** Masks that select every element exactly once split a list into
    classes. *)
Lemma classes_partition {A K : Type} (m : K -> A -> bool) (ks : list K)
    (l : list A) :
  (forall a, length (filter (fun k => m k a) ks) = 1%nat) ->
  Permutation (flat_map (fun k => filter (m k) l) ks) l.
Proof.
  intros Hone. induction l as [|a l IH].
  - clear Hone. induction ks as [|k ks IHk]; simpl; auto.
  - rewrite classes_once, Hone. simpl. now apply perm_skip.
Qed.

Lemma octants_partition (center : Point3) (points : list Point3) :
  Permutation (flat_map (fun d => filter (octant_mask center d) points) octants)
              points.
Proof.
  apply classes_partition. intros p. unfold octants, octant_mask.
  cbn [filter].
  destruct (Qgtb (px p) (px center)), (Qgtb (py p) (py center)),
           (Qgtb (pz p) (pz center)); reflexivity.
Qed.

Lemma children_loop_spec (rec : list Point3 -> result Tree)
    (points : list Point3) (center : Point3) (h : Z) :
  (forall subset, exists t,
      rec subset = Ok t /\ Permutation (tree_points t) subset /\ height t <= h) ->
  forall ds children,
    Forall (fun c => height c <= h) children ->
    exists cs,
      children_loop rec points center ds children = Ok cs /\
      Permutation (flat_map tree_points cs)
                  (flat_map tree_points children ++
                   flat_map (fun d => filter (octant_mask center d) points) ds) /\
      Forall (fun c => height c <= h) cs.
Proof.
  intros Hrec. induction ds as [|d ds IH]; intros children Hall.
  - exists children. simpl. rewrite app_nil_r. auto.
  - cbn [children_loop flat_map].
    set (subset := filter (octant_mask center d) points).
    destruct (Z.ltb_spec 0 (len subset)) as [Hpos|Hzero].
    + destruct (Hrec subset) as (t & -> & Hperm & Hh). cbn [bind].
      destruct (IH (children ++ [t])) as (cs & -> & Hp & Hc).
      { apply Forall_app. split; [exact Hall|]. constructor; auto. }
      exists cs. split; [reflexivity|]. split; [|exact Hc].
      rewrite Hp, flat_map_app. simpl. rewrite app_nil_r, Hperm.
      now rewrite <- app_assoc.
    + cbn [bind]. destruct (IH children Hall) as (cs & -> & Hp & Hc).
      exists cs. split; [reflexivity|]. split; [|exact Hc].
      assert (E : subset = []).
      { destruct subset; [reflexivity|]. rewrite len_cons in Hzero.
        pose proof (len_nonneg subset). lia. }
      now rewrite E.
Qed.

Lemma height_children (children : list Tree) (h : Z) :
  0 <= h -> Forall (fun c => height c <= h - 1) children ->
  fold_right (fun c acc => Z.max (1 + height c) acc) 0 children <= h.
Proof.
  intros Hh. induction 1 as [|c cs Hc _ IH]; cbn [fold_right]; lia.
Qed.

(** X27. [build_octree] of [lidar - Copie.py] returns as soon as the
    interpreter allows [max_depth - depth + 1] nested calls; the tree
    holds every point exactly once, and is at most [max_depth - depth]
    levels deep. *)
Theorem copie_build_octree_keeps_points (fuel : nat) (points : list Point3)
    (depth max_depth max_points : Z) :
  (Z.to_nat (max_depth - depth) < fuel)%nat ->
  exists t,
    build_octree fuel points depth max_depth max_points = Ok t /\
    Permutation (tree_points t) points /\
    height t <= Z.max 0 (max_depth - depth).
Proof.
  revert points depth max_depth max_points.
  induction fuel as [|fuel IH]; intros points depth max_depth max_points Hf;
    [lia|].
  cbn [build_octree].
  destruct ((max_depth <=? depth) || (len points <=? max_points)) eqn:E.
  - exists (Node points []). split; [reflexivity|]. simpl.
    rewrite app_nil_r. split; [reflexivity|lia].
  - apply orb_false_iff in E as [E _]. apply Z.leb_gt in E.
    set (center := (Qmean (map px points), Qmean (map py points),
                    Qmean (map pz points))).
    destruct (children_loop_spec
                (fun subset => build_octree fuel subset (depth + 1) max_depth
                                 max_points)
                points center (max_depth - depth - 1)) with (ds := octants)
                (children := @nil Tree) as (cs & -> & Hp & Hc).
    + intros subset.
      destruct (IH subset (depth + 1) max_depth max_points) as (t & Ht & Hperm & Hh);
        [lia|].
      exists t. split; [exact Ht|]. split; [exact Hperm|]. lia.
    + constructor.
    + cbn [bind]. exists (Node [] cs). split; [reflexivity|]. split.
      * cbn [tree_points app]. rewrite Hp. simpl flat_map at 1. simpl app.
        apply octants_partition.
      * cbn [height]. rewrite Z.max_r by lia.
        apply height_children; [lia|exact Hc].
Qed.

End CopieOctree.

Lemma copie_build_octree_keeps_points_witness :
  exists t,
    Copie.build_octree 7 Copie.two_cells_cloud 0 6 2 = Ok t /\
    Permutation (Copie.tree_points t) Copie.two_cells_cloud /\
    Copie.height t <= Z.max 0 (6 - 0).
Proof.
  apply (copie_build_octree_keeps_points 7 Copie.two_cells_cloud 0 6 2).
  simpl. lia.
Defined.

Section CopieRasters.

Import Octree Copie.

(** Same cell, and the first elevation is not above the second. *)
Local Abbreviation below :=
  (fun (a b : (Z * Z) * Q) => fst a = fst b /\ (snd a <= snd b)%Q).

Lemma py_min_le_py_max (v v' z : Q) :
  (v <= v')%Q -> (py_min v z <= py_max v' z)%Q.
Proof.
  intros Hv. unfold py_min, py_max.
  destruct (Qltb z v) eqn:E1; destruct (Qgtb z v') eqn:E2;
    try apply Qltb_true in E1; try apply Qgtb_true in E2;
    try apply Qltb_false in E1; lra.
Qed.

Lemma py_min_same (z : Q) : py_min z z = z.
Proof. unfold py_min. now destruct (Qltb z z). Qed.

Lemma py_max_same (z : Q) : py_max z z = z.
Proof. unfold py_max. now destruct (Qgtb z z). Qed.

Lemma grid_update_below (g1 g2 : GridDict) (key : Z * Z) (z : Q) :
  Forall2 below g1 g2 ->
  Forall2 below (grid_update py_min g1 key z) (grid_update py_max g2 key z).
Proof.
  induction 1 as [|[k1 v1] [k2 v2] t1 t2 [Hk Hv] Hrest IH]; simpl in *.
  - constructor; [|constructor]. simpl.
    rewrite py_min_same, py_max_same. split; [reflexivity|apply Qle_refl].
  - subst k2. destruct (TilesCopie.key_eqb k1 key).
    + constructor; [|exact Hrest]. simpl. split; [reflexivity|].
      now apply py_min_le_py_max.
    + constructor; [|exact IH]. simpl. auto.
Qed.

Lemma grid_loop_below (min_x min_y : Q) (pts : list Point3) : forall g1 g2,
  Forall2 below g1 g2 ->
  Forall2 below (grid_loop py_min min_x min_y pts g1)
                (grid_loop py_max min_x min_y pts g2).
Proof.
  induction pts as [|p rest IH]; intros g1 g2 H; cbn [grid_loop]; auto.
  apply IH. now apply grid_update_below.
Qed.

(** X28. [generate_dtm] and [generate_dsm] of [lidar - Copie.py], run on
    the same cloud, list the same cells in the same order, and in every
    cell the elevation of the terrain model is not above that of the
    surface model. *)
Theorem copie_dtm_below_dsm (pts : list Point3) (dtm dsm : list (Q * Q * Q)) :
  generate_dtm pts = Ok dtm -> generate_dsm pts = Ok dsm ->
  Forall2 (fun a b => fst a = fst b /\ (snd a <= snd b)%Q) dtm dsm.
Proof.
  unfold generate_dtm, generate_dsm, generate_model. intros H1 H2.
  destruct (min_of (map px pts)) as [min_x|]; [|discriminate].
  destruct (min_of (map py pts)) as [min_y|]; [|discriminate].
  simpl in H1, H2. injection H1 as <-. injection H2 as <-.
  pose proof (grid_loop_below min_x min_y pts [] [] (Forall2_nil _)) as H.
  unfold cells_out.
  induction H as [|[[gx1 gy1] z1] [[gx2 gy2] z2] t1 t2 [Hk Hz] _ IH]; simpl;
    constructor; auto.
  simpl in *. injection Hk as -> ->. auto.
Qed.

End CopieRasters.

Lemma copie_dtm_below_dsm_witness :
  exists dtm dsm,
    Copie.generate_dtm Copie.two_cells_cloud = Ok dtm /\
    Copie.generate_dsm Copie.two_cells_cloud = Ok dsm /\
    Forall2 (fun a b => fst a = fst b /\ (snd a <= snd b)%Q) dtm dsm.
Proof.
  eexists. eexists.
  split; [vm_compute; reflexivity|]. split; [vm_compute; reflexivity|].
  apply (copie_dtm_below_dsm Copie.two_cells_cloud); vm_compute; reflexivity.
Defined.

Section CopieStreaming.

Import Octree Sampling Copie.

Variable RandomState : Type.
Variable permutation : RandomState -> Z -> list Z * RandomState.

Hypothesis permutation_spec :
  forall g n, Permutation (fst (permutation g n)) (range n).

Lemma int_of_float_le (q : Q) (n : Z) :
  (q <= inject_Z n)%Q -> int_of_float q <= n.
Proof.
  destruct q as [a d]. unfold Qle, int_of_float. simpl. intros H.
  apply Z.quot_le_upper_bound; lia.
Qed.

Lemma py_min_le_l (a b : Q) : (py_min a b <= a)%Q.
Proof.
  unfold py_min. destruct (Qltb b a) eqn:E.
  - apply Qltb_true in E. lra.
  - apply Qle_refl.
Qed.

Lemma take_In {A : Type} (a : list A) (indices : list Z) (t : list A) :
  take a indices = Ok t -> Forall (fun x => In x a) t.
Proof.
  revert t. induction indices as [|i rest IH]; intros t H; simpl in H.
  - injection H as <-. constructor.
  - destruct (list_get a i) as [x|] eqn:Ex; [|discriminate]. simpl in H.
    destruct (take a rest) as [t'|]; [|discriminate]. simpl in H.
    injection H as <-. constructor; [|now apply IH].
    eapply list_get_In; eauto.
Qed.

(** X29. [adaptive_stream]: a distance of zero raises
    [ZeroDivisionError]. With a positive distance the sample size is at
    least 1000, so that a file of fewer than 1000 points always makes
    [np.random.choice] raise [ValueError]; a file of 1000 points or more
    is answered with at least 1000 and at most all of its points, taken
    at indices that are all different. *)
Theorem adaptive_stream_sample_size (g : RandomState) (pts : list Point3)
    (distance : Q) :
  ((distance == 0)%Q ->
   adaptive_stream RandomState permutation g pts distance =
   (Lod.Thrown Lod.ZeroDivisionError, g)) /\
  ((0 < distance)%Q -> len pts < 1000 ->
   adaptive_stream RandomState permutation g pts distance =
   (Lod.Thrown (Lod.Builtin ValueError), g)) /\
  ((0 < distance)%Q -> 1000 <= len pts ->
   exists sub idx g',
     adaptive_stream RandomState permutation g pts distance = (Lod.Done sub, g') /\
     take pts idx = Ok sub /\
     NoDup idx /\
     len sub = len idx /\
     1000 <= len sub <= len pts /\
     Forall (fun p => In p pts) sub).
Proof.
  assert (Hnz : (0 < distance)%Q -> Qeq_bool distance 0 = false).
  { intros H. apply not_true_is_false. rewrite Qeq_bool_iff. intros E.
    rewrite E in H. now apply Qlt_irrefl in H. }
  unfold adaptive_stream. split; [|split].
  - intros H. apply Qeq_bool_iff in H. now rewrite H.
  - intros H Hlen. rewrite (Hnz H). cbv zeta. unfold choice.
    set (sample := Z.max 1000 _).
    destruct ((len pts <=? 0) && negb (sample =? 0)); [reflexivity|].
    destruct (Z.ltb_spec (len pts) sample) as [_|Hge]; [reflexivity|].
    unfold sample in Hge. lia.
  - intros H Hlen. rewrite (Hnz H). cbv zeta.
    set (sample := Z.max 1000 _).
    assert (Hs : 1000 <= sample <= len pts).
    { unfold sample. split; [lia|]. apply Z.max_lub; [exact Hlen|].
      apply int_of_float_le.
      pose proof (py_min_le_l 1 (500 / distance)) as Hf.
      assert (Hn : (0 <= inject_Z (len pts))%Q).
      { change 0%Q with (inject_Z 0). rewrite <- Zle_Qle. lia. }
      rewrite <- (Qmult_1_r (inject_Z (len pts))) at 2.
      rewrite (Qmult_comm (inject_Z (len pts)) (py_min _ _)),
              (Qmult_comm (inject_Z (len pts)) 1).
      now apply Qmult_le_compat_r. }
    destruct (choice_in_range RandomState permutation permutation_spec g
                (len pts) sample) as (idx & g' & -> & Hidx & Hall & Hnd);
      [lia|lia|].
    destruct (take_in_range (A := Point3) pts idx Hall) as (sub & Hsub & Hl).
    cbn [Lod.lift Lod.and_then]. rewrite Hsub. cbn [Lod.lift].
    exists sub, idx, g'. split; [reflexivity|]. split; [exact Hsub|].
    split; [exact Hnd|]. split; [exact Hl|]. split; [lia|].
    eapply take_In; eauto.
Qed.

End CopieStreaming.

(** A file of 1000 returns streamed at the default distance, and a file
    of four. *)
Lemma adaptive_stream_sample_size_witness :
  let g := NumpyRandom.mt19937_seed 0 in
  let pts := Octree.lp_points (Lod.diagonal_cloud 1000) in
  (exists sub idx g',
     Copie.adaptive_stream NumpyRandom.State NumpyRandom.permutation g pts 1000
       = (Lod.Done sub, g') /\
     Sampling.take pts idx = Ok sub /\
     NoDup idx /\
     len sub = len idx /\
     1000 <= len sub <= len pts /\
     Forall (fun p => In p pts) sub) /\
  Copie.adaptive_stream NumpyRandom.State NumpyRandom.permutation g
    Copie.two_cells_cloud 1000 = (Lod.Thrown (Lod.Builtin ValueError), g).
Proof.
  intros g pts. split.
  - apply (proj2 (proj2 (adaptive_stream_sample_size NumpyRandom.State
                           NumpyRandom.permutation numpy_permutation_spec
                           g pts 1000))).
    + reflexivity.
    + vm_compute. discriminate.
  - apply (proj1 (proj2 (adaptive_stream_sample_size NumpyRandom.State
                           NumpyRandom.permutation numpy_permutation_spec
                           g Copie.two_cells_cloud 1000))); reflexivity.
Defined.

(** ** Statistics by class *)

Section ProcessFacts.

Import Sampling Process.

Lemma count_into_sum (counts : list (Z * Z)) (c : Z) :
  Zsum (map snd (count_into counts c)) = Zsum (map snd counts) + 1.
Proof.
  unfold Zsum.
  induction counts as [|[k n] rest IH]; cbn [count_into]; [reflexivity|].
  destruct (c <? k); [cbn [map snd fold_right]; lia|].
  destruct (c =? k); cbn [map snd fold_right] in *; lia.
Qed.

Lemma count_into_positive (counts : list (Z * Z)) (c : Z) :
  Forall (fun kn => 1 <= snd kn) counts ->
  Forall (fun kn => 1 <= snd kn) (count_into counts c).
Proof.
  induction 1 as [|[k n] rest Hn Hrest IH]; simpl.
  - constructor; [simpl; lia|constructor].
  - destruct (c <? k); [repeat constructor; auto; simpl; lia|].
    destruct (c =? k); constructor; auto. simpl in *. lia.
Qed.

Lemma count_into_increasing (counts : list (Z * Z)) (c : Z) : forall lo,
  match lo with Some b => b < c | None => True end ->
  increasing_from lo (map fst counts) ->
  increasing_from lo (map fst (count_into counts c)).
Proof.
  induction counts as [|[k n] rest IH]; intros lo Hlo Hinc; simpl in *.
  - auto.
  - destruct Hinc as [Hk Hrest].
    destruct (Z.ltb_spec c k) as [Hlt|Hge]; [simpl; auto|].
    destruct (Z.eqb_spec c k) as [->|Hne]; simpl; [auto|].
    split; [exact Hk|]. apply IH; [lia|exact Hrest].
Qed.

Lemma np_unique_spec (a : list Z) : forall counts,
  Forall (fun kn => 1 <= snd kn) counts ->
  increasing (map fst counts) ->
  Zsum (map snd (fold_left count_into a counts)) = Zsum (map snd counts) + len a /\
  Forall (fun kn => 1 <= snd kn) (fold_left count_into a counts) /\
  increasing (map fst (fold_left count_into a counts)).
Proof.
  induction a as [|c rest IH]; intros counts Hpos Hinc; simpl.
  - unfold len. simpl. split; [lia|auto].
  - destruct (IH (count_into counts c)) as (Hsum & Hpos' & Hinc').
    + now apply count_into_positive.
    + now apply count_into_increasing.
    + split; [|auto]. rewrite Hsum, count_into_sum, len_cons. lia.
Qed.

(** X30. [process_lidar] with the operation [classification], on a file
    that carries one class per point: the classes are listed in
    increasing order, every listed class has at least one point, and
    the counts add up to [total_points]. *)
Theorem process_lidar_classification_counts (las : LasData)
    (cls : list Z) :
  las_classification las = Some cls -> len cls = len (las_x las) ->
  exists classes,
    process_lidar (Some (Ok las)) classification =
      Response (ClassificationStats (len (las_x las)) classes) /\
    Zsum (class_counts classes) = len (las_x las) /\
    Forall (fun c => 1 <= c) (class_counts classes) /\
    increasing (map fst classes).
Proof.
  intros Hc Hlen. unfold process_lidar, classification.
  cbn [String.eqb Ascii.eqb Bool.eqb]. rewrite Hc. cbv zeta.
  eexists. split; [reflexivity|].
  destruct (np_unique_spec cls []) as (Hsum & Hpos & Hinc);
    [constructor|exact I|].
  fold (np_unique cls) in Hsum, Hpos, Hinc.
  simpl Zsum in Hsum. rewrite Z.add_0_l, Hlen in Hsum.
  unfold class_counts. rewrite !map_map.
  assert (Ecount : forall l : list (Z * Z),
            map (fun x => cs_count (snd (let '(c, count) := x in
                    (c, mkClassStat (class_name c) count
                          (inject_Z count / inject_Z (len (las_x las)) * 100)%Q))))
                l = map snd l).
  { intros l. apply map_ext. now intros [c n]. }
  rewrite Ecount. split; [exact Hsum|]. split.
  - apply Forall_map. exact Hpos.
  - erewrite map_ext; [exact Hinc|]. now intros [c n].
Qed.

End ProcessFacts.

Lemma process_lidar_classification_counts_witness :
  exists classes,
    Process.process_lidar (Some (Ok Sampling.three_returns))
      Process.classification =
      Sampling.Response
        (Process.ClassificationStats
           (len (Sampling.las_x Sampling.three_returns)) classes) /\
    Zsum (Process.class_counts classes) =
      len (Sampling.las_x Sampling.three_returns) /\
    Forall (fun c => 1 <= c) (Process.class_counts classes) /\
    Process.increasing (map fst classes).
Proof.
  apply (process_lidar_classification_counts Sampling.three_returns [2; 2; 6]);
    reflexivity.
Defined.
